(** * The parallel ranged downloader of aliyunpan: planner, URL resolution
      and the [Execute] facade of package [downloader].

    Go values are modelled as follows: [int] and [int64] are [Z] (64 bit,
    wrap-around written with [wrap64] where the source adds), integer
    division is Go's truncated division [Z.quot] and panics when the
    divisor is zero, a nilable pointer is an [option], a slice is a [list],
    a Go [error] is an [option error].  The observable actions of a session
    (event triggers, URL probes, API calls, checkpoint operations, the
    monitor run) are appended to a log in program order. *)

From Stdlib Require Import ZArith List String Ascii Bool Lia RelationClasses.
Import ListNotations.
Open Scope Z_scope.

Set Implicit Arguments.

(** ** Go runtime vocabulary *)

Inductive panic : Type :=
| DivideByZero
| IndexOutOfRange
| NilDereference.

Inductive Res (A : Type) : Type :=
| Ret (a : A)
| Panic (p : panic).
Arguments Ret {A} a.
Arguments Panic {A} p.

(** Two's complement wrap-around of a 64 bit signed integer. *)
Definition wrap64 (z : Z) : Z := (z + 2 ^ 63) mod 2 ^ 64 - 2 ^ 63.

Definition int64_range (z : Z) : Prop := - 2 ^ 63 <= z < 2 ^ 63.

(** [len(s)] of a slice. *)
Definition len {A : Type} (s : list A) : Z := Z.of_nat (List.length s).

(** [a / b] on Go integers. *)
Definition go_div (a b : Z) : Res Z :=
  if b =? 0 then Panic DivideByZero else Ret (wrap64 (Z.quot a b)).

(** [s[i]] on a slice. *)
Definition go_index {A : Type} (s : list A) (i : Z) : Res A :=
  if (i <? 0) || (len s <=? i) then Panic IndexOutOfRange
  else match nth_error s (Z.to_nat i) with
       | Some a => Ret a
       | None => Panic IndexOutOfRange
       end.

(** The errors that cross the facade. *)
Inductive error : Type :=
| ErrUnknownRangeGenMode                (* transfer.ErrUnknownRangeGenMode *)
| ErrFileDownloadForbidden
| ErrNoWokers
| ApiError (code : Z)                   (* a non-nil *apierror.ApiError *)
| OtherError (msg : string).

(** ** Package [transfer]: ranges and range generators *)

Module transfer.

Record Range : Type := { Begin : Z; End : Z }.

Definition RangeList : Type := list Range.

(** [RangeGenMode] is an integer enumeration; the third constructor stands
    for every value that is neither of the two named constants. *)
Inductive RangeGenMode : Type :=
| RangeGenMode_Default
| RangeGenMode_BlockSize
| RangeGenMode_Other (raw : Z).

(** The downloader uses the range generator of package [transfer] through
    these four operations.  [GenRange] returns
    the index, the range ([None] for a nil range) and the generator after
    the call (the source mutates it in place). *)
Class RangeGenOps : Type := {
  RangeListGen : Type;
  NewRangeListGenDefault : Z -> Z -> Z -> Z -> RangeListGen;
  NewRangeListGenBlockSize : Z -> Z -> Z -> RangeListGen;
  LoadBlockSize : RangeListGen -> Z;
  GenRange : RangeListGen -> (Z * option Range) * RangeListGen
}.

(** [DownloadStatus], reduced to the fields the facade reads and writes. *)
Record DownloadStatus `{RangeGenOps} : Type := {
  totalSize : Z;
  rangeListGen : option RangeListGen;
  rateLimit : option Z
}.

Definition NewDownloadStatus `{RangeGenOps} : DownloadStatus :=
  {| totalSize := 0; rangeListGen := None; rateLimit := None |}.

Definition SetTotalSize `{RangeGenOps} (s : DownloadStatus) (n : Z) : DownloadStatus :=
  {| totalSize := n; rangeListGen := rangeListGen s; rateLimit := rateLimit s |}.

Definition SetRangeListGen `{RangeGenOps} (s : DownloadStatus)
    (g : option RangeListGen) : DownloadStatus :=
  {| totalSize := totalSize s; rangeListGen := g; rateLimit := rateLimit s |}.

Definition SetRateLimit `{RangeGenOps} (s : DownloadStatus) (r : Z) : DownloadStatus :=
  {| totalSize := totalSize s; rangeListGen := rangeListGen s; rateLimit := Some r |}.

(** The checkpoint as [InstanceState.Get] hands it over. *)
Record DownloadInstanceInfo `{RangeGenOps} : Type := {
  DownloadStatus_ : option DownloadStatus;
  Ranges : RangeList
}.

End transfer.
Import transfer.

(** Modelled from the spec: the range generators of package [transfer], whose
    source is not part of this development.  "In Default mode, ranges are equal-width
    with possible remainder on the last.  In BlockSize mode ranges are
    generated sequentially of blockSize bytes until exhausted."  This
    instance only serves to run the facade on concrete inputs; every theorem
    below is stated for an arbitrary [RangeGenOps]. *)
Module SpecGen.

Record gen : Type := {
  total : Z;
  begin : Z;
  blockSize : Z;
  parallel : Z;
  count : Z;
  byBlock : bool
}.

Definition newDefault (totalSize begin count parallel : Z) : gen :=
  {| total := totalSize; begin := begin;
     blockSize := Z.quot totalSize (Z.max 1 parallel);
     parallel := parallel; count := count; byBlock := false |}.

Definition newBlockSize (totalSize begin blockSize : Z) : gen :=
  {| total := totalSize; begin := begin; blockSize := blockSize;
     parallel := 0; count := 0; byBlock := true |}.

Definition advance (g : gen) (e : Z) : gen :=
  {| total := total g; begin := e; blockSize := blockSize g;
     parallel := parallel g; count := count g + 1; byBlock := byBlock g |}.

Definition genRange (g : gen) : (Z * option Range) * gen :=
  if byBlock g then
    if total g <=? begin g then ((count g, None), g)
    else
      let e := Z.min (total g) (begin g + blockSize g) in
      ((count g, Some {| Begin := begin g; End := e |}), advance g e)
  else
    if Z.max 1 (parallel g) <=? count g then ((count g, None), g)
    else
      let e := if count g =? Z.max 1 (parallel g) - 1 then total g
               else begin g + blockSize g in
      ((count g, Some {| Begin := begin g; End := e |}), advance g e).

#[export] Instance ops : RangeGenOps := {
  RangeListGen := gen;
  NewRangeListGenDefault := newDefault;
  NewRangeListGenBlockSize := newBlockSize;
  LoadBlockSize := blockSize;
  GenRange := genRange
}.

End SpecGen.

(** ** External collaborators: the cloud API and HTTP *)

Module aliyunpan.

Record FileEntity : Type := {
  FileId : string;
  DriveId : string;
  AlbumId : string;
  FileSize : Z;
  Path : string;
  FileExtension : string
}.

Record GetFileDownloadUrlResult : Type := { Url : string }.

Record StreamsUrlInfo : Type := { Mov : string; Heic : string; Jpeg : string }.

Record ShareAlbumGetFileUrlResult : Type := {
  StreamsUrl : option StreamsUrlInfo;
  AlbumFileUrl : string                 (* the result's [Url] field *)
}.

Record UserInfo : Type := { FileDriveId : string; ResourceDriveId : string }.

End aliyunpan.

(** [global.FileSourceType]: the source compares with [AlbumSource] only,
    every other value takes the file-source path. *)
Inductive FileSourceType : Type := FileSource | AlbumSource.

(** An account's API client.  Each call answers with a (possibly nil) result
    and a (possibly nil) API error, as the Go signatures do. *)
Record PanClient : Type := {
  GetFileDownloadUrl :
    string -> string -> option aliyunpan.GetFileDownloadUrlResult * option error;
  ShareAlbumGetFileDownloadUrl :
    string -> string -> string ->
    option aliyunpan.ShareAlbumGetFileUrlResult * option error;
  GetUserInfo : option aliyunpan.UserInfo * option error;
  FileInfoByPath : string -> string -> option aliyunpan.FileEntity * option error
}.

(** [*url.URL], as far as the probe touches it. *)
Record URL : Type := { Scheme : string; Rest : string }.

Definition URL_String (u : URL) : string := Scheme u ++ "://" ++ Rest u.

(** [*http.Response]: [Request] is [None] for a nil request. *)
Record Response : Type := {
  StatusCode : Z;
  ContentLength : Z;
  Request : option URL
}.

(** [DURLCheckFunc]: content length, response and error of one probe. *)
Definition DURLCheckFunc : Type := string -> Z * option Response * option error.

(** ** Package [downloader] *)

Inductive Event : Type :=
| onExecuteEvent
| onSuccessEvent
| onFailedEvent
| onFinishEvent
| onPauseEvent
| onResumeEvent
| onCancelEvent.

Inductive ClientRef : Type :=
| MainClient
| SubClient (i : nat).

Inductive ApiOp : Type :=
| OpGetFileDownloadUrl (driveId fileId : string)
| OpShareAlbumGetFileDownloadUrl (albumId driveId fileId : string)
| OpGetUserInfo
| OpFileInfoByPath (driveId path : string).

(** What a session does to the outside, in program order.  [Trigger e] is the
    call [cmdutil.Trigger] on the callback slot [e], which runs the callback
    registered there, if any. *)
Inductive Effect : Type :=
| Trigger (e : Event)                 (* cmdutil.Trigger(der.on...Event) *)
| TriggerMonitorCancel                (* cmdutil.Trigger(der.monitorCancelFunc) *)
| DurlCheck (durl : string)           (* der.durlCheckFunc(der.client, durl) *)
| ApiCall (c : ClientRef) (op : ApiOp)
| Sleep200ms
| InitInstanceState                   (* der.initInstanceState(format) *)
| RemoveInstanceState                 (* der.removeInstanceState() *)
| SetSyncPoolSize (n : Z)             (* cachepool.SetSyncPoolSize *)
| PreAlloc (size : Z)                 (* prealloc.PreAlloc *)
| MonitorExecute                      (* der.monitor.Execute(ctx) *)
| MonitorPause
| MonitorResume
| RateLimitStop.                      (* the deferred rl.Stop() *)

Definition Effect_is_Trigger (ev : Event) (e : Effect) : bool :=
  match e, ev with
  | Trigger onExecuteEvent, onExecuteEvent
  | Trigger onSuccessEvent, onSuccessEvent
  | Trigger onFailedEvent, onFailedEvent
  | Trigger onFinishEvent, onFinishEvent
  | Trigger onPauseEvent, onPauseEvent
  | Trigger onResumeEvent, onResumeEvent
  | Trigger onCancelEvent, onCancelEvent => true
  | _, _ => false
  end.

(** How many times an event was fired in a log. *)
Definition fired (ev : Event) (l : list Effect) : nat :=
  List.length (filter (Effect_is_Trigger ev) l).

(** A URL is probed or resolved by these effects. *)
Definition touches_url (e : Effect) : bool :=
  match e with
  | DurlCheck _ | ApiCall _ _ => true
  | _ => false
  end.

(** The checkpoint file is opened, written or deleted by these effects. *)
Definition touches_checkpoint (e : Effect) : bool :=
  match e with
  | InitInstanceState | RemoveInstanceState | MonitorExecute => true
  | _ => false
  end.

Record Config : Type := {
  Mode : RangeGenMode;
  MaxRate : Z;
  SliceParallel : Z;
  BlockSize : Z;
  CacheSize : Z;
  TryHTTP : bool
}.

Record LoadBalancerResponse : Type := { URL_ : string }.

(** Modelled from the spec: [LoadBalancerResponseList] and its
    [SequentialGet], declared in another file of the package.
    "SequentialGet() returns URLs in admission order, cycling"; on an empty
    pool it returns nil. *)
Record LoadBalancerResponseList : Type := {
  lbr : list LoadBalancerResponse;
  cursor : nat
}.

Definition NewLoadBalancerResponseList (l : list LoadBalancerResponse)
  : LoadBalancerResponseList := {| lbr := l; cursor := 0 |}.

Definition SequentialGet (l : LoadBalancerResponseList)
  : option LoadBalancerResponse * LoadBalancerResponseList :=
  match lbr l with
  | [] => (None, l)
  | _ :: _ =>
      let c := if Nat.leb (List.length (lbr l)) (cursor l) then O else cursor l in
      (nth_error (lbr l) c, {| lbr := lbr l; cursor := S c |})
  end.

(** [panClientDownloadUrlEntity]. *)
Record panClientDownloadUrlEntity : Type := {
  PanClient_ : ClientRef;
  FileInfo : aliyunpan.FileEntity;
  DriveId : string;
  FileId : string;
  FileUrl : string
}.

(** A worker as [Execute] configures it (constructor and setters are
    declared in another file of the package and store their arguments). *)
Record Worker : Type := {
  wid : Z;
  wdriveId : string;
  wfileId : string;
  wurl : string;
  wpanClient : ClientRef;
  wtotalSize : Z;
  wacceptRanges : string;
  wrange : Range
}.

Section downloader.

Context {ops : RangeGenOps}.

(** The scheduler, as far as the facade sets it up.  Its methods are declared
    in another file of the package; the setters store their argument. *)
Record Monitor : Type := {
  capacity : Z;
  workers : list Worker;
  status : option DownloadStatus;
  isReloadWorker : bool;
  hasInstanceState : bool
}.

Definition NewMonitor : Monitor :=
  {| capacity := 0; workers := []; status := None;
     isReloadWorker := false; hasInstanceState := false |}.

Definition Monitor_InitMonitorCapacity (m : Monitor) (n : Z) : Monitor :=
  {| capacity := n; workers := workers m; status := status m;
     isReloadWorker := isReloadWorker m; hasInstanceState := hasInstanceState m |}.

Definition Monitor_Append (m : Monitor) (wk : Worker) : Monitor :=
  {| capacity := capacity m; workers := workers m ++ [wk]; status := status m;
     isReloadWorker := isReloadWorker m; hasInstanceState := hasInstanceState m |}.

Definition Monitor_SetStatus (m : Monitor) (s : DownloadStatus) : Monitor :=
  {| capacity := capacity m; workers := workers m; status := Some s;
     isReloadWorker := isReloadWorker m; hasInstanceState := hasInstanceState m |}.

Definition Monitor_SetReloadWorker (m : Monitor) (b : bool) : Monitor :=
  {| capacity := capacity m; workers := workers m; status := status m;
     isReloadWorker := b; hasInstanceState := hasInstanceState m |}.

Definition Monitor_SetInstanceState (m : Monitor) (b : bool) : Monitor :=
  {| capacity := capacity m; workers := workers m; status := status m;
     isReloadWorker := isReloadWorker m; hasInstanceState := b |}.

(** What the session takes from its surroundings: package level values, the
    HTTP client, the checkpoint store and the scheduler's verdict
    ([der.monitor.Err()] after [der.monitor.Execute]). *)
Record Extern : Type := {
  MinParallelSize : Z;
  MaxParallelWorkerCount : Z;
  IllegalDownloadUrlPrefix : string;
  NewConfig : Config;
  clientReq : string -> option Response * option error;
  initInstanceStateErr : option error;
  instanceStateGet : option DownloadInstanceInfo;
  monitorErr : Monitor -> option error
}.

Variable X : Extern.

(** [Downloader].  [monitorCancelFunc] and [instanceState] record whether the
    field has been set; [writerIsFder] whether the writer also is an [Fder].
    The callback slots are named by [Event]; the HTTP client (only its
    timeout is touched), the speed statistics and the unused
    [loadBalancerCompareFunc] are left out. *)
Record Downloader : Type := {
  monitorCancelFunc : bool;
  filePanSource : FileSourceType;
  fileInfo : option aliyunpan.FileEntity;
  driveId : string;
  durlCheckFunc : option DURLCheckFunc;
  loadBalansers : list string;
  writerIsFder : bool;
  panClient : PanClient;
  subPanClientList : list PanClient;
  config : option Config;
  monitor : option Monitor;
  instanceState : bool
}.

(** [NewDownloader]: every field that is not an argument is Go's zero value. *)
Definition NewDownloader (writerIsFder : bool) (config : option Config)
    (p : PanClient) (sp : list PanClient) : Downloader :=
  {| monitorCancelFunc := false; filePanSource := FileSource; fileInfo := None;
     driveId := ""; durlCheckFunc := None; loadBalansers := [];
     writerIsFder := writerIsFder; panClient := p; subPanClientList := sp;
     config := config; monitor := None; instanceState := false |}.

Definition SetFileInfo (d : Downloader) (source : FileSourceType)
    (f : option aliyunpan.FileEntity) : Downloader :=
  {| monitorCancelFunc := monitorCancelFunc d; filePanSource := source;
     fileInfo := f; driveId := driveId d; durlCheckFunc := durlCheckFunc d;
     loadBalansers := loadBalansers d; writerIsFder := writerIsFder d;
     panClient := panClient d; subPanClientList := subPanClientList d;
     config := config d; monitor := monitor d; instanceState := instanceState d |}.

Definition SetDriveId (d : Downloader) (id : string) : Downloader :=
  {| monitorCancelFunc := monitorCancelFunc d; filePanSource := filePanSource d;
     fileInfo := fileInfo d; driveId := id; durlCheckFunc := durlCheckFunc d;
     loadBalansers := loadBalansers d; writerIsFder := writerIsFder d;
     panClient := panClient d; subPanClientList := subPanClientList d;
     config := config d; monitor := monitor d; instanceState := instanceState d |}.

Definition set_config (d : Downloader) (c : option Config) : Downloader :=
  {| monitorCancelFunc := monitorCancelFunc d; filePanSource := filePanSource d;
     fileInfo := fileInfo d; driveId := driveId d; durlCheckFunc := durlCheckFunc d;
     loadBalansers := loadBalansers d; writerIsFder := writerIsFder d;
     panClient := panClient d; subPanClientList := subPanClientList d;
     config := c; monitor := monitor d; instanceState := instanceState d |}.

Definition set_monitor (d : Downloader) (m : option Monitor) : Downloader :=
  {| monitorCancelFunc := monitorCancelFunc d; filePanSource := filePanSource d;
     fileInfo := fileInfo d; driveId := driveId d; durlCheckFunc := durlCheckFunc d;
     loadBalansers := loadBalansers d; writerIsFder := writerIsFder d;
     panClient := panClient d; subPanClientList := subPanClientList d;
     config := config d; monitor := m; instanceState := instanceState d |}.

Definition set_durlCheckFunc (d : Downloader) (f : option DURLCheckFunc) : Downloader :=
  {| monitorCancelFunc := monitorCancelFunc d; filePanSource := filePanSource d;
     fileInfo := fileInfo d; driveId := driveId d; durlCheckFunc := f;
     loadBalansers := loadBalansers d; writerIsFder := writerIsFder d;
     panClient := panClient d; subPanClientList := subPanClientList d;
     config := config d; monitor := monitor d; instanceState := instanceState d |}.

Definition set_monitorCancelFunc (d : Downloader) (b : bool) : Downloader :=
  {| monitorCancelFunc := b; filePanSource := filePanSource d;
     fileInfo := fileInfo d; driveId := driveId d; durlCheckFunc := durlCheckFunc d;
     loadBalansers := loadBalansers d; writerIsFder := writerIsFder d;
     panClient := panClient d; subPanClientList := subPanClientList d;
     config := config d; monitor := monitor d; instanceState := instanceState d |}.

Definition set_instanceState (d : Downloader) (b : bool) : Downloader :=
  {| monitorCancelFunc := monitorCancelFunc d; filePanSource := filePanSource d;
     fileInfo := fileInfo d; driveId := driveId d; durlCheckFunc := durlCheckFunc d;
     loadBalansers := loadBalansers d; writerIsFder := writerIsFder d;
     panClient := panClient d; subPanClientList := subPanClientList d;
     config := config d; monitor := monitor d; instanceState := b |}.

(** *** The session monad: the receiver, the log, the deferred calls *)

Record World : Type := {
  der : Downloader;
  log : list Effect;
  deferred : list Effect
}.

Definition M (A : Type) : Type := World -> Res A * World.

Definition ret {A : Type} (a : A) : M A := fun w => (Ret a, w).

Definition bind {A B : Type} (m : M A) (k : A -> M B) : M B :=
  fun w =>
    match m w with
    | (Ret a, w') => k a w'
    | (Panic p, w') => (Panic p, w')
    end.

Definition throw {A : Type} (p : panic) : M A := fun w => (Panic p, w).

Definition liftRes {A : Type} (r : Res A) : M A :=
  match r with
  | Ret a => ret a
  | Panic p => throw p
  end.

(** Dereference of a nilable pointer. *)
Definition deref {A : Type} (o : option A) : M A :=
  match o with
  | Some a => ret a
  | None => throw NilDereference
  end.

Definition emit (e : Effect) : M unit :=
  fun w => (Ret tt, {| der := der w; log := log w ++ [e]; deferred := deferred w |}).

Definition getDer : M Downloader := fun w => (Ret (der w), w).

Definition modifyDer (f : Downloader -> Downloader) : M unit :=
  fun w => (Ret tt, {| der := f (der w); log := log w; deferred := deferred w |}).

(** [defer f()]: the call is pushed, and runs when the function leaves. *)
Definition defer (e : Effect) : M unit :=
  fun w => (Ret tt, {| der := der w; log := log w; deferred := e :: deferred w |}).

(** A call opens an empty frame of deferred calls and runs them, last one
    first, when it leaves. *)
Definition enter (w : World) : World :=
  {| der := der w; log := log w; deferred := [] |}.

Definition leave (caller w : World) : World :=
  {| der := der w; log := log w ++ deferred w; deferred := deferred caller |}.

Definition runDeferred {A : Type} (m : M A) : M A :=
  fun w => let (r, w') := m (enter w) in (r, leave w w').

Notation "x <- c1 ;; c2" := (bind c1 (fun x => c2))
  (at level 61, c1 at next level, right associativity).
Notation "' pat <- c1 ;; c2" := (bind c1 (fun x => match x with pat => c2 end))
  (at level 61, pat pattern, c1 at next level, right associativity).
Notation "c1 ;; c2" := (bind c1 (fun _ => c2))
  (at level 61, right associativity).

(** *** Planner (lines 145-208) *)

(** [SelectParallel].  [MinParallelSize] is a package level value, so the
    division is Go's and panics on zero. *)
Definition SelectParallel (prefParallel maxParallel totalSize : Z)
    (instanceRangeList : RangeList) : Res Z :=
  let isRange := 0 <? len instanceRangeList in
  match
    (if 0 <? prefParallel then Ret prefParallel
     else if isRange then Ret (len instanceRangeList)
     else
       match go_div totalSize (MinParallelSize X) with
       | Panic p => Panic p
       | Ret q =>
           let parallel := maxParallel in
           Ret (if q <? parallel then wrap64 (q + 1) else parallel)
       end)
  with
  | Panic p => Panic p
  | Ret parallel => Ret (if parallel <? 1 then 1 else parallel)
  end.

(** [SelectBlockSizeAndInitRangeGen]: block size, error and the status after
    [status.SetRangeListGen(gen)]. *)
Definition SelectBlockSizeAndInitRangeGen (d : Downloader)
    (status : DownloadStatus) (parallel : Z)
  : Res (Z * option error * DownloadStatus) :=
  if parallel =? 1 then Ret (-1, None, status)
  else
    match rangeListGen status with
    | None =>
        match config d with
        | None => Panic NilDereference
        | Some cfg =>
            match Mode cfg with
            | RangeGenMode_Default =>
                let gen := NewRangeListGenDefault (totalSize status) 0 0 parallel in
                Ret (LoadBlockSize gen, None, SetRangeListGen status (Some gen))
            | RangeGenMode_BlockSize =>
                match go_div (totalSize status) parallel with
                | Panic p => Panic p
                | Ret q =>
                    let b2 := wrap64 (q + 1) in
                    let blockSize :=
                      if BlockSize cfg <? b2 then BlockSize cfg else b2 in
                    let gen :=
                      NewRangeListGenBlockSize (totalSize status) 0 blockSize in
                    Ret (blockSize, None, SetRangeListGen status (Some gen))
                end
            | RangeGenMode_Other _ => Ret (0, Some ErrUnknownRangeGenMode, status)
            end
        end
    | Some gen => Ret (LoadBlockSize gen, None, SetRangeListGen status (Some gen))
    end.

Definition SelectCacheSize (confCacheSize blockSize : Z) : Z :=
  if (0 <? blockSize) && (blockSize <? confCacheSize) then blockSize
  else confCacheSize.

(** *** URL pool (lines 210-299) *)

(** [DefaultDURLCheckFunc].  A nil response without an error makes the source
    panic on [resp.ContentLength]; here it is handed on as nil and the panic
    is raised where [probe] dereferences it. *)
Definition DefaultDURLCheckFunc : DURLCheckFunc :=
  fun durl =>
    match clientReq X durl with
    | (_, Some err) => (0, None, Some err)
    | (Some resp, None) => (ContentLength resp, Some resp, None)
    | (None, None) => (0, None, None)
    end.

(** The closure [handleLoadBalancer]: the entry it appends, if any. *)
Definition handleLoadBalancer (req : option URL) : M (option LoadBalancerResponse) :=
  match req with
  | None => ret None
  | Some u =>
      d <- getDer ;;
      cfg <- deref (config d) ;;
      let u := if TryHTTP cfg then {| Scheme := "http"; Rest := Rest u |} else u in
      ret (Some {| URL_ := URL_String u |})
  end.

(** The body of one probe goroutine: the entry it adds to the pool, if any. *)
Definition probe (loadBalanser : string) : M (option LoadBalancerResponse) :=
  d <- getDer ;;
  check <- deref (durlCheckFunc d) ;;
  emit (DurlCheck loadBalanser) ;;
  let '(subContentLength, subResp, subErr) := check loadBalanser in
  match subErr with
  | Some _ => ret None
  | None =>
      resp <- deref subResp ;;
      let class := Z.quot (StatusCode resp) 100 in
      if (class =? 4) || (class =? 5) then ret None
      else
        fi <- deref (fileInfo d) ;;
        if negb (aliyunpan.FileSize fi =? subContentLength) then ret None
        else handleLoadBalancer (Request resp)
  end.

(** The probes write to one slice from their goroutines; the model runs them
    in the order of [der.loadBalansers]. *)
Fixpoint probeAll (l : list string) (acc : list LoadBalancerResponse)
  : M (list LoadBalancerResponse) :=
  match l with
  | [] => ret acc
  | loadBalanser :: rest =>
      r <- probe loadBalanser ;;
      probeAll rest (match r with Some x => acc ++ [x] | None => acc end)
  end.

Definition checkLoadBalancers : M LoadBalancerResponseList :=
  d <- getDer ;;
  loadBalancerResponses <- probeAll (loadBalansers d) [ {| URL_ := "der.durl" |} ] ;;
  ret (NewLoadBalancerResponseList loadBalancerResponses).

(** *** URL resolution (lines 461-618) *)

(** [der.removeInstanceState()], declared in another file of the package: it
    deletes the checkpoint file. *)
Definition removeInstanceState : M unit := emit RemoveInstanceState.

(** The URL of a result that passes the test of line 489 (and 549). *)
Definition usableUrl (durl : option aliyunpan.GetFileDownloadUrlResult)
  : option string :=
  match durl with
  | None => None
  | Some u =>
      if (aliyunpan.Url u =? "")%string
         || prefix (IllegalDownloadUrlPrefix X) (aliyunpan.Url u)
      then None
      else Some (aliyunpan.Url u)
  end.

(** The loop over the auxiliary accounts (lines 520-561). *)
Fixpoint subClientUrls (mainDriveName mainFileFullPath : string) (i : nat)
    (spcs : list PanClient) (result : list panClientDownloadUrlEntity)
  : M (list panClientDownloadUrlEntity) :=
  match spcs with
  | [] => ret result
  | spc :: rest =>
      let continue := subClientUrls mainDriveName mainFileFullPath (S i) rest in
      emit (ApiCall (SubClient i) OpGetUserInfo) ;;
      let '(userInfo, err1) := GetUserInfo spc in
      match err1 with
      | Some _ => continue result
      | None =>
          driveId <-
            (if (mainDriveName =? "File")%string then
               ui <- deref userInfo ;; ret (aliyunpan.FileDriveId ui)
             else if (mainDriveName =? "Resource")%string then
               ui <- deref userInfo ;; ret (aliyunpan.ResourceDriveId ui)
             else ret ""%string) ;;
          emit (ApiCall (SubClient i) (OpFileInfoByPath driveId mainFileFullPath)) ;;
          let '(panfileInfo, err2) := FileInfoByPath spc driveId mainFileFullPath in
          match err2, panfileInfo with
          | None, Some pfi =>
              emit (ApiCall (SubClient i)
                      (OpGetFileDownloadUrl driveId (aliyunpan.FileId pfi))) ;;
              let '(durl2, apierr) :=
                GetFileDownloadUrl spc driveId (aliyunpan.FileId pfi) in
              emit Sleep200ms ;;
              match apierr with
              | Some _ => continue result
              | None =>
                  match usableUrl durl2 with
                  | None => continue result
                  | Some url =>
                      continue
                        (result ++
                         [ {| PanClient_ := SubClient i; FileInfo := pfi;
                              DriveId := driveId; FileId := aliyunpan.FileId pfi;
                              FileUrl := url |} ])
                  end
              end
          | _, _ => continue result
          end
      end
  end.

Definition getFileSourceDownloadUrl
  : M (option (list panClientDownloadUrlEntity) * option error) :=
  d <- getDer ;;
  fi <- deref (fileInfo d) ;;
  emit (ApiCall MainClient (OpGetFileDownloadUrl (driveId d) (aliyunpan.FileId fi))) ;;
  let '(durl, apierr) :=
    GetFileDownloadUrl (panClient d) (driveId d) (aliyunpan.FileId fi) in
  emit Sleep200ms ;;
  match apierr with
  | Some e =>
      emit (Trigger onCancelEvent) ;;
      ret (None, Some e)
  | None =>
      match usableUrl durl with
      | None =>
          emit (Trigger onCancelEvent) ;;
          removeInstanceState ;;
          emit (Trigger onFailedEvent) ;;
          ret (None, Some ErrFileDownloadForbidden)
      | Some url =>
          let result :=
            [ {| PanClient_ := MainClient; FileInfo := fi; DriveId := driveId d;
                 FileId := aliyunpan.FileId fi; FileUrl := url |} ] in
          emit (ApiCall MainClient OpGetUserInfo) ;;
          let '(openUserInfo, err) := GetUserInfo (panClient d) in
          match err, openUserInfo with
          | None, Some ui =>
              let mainDriveName :=
                if (aliyunpan.FileDriveId ui =? driveId d)%string then "File"%string
                else if (aliyunpan.ResourceDriveId ui =? driveId d)%string
                     then "Resource"%string
                     else ""%string in
              let mainFileFullPath := aliyunpan.Path fi in
              result <- subClientUrls mainDriveName mainFileFullPath O
                          (subPanClientList d) result ;;
              ret (Some result, None)
          | _, _ => ret (None, err)
          end
      end
  end.

(** ASCII part of [strings.ToLower]. *)
Definition toLowerAscii (c : ascii) : ascii :=
  let n := nat_of_ascii c in
  if (Nat.leb 65 n && Nat.leb n 90)%bool then ascii_of_nat (n + 32) else c.

Fixpoint ToLower (s : string) : string :=
  match s with
  | EmptyString => EmptyString
  | String c r => String (toLowerAscii c) (ToLower r)
  end.

Definition nonEmpty (s : string) : bool := negb (s =? "")%string.

(** Lines 584-601: the URL picked from an album result. *)
Definition albumRealUrl (fi : aliyunpan.FileEntity)
    (durl : aliyunpan.ShareAlbumGetFileUrlResult) : string :=
  match aliyunpan.StreamsUrl durl with
  | Some streams =>
      if (ToLower (aliyunpan.FileExtension fi) =? "mov")%string then
        if nonEmpty (aliyunpan.Mov streams) then aliyunpan.Mov streams
        else ""%string
      else
        if nonEmpty (aliyunpan.Heic streams) then aliyunpan.Heic streams
        else if nonEmpty (aliyunpan.Jpeg streams) then aliyunpan.Jpeg streams
        else ""%string
  | None =>
      if nonEmpty (aliyunpan.AlbumFileUrl durl) then aliyunpan.AlbumFileUrl durl
      else ""%string
  end.

Definition getAlbumSourceDownloadUrl
  : M (option (list panClientDownloadUrlEntity) * option error) :=
  d <- getDer ;;
  fi <- deref (fileInfo d) ;;
  emit (ApiCall MainClient
          (OpShareAlbumGetFileDownloadUrl (aliyunpan.AlbumId fi)
             (aliyunpan.DriveId fi) (aliyunpan.FileId fi))) ;;
  let '(durl, apierr) :=
    ShareAlbumGetFileDownloadUrl (panClient d) (aliyunpan.AlbumId fi)
      (aliyunpan.DriveId fi) (aliyunpan.FileId fi) in
  emit Sleep200ms ;;
  match apierr with
  | Some e =>
      emit (Trigger onCancelEvent) ;;
      ret (None, Some e)
  | None =>
      durl <- deref durl ;;
      let realUrl := albumRealUrl fi durl in
      if (realUrl =? "")%string then
        emit (Trigger onCancelEvent) ;;
        removeInstanceState ;;
        emit (Trigger onFailedEvent) ;;
        ret (None, Some ErrFileDownloadForbidden)
      else
        ret (Some [ {| PanClient_ := MainClient; FileInfo := fi;
                       DriveId := driveId d; FileId := aliyunpan.FileId fi;
                       FileUrl := realUrl |} ], None)
  end.

Definition getFileAllClientDownloadUrl
  : M (option (list panClientDownloadUrlEntity) * option error) :=
  d <- getDer ;;
  match filePanSource d with
  | AlbumSource => getAlbumSourceDownloadUrl
  | FileSource => getFileSourceDownloadUrl
  end.

(** *** [Execute] (lines 301-459)

    The body is cut at its comments into five blocks; a block either leaves
    [Execute] with a value ([Return]) or hands its locals to the next block
    ([Next]). *)

Inductive Flow (A : Type) : Type :=
| Return (e : option error)
| Next (a : A).
Arguments Return {A} e.
Arguments Next {A} a.

Definition step {A B : Type} (m : M (Flow A)) (k : A -> M (Flow B)) : M (Flow B) :=
  r <- m ;;
  match r with
  | Return e => ret (Return e)
  | Next a => k a
  end.

Definition lazyInit : M unit :=
  modifyDer (fun d => match config d with
                      | None => set_config d (Some (NewConfig X))
                      | Some _ => d
                      end) ;;
  modifyDer (fun d => match monitor d with
                      | None => set_monitor d (Some NewMonitor)
                      | Some _ => d
                      end) ;;
  modifyDer (fun d => match durlCheckFunc d with
                      | None => set_durlCheckFunc d (Some DefaultDURLCheckFunc)
                      | Some _ => d
                      end).

(** [der.initInstanceState(format)], declared in another file of the
    package: it opens the checkpoint store and may fail. *)
Definition initInstanceState : M (option error) :=
  emit InitInstanceState ;;
  match initInstanceStateErr X with
  | Some e => ret (Some e)
  | None => modifyDer (fun d => set_instanceState d true) ;; ret None
  end.

(** [der.monitor.f(...)] for a setter [f]. *)
Definition onMonitor (f : Monitor -> Monitor) : M unit :=
  d <- getDer ;;
  m <- deref (monitor d) ;;
  modifyDer (fun d => set_monitor d (Some (f m))).

(** The locals alive after line 344. *)
Record Opened : Type := {
  loadBalancerResponseList : LoadBalancerResponseList;
  bii : DownloadInstanceInfo;
  ostatus : DownloadStatus
}.

(** The locals alive after line 388. *)
Record Planned : Type := {
  ppool : LoadBalancerResponseList;
  bii_Ranges : RangeList;
  pstatus : DownloadStatus;
  pparallel : Z;
  pblockSize : Z;
  pcacheSize : Z
}.

(** Lines 303-344: zero-length shortcut, URL pool, checkpoint, status. *)
Definition Execute_open : M (Flow Opened) :=
  lazyInit ;;
  d <- getDer ;;
  fi <- deref (fileInfo d) ;;
  if aliyunpan.FileSize fi =? 0 then
    emit (Trigger onFinishEvent) ;;
    ret (Return None)
  else
    loadBalancerResponseList <- checkLoadBalancers ;;
    err <- initInstanceState ;;
    match err with
    | Some e => ret (Return (Some e))
    | None =>
        let bii :=
          match instanceStateGet X with
          | Some b => b
          | None => {| DownloadStatus_ := None; Ranges := [] |}
          end in
        let status :=
          match DownloadStatus_ bii with
          | Some s => s
          | None => SetTotalSize NewDownloadStatus (aliyunpan.FileSize fi)
          end in
        cfg <- deref (config d) ;;
        status <-
          (if 0 <? MaxRate cfg then
             defer RateLimitStop ;;
             ret (SetRateLimit status (MaxRate cfg))
           else ret status) ;;
        ret (Next {| loadBalancerResponseList := loadBalancerResponseList;
                     bii := bii; ostatus := status |})
    end.

(** The loop of lines 380-386: at most [n] calls of [gen.GenRange()]. *)
Fixpoint genRanges (n : nat) (gen : RangeListGen) (acc : RangeList)
  : RangeList * RangeListGen :=
  match n with
  | O => (acc, gen)
  | S n' =>
      let '((_, r), gen') := GenRange gen in
      match r with
      | None => (acc, gen')
      | Some r => genRanges n' gen' (acc ++ [r])
      end
  end.

(** Lines 346-388: parallel, block size, cache size, the Range list. *)
Definition Execute_plan (o : Opened) : M (Flow Planned) :=
  d <- getDer ;;
  cfg <- deref (config d) ;;
  parallel <- liftRes (SelectParallel (SliceParallel cfg) (MaxParallelWorkerCount X)
                         (totalSize (ostatus o)) (Ranges (bii o))) ;;
  r <- liftRes (SelectBlockSizeAndInitRangeGen d (ostatus o) parallel) ;;
  let '(blockSize, err, status) := r in
  match err with
  | Some e => ret (Return (Some e))
  | None =>
      let cacheSize := SelectCacheSize (CacheSize cfg) blockSize in
      emit (SetSyncPoolSize cacheSize) ;;
      onMonitor (fun m => Monitor_InitMonitorCapacity m parallel) ;;
      (if writerIsFder d then emit (PreAlloc (totalSize status)) else ret tt) ;;
      let planned (ranges : RangeList) (status : DownloadStatus) :=
        Next {| ppool := loadBalancerResponseList o; bii_Ranges := ranges;
                pstatus := status; pparallel := parallel;
                pblockSize := blockSize; pcacheSize := cacheSize |} in
      let isRange := 0 <? len (Ranges (bii o)) in
      if negb isRange then
        if parallel =? 1 then
          fi <- deref (fileInfo d) ;;
          ret (planned [ {| Begin := 0; End := aliyunpan.FileSize fi |} ] status)
        else
          gen <- deref (rangeListGen status) ;;
          let '(ranges, gen') := genRanges (Z.to_nat parallel) gen [] in
          ret (planned ranges (SetRangeListGen status (Some gen')))
      else ret (planned (Ranges (bii o)) status)
  end.

(** Lines 394-400: the download URLs of all accounts. *)
Definition Execute_resolve (p : Planned)
  : M (Flow (Planned * list panClientDownloadUrlEntity)) :=
  r <- getFileAllClientDownloadUrl ;;
  let '(panClientFileUrl, err) := r in
  match err, panClientFileUrl with
  | None, Some urls => ret (Next (p, urls))
  | _, _ =>
      emit (Trigger onCancelEvent) ;;
      ret (Return err)
  end.

(** The loop of lines 404-426, at range index [k]. *)
Fixpoint initWorkers (panClientFileUrl : list panClientDownloadUrlEntity)
    (factorNum : Z) (k : Z) (ranges : RangeList) (pool : LoadBalancerResponseList)
  : M LoadBalancerResponseList :=
  match ranges with
  | [] => ret pool
  | r :: rest =>
      slot <- liftRes (go_div k factorNum) ;;
      panClientUrl <- liftRes (go_index panClientFileUrl slot) ;;
      let '(loadBalancer, pool) := SequentialGet pool in
      match loadBalancer with
      | None => initWorkers panClientFileUrl factorNum (k + 1) rest pool
      | Some _ =>
          d <- getDer ;;
          fi <- deref (fileInfo d) ;;
          let worker :=
            {| wid := k; wdriveId := DriveId panClientUrl;
               wfileId := aliyunpan.FileId (FileInfo panClientUrl);
               wurl := FileUrl panClientUrl;
               wpanClient := PanClient_ panClientUrl;
               wtotalSize := aliyunpan.FileSize fi;
               wacceptRanges := "bytes"; wrange := r |} in
          onMonitor (fun m => Monitor_Append m worker) ;;
          initWorkers panClientFileUrl factorNum (k + 1) rest pool
      end
  end.

(** Lines 402-426: one worker per range, bound to a URL slot. *)
Definition Execute_workers (pu : Planned * list panClientDownloadUrlEntity)
  : M (Flow Planned) :=
  let '(p, panClientFileUrl) := pu in
  factorNum <- liftRes (go_div (len (bii_Ranges p)) (len panClientFileUrl)) ;;
  initWorkers panClientFileUrl factorNum 0 (bii_Ranges p) (ppool p) ;;
  ret (Next p).

Definition is_ErrNoWokers (e : error) : bool :=
  match e with
  | ErrNoWokers => true
  | _ => false
  end.

(** Lines 428-458: the monitor run and the verdict. *)
Definition Execute_monitor (p : Planned) : M (option error) :=
  onMonitor (fun m => Monitor_SetStatus m (pstatus p)) ;;
  onMonitor (fun m => Monitor_SetReloadWorker m true) ;;
  modifyDer (fun d => set_monitorCancelFunc d true) ;;
  d <- getDer ;;
  onMonitor (fun m => Monitor_SetInstanceState m (instanceState d)) ;;
  emit (Trigger onExecuteEvent) ;;
  emit MonitorExecute ;;
  d <- getDer ;;
  m <- deref (monitor d) ;;
  let err := monitorErr X m in
  match err with
  | None =>
      emit (Trigger onSuccessEvent) ;;
      removeInstanceState
  | Some e =>
      if is_ErrNoWokers e then
        fi <- deref (fileInfo d) ;;
        if aliyunpan.FileSize fi =? 0 then
          emit (Trigger onSuccessEvent) ;;
          removeInstanceState
        else ret tt
      else ret tt
  end ;;
  emit (Trigger onFinishEvent) ;;
  ret err.

(** The session up to the URL resolution, up to the worker construction and
    up to the monitor run. *)
Definition reach_resolve : M (Flow Planned) := step Execute_open Execute_plan.

Definition reach_workers : M (Flow (Planned * list panClientDownloadUrlEntity)) :=
  step reach_resolve Execute_resolve.

Definition reach_monitor : M (Flow Planned) := step reach_workers Execute_workers.

Definition Execute : M (option error) :=
  runDeferred
    (r <- reach_monitor ;;
     match r with
     | Return e => ret e
     | Next p => Execute_monitor p
     end).

(** *** Pause, Resume, Cancel, Failed (lines 642-676) *)

Definition Pause : M unit :=
  d <- getDer ;;
  match monitor d with
  | None => ret tt
  | Some _ =>
      emit (Trigger onPauseEvent) ;;
      emit MonitorPause
  end.

Definition Resume : M unit :=
  d <- getDer ;;
  match monitor d with
  | None => ret tt
  | Some _ =>
      emit (Trigger onResumeEvent) ;;
      emit MonitorResume
  end.

Definition Cancel : M unit :=
  d <- getDer ;;
  match monitor d with
  | None => ret tt
  | Some _ =>
      emit (Trigger onCancelEvent) ;;
      emit TriggerMonitorCancel
  end.

Definition Failed : M unit :=
  d <- getDer ;;
  match monitor d with
  | None => ret tt
  | Some _ =>
      emit (Trigger onFailedEvent) ;;
      emit TriggerMonitorCancel
  end.

(** *** Views used to state the properties *)

(** How the request for the primary download URL ends (lines 479-495 for the
    file source, 573-608 for the album source). *)
Inductive Primary : Type :=
| PrimaryError (e : error)        (* the API call returned an error *)
| PrimaryNil                      (* album source: nil result, no error *)
| PrimaryUnusable                 (* no error, but no usable URL *)
| PrimaryUrl (url : string).

Definition primary (d : Downloader) (fi : aliyunpan.FileEntity) : Primary :=
  match filePanSource d with
  | FileSource =>
      match GetFileDownloadUrl (panClient d) (driveId d) (aliyunpan.FileId fi) with
      | (_, Some e) => PrimaryError e
      | (durl, None) =>
          match usableUrl durl with
          | None => PrimaryUnusable
          | Some url => PrimaryUrl url
          end
      end
  | AlbumSource =>
      match ShareAlbumGetFileDownloadUrl (panClient d) (aliyunpan.AlbumId fi)
              (aliyunpan.DriveId fi) (aliyunpan.FileId fi) with
      | (_, Some e) => PrimaryError e
      | (None, None) => PrimaryNil
      | (Some durl, None) =>
          if (albumRealUrl fi durl =? "")%string then PrimaryUnusable
          else PrimaryUrl (albumRealUrl fi durl)
      end
  end.

(** The API call that asks for the primary URL. *)
Definition primaryCall (d : Downloader) (fi : aliyunpan.FileEntity) : Effect :=
  match filePanSource d with
  | FileSource =>
      ApiCall MainClient (OpGetFileDownloadUrl (driveId d) (aliyunpan.FileId fi))
  | AlbumSource =>
      ApiCall MainClient
        (OpShareAlbumGetFileDownloadUrl (aliyunpan.AlbumId fi)
           (aliyunpan.DriveId fi) (aliyunpan.FileId fi))
  end.

(** The monitor as lines 428-436 leave it. *)
Definition armed (m : Monitor) (p : Planned) (inst : bool) : Monitor :=
  Monitor_SetInstanceState
    (Monitor_SetReloadWorker (Monitor_SetStatus m (pstatus p)) true) inst.

End downloader.

Arguments Extern {ops}.
Arguments World {ops}.
Arguments Downloader {ops}.
Arguments Monitor {ops}.
Arguments Opened {ops}.
Arguments Planned {ops}.
Arguments Return {A} e.
Arguments Next {A} a.

(** ** Sample sessions

    Concrete accounts, files and surroundings on which the facade is run. *)

Module Sample.

Import SpecGen.

Definition file (size : Z) : aliyunpan.FileEntity :=
  {| aliyunpan.FileId := "f1"; aliyunpan.DriveId := "d1";
     aliyunpan.AlbumId := "a1"; aliyunpan.FileSize := size;
     aliyunpan.Path := "/doc/report.bin"; aliyunpan.FileExtension := "bin" |}.

Definition user : aliyunpan.UserInfo :=
  {| aliyunpan.FileDriveId := "d1"; aliyunpan.ResourceDriveId := "r1" |}.

(** An account whose URL requests answer [durl] and [apierr]. *)
Definition account (durl : option string) (apierr : option error) : PanClient :=
  {| GetFileDownloadUrl := fun _ _ =>
       (option_map (fun u => {| aliyunpan.Url := u |}) durl, apierr);
     ShareAlbumGetFileDownloadUrl := fun _ _ _ =>
       (option_map (fun u => {| aliyunpan.StreamsUrl := None;
                                aliyunpan.AlbumFileUrl := u |}) durl, apierr);
     GetUserInfo := (Some user, None);
     FileInfoByPath := fun _ _ => (Some (file 1000), None) |}.

Definition goodAccount : PanClient := account (Some "https://cdn/f1"%string) None.

Definition conf (mode : RangeGenMode) (sliceParallel : Z) : Config :=
  {| Mode := mode; MaxRate := 0; SliceParallel := sliceParallel;
     BlockSize := 100; CacheSize := 64; TryHTTP := false |}.

(** Surroundings: no checkpoint on disk, the scheduler reports [verdict]. *)
Definition extern (checkpoint : option DownloadInstanceInfo)
    (verdict : option error) : Extern :=
  {| MinParallelSize := 1024; MaxParallelWorkerCount := 3;
     IllegalDownloadUrlPrefix := "https://illegal";
     NewConfig := conf RangeGenMode_Default 0;
     clientReq := fun _ => (None, Some (OtherError "unreachable"));
     initInstanceStateErr := None;
     instanceStateGet := checkpoint;
     monitorErr := fun _ => verdict |}.

Definition downloader (source : FileSourceType) (size : Z) (cfg : Config)
    (main : PanClient) (subs : list PanClient) : Downloader :=
  SetDriveId
    (SetFileInfo (NewDownloader false (Some cfg) main subs) source
       (Some (file size)))
    "d1".

Definition world (d : Downloader) : World :=
  {| der := d; log := []; deferred := [] |}.



Definition checkpoint2 : DownloadInstanceInfo :=
  {| DownloadStatus_ := Some (SetTotalSize NewDownloadStatus 1000);
     Ranges := [ {| Begin := 0; End := 500 |}; {| Begin := 500; End := 1000 |} ] |}.

Definition checkpoint3 : DownloadInstanceInfo :=
  {| DownloadStatus_ := Some (SetTotalSize NewDownloadStatus 1000);
     Ranges := [ {| Begin := 0; End := 300 |}; {| Begin := 300; End := 600 |};
                 {| Begin := 600; End := 1000 |} ] |}.

(** The sessions on which the properties are exercised. *)

Definition X0 : Extern := extern None None.

(** One range (preferred parallel 1), two accounts that both resolve. *)
Definition session_two_accounts : World :=
  world (downloader FileSource 1000 (conf RangeGenMode_Default 1)
           goodAccount [goodAccount]).

(** Three checkpoint ranges, two accounts that both resolve. *)
Definition session_three_ranges : World :=
  world (downloader FileSource 1000 (conf RangeGenMode_Default 0)
           goodAccount [goodAccount]).

(** One account, preferred parallel 1. *)
Definition session_single : World :=
  world (downloader FileSource 1000 (conf RangeGenMode_Default 1)
           goodAccount []).

(** The request for the primary URL fails with an API error. *)
Definition session_api_error : World :=
  world (downloader FileSource 1000 (conf RangeGenMode_Default 1)
           (account None (Some (ApiError 500))) []).

(** The album request succeeds with an empty URL. *)
Definition session_empty_url : World :=
  world (downloader AlbumSource 1000 (conf RangeGenMode_Default 1)
           (account (Some ""%string) None) []).

(** A mode that is neither Default nor BlockSize, parallel 1 and 2. *)
Definition session_unknown_mode_single : World :=
  world (downloader FileSource 1000 (conf (RangeGenMode_Other 7) 1)
           goodAccount []).

Definition session_unknown_mode : World :=
  world (downloader FileSource 1000 (conf (RangeGenMode_Other 7) 2)
           goodAccount []).

(** A file of length zero. *)
Definition session_zero : World :=
  world (downloader FileSource 0 (conf RangeGenMode_Default 0) goodAccount []).

(** A downloader on which [Execute] has not run. *)
Definition session_fresh : World :=
  world (NewDownloader false None goodAccount []).


(** BlockSize mode on a file of 5 bytes. *)
Definition blockSizeDownloader : Downloader :=
  downloader FileSource 5 (conf RangeGenMode_BlockSize 2) goodAccount [].

Definition status5 : DownloadStatus := SetTotalSize NewDownloadStatus 5.

End Sample.

(** ** The specification's formulas, as the specification words them *)

Module Spec.

(** Ceiling of [a / b] for a positive [b]. *)
Definition ceil_div (a b : Z) : Z := (a + b - 1) / b.

(** "blockSize = min(blockSizeHint, ceil(totalSize/parallel) + 1)". *)
Definition blockSize (blockSizeHint totalSize parallel : Z) : Z :=
  Z.min blockSizeHint (ceil_div totalSize parallel + 1).


End Spec.

(** ** Relations between the worlds of a session *)

Section session_relations.

Context {ops : RangeGenOps}.

(** Every run of [m] relates the world before to the world after by [R]. *)
Definition respects (R : World -> World -> Prop) {A : Type} (m : M A) : Prop :=
  forall w r w', m w = (r, w') -> R w w'.

(** What a session leaves alone in its receiver: the file, the accounts and
    the writer never change, and a configuration, a probe function or a
    monitor that is set stays set. *)
Definition stable (w w' : World) : Prop :=
  fileInfo (der w') = fileInfo (der w) /\
  filePanSource (der w') = filePanSource (der w) /\
  driveId (der w') = driveId (der w) /\
  panClient (der w') = panClient (der w) /\
  subPanClientList (der w') = subPanClientList (der w) /\
  loadBalansers (der w') = loadBalansers (der w) /\
  writerIsFder (der w') = writerIsFder (der w) /\
  (config (der w) <> None -> config (der w') = config (der w)) /\
  (durlCheckFunc (der w) <> None ->
   durlCheckFunc (der w') = durlCheckFunc (der w)) /\
  (monitor (der w) <> None -> monitor (der w') <> None).

(** The log and the deferred calls only grow, by effects that satisfy [P]. *)
Definition grows (P : Effect -> Prop) (w w' : World) : Prop :=
  (exists l, log w' = log w ++ l /\ Forall P l) /\
  (exists l, deferred w' = l ++ deferred w /\ Forall P l).

(** The effects of the blocks that come before the monitor run. *)
Definition not_monitor (e : Effect) : Prop := e <> MonitorExecute.

(** A receiver on which [lazyInit] and the zero-length test have passed. *)
Definition ready (w : World) : Prop :=
  (exists fi, fileInfo (der w) = Some fi /\ aliyunpan.FileSize fi <> 0) /\
  config (der w) <> None /\
  durlCheckFunc (der w) <> None /\
  monitor (der w) <> None.

End session_relations.

(** The effects of the blocks that neither start nor end the monitor run:
    everything but the triggers of Execute, Success and Finish and the
    monitor run itself. *)
Definition quiet (e : Effect) : Prop :=
  match e with
  | Trigger onExecuteEvent | Trigger onSuccessEvent | Trigger onFinishEvent
  | MonitorExecute => False
  | _ => True
  end.

(** ** More sample sessions *)

Module Sample2.

Import SpecGen.

(** [d] with the candidate mirror URLs [urls]. *)
Definition withLoadBalansers (d : Downloader) (urls : list string) : Downloader :=
  {| monitorCancelFunc := monitorCancelFunc d; filePanSource := filePanSource d;
     fileInfo := fileInfo d; driveId := driveId d; durlCheckFunc := durlCheckFunc d;
     loadBalansers := urls; writerIsFder := writerIsFder d;
     panClient := panClient d; subPanClientList := subPanClientList d;
     config := config d; monitor := monitor d; instanceState := instanceState d |}.

Definition confHTTP : Config :=
  {| Mode := RangeGenMode_Default; MaxRate := 0; SliceParallel := 1;
     BlockSize := 100; CacheSize := 64; TryHTTP := true |}.

(** A probe function: the first mirror answers 200 with the right length,
    the second 200 with a short length, every other one fails. *)
Definition mirrorCheck : DURLCheckFunc :=
  fun durl =>
    if (durl =? "https://m1/f1")%string then
      (1000, Some {| StatusCode := 200; ContentLength := 1000;
                     Request := Some {| Scheme := "https"; Rest := "m1/f1" |} |},
       None)
    else if (durl =? "https://m2/f1")%string then
      (10, Some {| StatusCode := 200; ContentLength := 10;
                   Request := Some {| Scheme := "https"; Rest := "m2/f1" |} |},
       None)
    else (0, None, Some (OtherError "timeout")).


(** Two mirrors that both fail. *)
Definition session_dead_mirrors : World :=
  Sample.world
    (set_durlCheckFunc
       (withLoadBalansers
          (Sample.downloader FileSource 1000 confHTTP Sample.goodAccount [])
          ["https://m3/f1"; "https://m4/f1"]%string)
       (Some mirrorCheck)).

(** An account whose URL requests work but whose user information cannot be
    read. *)
Definition accountNoUserInfo : PanClient :=
  {| GetFileDownloadUrl := GetFileDownloadUrl Sample.goodAccount;
     ShareAlbumGetFileDownloadUrl := ShareAlbumGetFileDownloadUrl Sample.goodAccount;
     GetUserInfo := (None, Some (ApiError 401));
     FileInfoByPath := FileInfoByPath Sample.goodAccount |}.

(** An auxiliary account that does not hold the file. *)
Definition accountWithoutFile : PanClient :=
  {| GetFileDownloadUrl := GetFileDownloadUrl Sample.goodAccount;
     ShareAlbumGetFileDownloadUrl := ShareAlbumGetFileDownloadUrl Sample.goodAccount;
     GetUserInfo := GetUserInfo Sample.goodAccount;
     FileInfoByPath := fun _ _ => (None, Some (ApiError 404)) |}.

Definition session_no_user_info : World :=
  Sample.world (Sample.downloader FileSource 1000
                  (Sample.conf RangeGenMode_Default 1) accountNoUserInfo []).

(** The album request answers nil without an error. *)
Definition session_album_nil : World :=
  Sample.world (Sample.downloader AlbumSource 1000
                  (Sample.conf RangeGenMode_Default 1)
                  (Sample.account None None) []).

Definition session_album : World :=
  Sample.world (Sample.downloader AlbumSource 1000
                  (Sample.conf RangeGenMode_Default 1) Sample.goodAccount
                  [Sample.goodAccount]).

(** A main account and two auxiliary ones, of which one lacks the file. *)
Definition session_three_accounts : World :=
  Sample.world (Sample.downloader FileSource 1000
                  (Sample.conf RangeGenMode_Default 1) Sample.goodAccount
                  [accountWithoutFile; Sample.goodAccount]).


(** A receiver after [lazyInit], a plan of two ranges and two URLs. *)
Definition session_ready : World :=
  Sample.world
    (set_monitor
       (Sample.downloader FileSource 1000 (Sample.conf RangeGenMode_Default 0)
          Sample.goodAccount [Sample.goodAccount])
       (Some NewMonitor)).

Definition planned2 : Planned :=
  {| ppool := NewLoadBalancerResponseList [ {| URL_ := "der.durl" |} ];
     bii_Ranges := Ranges Sample.checkpoint2;
     pstatus := SetTotalSize NewDownloadStatus 1000;
     pparallel := 2; pblockSize := 500; pcacheSize := 64 |}.

Definition urls2 : list panClientDownloadUrlEntity :=
  [ {| PanClient_ := MainClient; FileInfo := Sample.file 1000; DriveId := "d1";
       FileId := "f1"; FileUrl := "https://cdn/f1" |};
    {| PanClient_ := SubClient 0; FileInfo := Sample.file 1000; DriveId := "d1";
       FileId := "f1"; FileUrl := "https://cdn2/f1" |} ].

(** The locals after the first block of a fresh session and of a session
    with a checkpoint of two ranges. *)
Definition opened_fresh : Opened :=
  {| loadBalancerResponseList := NewLoadBalancerResponseList [ {| URL_ := "der.durl" |} ];
     bii := {| DownloadStatus_ := None; Ranges := [] |};
     ostatus := SetTotalSize NewDownloadStatus 5000 |}.

Definition opened_checkpoint : Opened :=
  {| loadBalancerResponseList := NewLoadBalancerResponseList [ {| URL_ := "der.durl" |} ];
     bii := Sample.checkpoint2;
     ostatus := SetTotalSize NewDownloadStatus 1000 |}.

End Sample2.

(** ** Package [command]: the share commands of [share_web.go] *)

From Stdlib Require Import DecimalString.

Module command.

(** [*apierror.ApiError]. *)
Record ApiError : Type := { Code : Z; Err : string }.

(** A share record, as far as the commands read it; [FirstFile] is [None]
    for a nil pointer.  The records of a list are taken to be non-nil. *)
Record ShareEntity : Type := {
  ShareId : string;
  ShareUrl : string;
  SharePwd : string;
  ShareName : string;
  Expiration : string;
  Status : string;
  FirstFile : option aliyunpan.FileEntity
}.

(** What a command does to the outside, in program order.  Format strings
    are kept as the source writes them. *)
Inductive Out : Type :=
| Println (args : list string)
| Printf (format : string) (args : list string)
| PrintfErr (format : string) (err : option ApiError)   (* an *ApiError at %s *)
| TableHeader (columns : list string)
| TableAppend (row : list string)
| TableRender
| CallShareLinkList (userId : string)
| CallShareLinkCancel (shareIdList : list string)
| CallFastShareLinkCreate (driveId : string) (fileIdList : list string)
| CallShareLinkCreate (driveId sharePwd expiration : string)
    (fileIdList : list string)
| CallExportCsv (savePath : string) (data : list (list string)).

Definition is_Call (o : Out) : bool :=
  match o with
  | CallShareLinkList _ | CallShareLinkCancel _ | CallFastShareLinkCreate _ _
  | CallShareLinkCreate _ _ _ _ | CallExportCsv _ _ => true
  | _ => false
  end.

(** The surroundings of a command: the active user, the clock, the web API
    and the helpers of other files.  [expiryUnix s] is [Unix()] of the time
    that [time.ParseInLocation] returns for [s] (its error is dropped by the
    callers); [absolutePath] is [path.Clean(activeUser.PathJoin(...))]. *)
Record Env : Type := {
  UserId : string;
  now : Z;
  expiryUnix : string -> Z;
  ShareLinkList : list ShareEntity * option ApiError;
  ShareLinkCancel : list string -> list string * option ApiError;
  FastShareLinkCreate :
    string -> list string -> option ShareEntity * option ApiError;
  ShareLinkCreate :
    string -> string -> string -> list string ->
    option ShareEntity * option ApiError;
  ApiCodeFileShareNotAllowed : Z;
  absolutePath : string -> string -> string;
  matchPathByShellPattern :
    string -> string -> list aliyunpan.FileEntity * bool;
  ExportCsv : string -> list (list string) -> bool
}.

(** [strconv.Itoa]. *)
Definition Itoa (z : Z) : string := NilZero.string_of_int (Z.to_int z).

Section commands.

Variable E : Env.

(** The column [et] of both tables. *)
Definition expirationColumn (record : ShareEntity) : string :=
  if Nat.ltb 0 (String.length (Expiration record)) then Expiration record
  else "永久有效"%string.

(** The test of an existing share against the clock (lines 335-341 and
    400-406). *)
Definition expiryStatus (record : ShareEntity) : string :=
  if Nat.ltb 0 (String.length (Expiration record))
     && (expiryUnix E (Expiration record) <? now E)
  then "已过期"%string
  else "有效"%string.

(** The status column of [RunShareList] (lines 330-345). *)
Definition listStatus (record : ShareEntity) : string :=
  if (Status record =? "enabled")%string then
    match FirstFile record with
    | None => "已删除"%string
    | Some _ => expiryStatus record
    end
  else if (Status record =? "forbidden")%string then "违规"%string
  else "有效"%string.

(** The loop of [RunShareList] at index [k]. *)
Fixpoint listLoop (k : Z) (records : list ShareEntity) : list Out :=
  match records with
  | [] => []
  | record :: rest =>
      TableAppend [Itoa (k + 1); ShareId record; ShareUrl record; SharePwd record;
                   ShareName record; expirationColumn record; listStatus record]
      :: listLoop (k + 1) rest
  end.

Definition RunShareList : list Out :=
  CallShareLinkList (UserId E) ::
  match ShareLinkList E with
  | (_, Some err) => [PrintfErr "获取分享列表失败: %s\n" (Some err)]
  | (records, None) =>
      TableHeader ["#"; "ShARE_ID"; "分享链接"; "提取码"; "文件名"; "过期时间"; "状态"]%string
      :: listLoop 0 records ++ [TableRender]
  end.

(** The status of [RunShareExport] (lines 393-407). *)
Definition exportStatus (record : ShareEntity) : string :=
  match FirstFile record with
  | None => "已删除"%string
  | Some _ => expiryStatus record
  end.

(** The loop of [RunShareExport] (lines 388-417). *)
Fixpoint exportLoop (option : string) (records : list ShareEntity) (idx : Z)
    (columns : list (list string)) : list (list string) :=
  match records with
  | [] => columns
  | record :: rest =>
      let et := expirationColumn record in
      let status := exportStatus record in
      let skipDeleted :=
        match FirstFile record with
        | None => (option =? "1")%string
        | Some _ => false
        end in
      if skipDeleted then exportLoop option rest idx columns
      else if (option =? "1")%string
              && ((status =? "已过期")%string || (status =? "已删除")%string)
      then exportLoop option rest idx columns
      else
        let line := [Itoa idx; ShareId record; ShareUrl record; SharePwd record;
                     ShareName record; et; status] in
        exportLoop option rest (idx + 1) (columns ++ [line])
  end.

Definition exportHeader : list string :=
  ["序号"; "分享ID"; "分享链接"; "提取码"; "文件名"; "过期时间"; "状态"]%string.

Definition exportColumns (option : string) (records : list ShareEntity)
  : list (list string) :=
  exportLoop option records 1 [exportHeader].

Definition RunShareExport (option saveFilePath : string) : list Out :=
  CallShareLinkList (UserId E) ::
  match ShareLinkList E with
  | (_, Some err) => [PrintfErr "获取分享列表失败: %s\n" (Some err)]
  | (records, None) =>
      let columns := exportColumns option records in
      CallExportCsv saveFilePath columns ::
      (if ExportCsv E saveFilePath columns
       then [Println ["分享导出成功："; saveFilePath]%string]
       else [])
  end.

Definition RunShareCancel (shareIdList : list string) : list Out :=
  if len shareIdList =? 0 then
    [Printf "取消分享操作失败, 没有任何 shareid\n" []]
  else
    CallShareLinkCancel shareIdList ::
    match ShareLinkCancel E shareIdList with
    | (_, Some err) => [PrintfErr "取消分享操作失败: %s\n" (Some err)]
    | (r, None) =>
        if 0 <? len r then [Printf "取消分享操作成功\n" []]
        else [Printf "取消分享操作失败\n" []]
    end.

(** The first loop of [RunShareSet] (lines 243-258): the matched files and
    what is printed.  [matchPathByShellPattern] answers with the file list
    and whether it returned an error. *)
Fixpoint matchPaths (driveId : string) (paths : list string)
    (allFileList : list aliyunpan.FileEntity)
  : list aliyunpan.FileEntity * list Out :=
  match paths with
  | [] => (allFileList, [])
  | p :: rest =>
      let absolutePath := absolutePath E driveId p in
      let '(fileList, failed) := matchPathByShellPattern E driveId absolutePath in
      if failed || (len fileList =? 0) then
        let '(all, out) := matchPaths driveId rest allFileList in
        (all, Println ["文件不存在: " ++ absolutePath]%string :: out)
      else matchPaths driveId rest (allFileList ++ fileList)
  end.

(** The answer of a create request (lines 276-283 and 295-302): nothing
    more to do, or the created share. *)
Definition createFailed (what : string) (r : option ShareEntity)
    (err1 : option ApiError) : Res (list Out + ShareEntity) :=
  match err1, r with
  | None, Some share => Ret (inr share)
  | None, None => Panic NilDereference          (* err1.Code on a nil err1 *)
  | Some err, _ =>
      if Code err =? ApiCodeFileShareNotAllowed E then
        Ret (inl [Printf ("创建" ++ what ++ "链接失败: 该文件类型不允许分享\n")%string []])
      else
        Ret (inl [PrintfErr ("创建" ++ what ++ "链接失败: %s\n")%string err1])
  end.

Definition RunShareSet (modeFlag driveId : string) (paths : list string)
    (expiredTime sharePwd : string) : list Out * Res unit :=
  if len paths <=? 0 then ([Println ["请指定文件路径"]%string], Ret tt)
  else
    let '(allFileList, out) := matchPaths driveId paths [] in
    let fidList := map aliyunpan.FileId allFileList in
    if len fidList =? 0 then (out ++ [Printf "没有指定有效的文件\n" []], Ret tt)
    else if (modeFlag =? "3")%string then
      let out := out ++ [CallFastShareLinkCreate driveId fidList] in
      let '(r, err1) := FastShareLinkCreate E driveId fidList in
      match createFailed "快传" r err1 with
      | Panic q => (out, Panic q)
      | Ret (inl msgs) => (out ++ msgs, Ret tt)
      | Ret (inr share) =>
          (out ++ [Printf "创建快传链接成功\n" [];
                   Printf "链接：%s\n" [ShareUrl share]], Ret tt)
      end
    else
      let out := out ++ [CallShareLinkCreate driveId sharePwd expiredTime fidList] in
      let '(r, err1) := ShareLinkCreate E driveId sharePwd expiredTime fidList in
      match createFailed "分享" r err1 with
      | Panic q => (out, Panic q)
      | Ret (inl msgs) => (out ++ msgs, Ret tt)
      | Ret (inr share) =>
          (out ++ [Printf "创建分享链接成功\n" [];
                   if 0 <? Z.of_nat (String.length sharePwd)
                   then Printf "链接：%s 提取码：%s\n" [ShareUrl share; SharePwd share]
                   else Printf "链接：%s\n" [ShareUrl share]], Ret tt)
      end.

End commands.

End command.

(** Sample share records and surroundings. *)
Module CommandSample.

Import command.

Definition share (id expiration status : string) (hasFile : bool) : ShareEntity :=
  {| ShareId := id; ShareUrl := "https://www.alipan.com/s/" ++ id;
     SharePwd := ""; ShareName := "report.bin"; Expiration := expiration;
     Status := status;
     FirstFile := if hasFile then Some (Sample.file 1000) else None |}.

(** A clock at 2000 and expirations that parse to their length times 1000
    (so "1" is in the past and "333" in the future). *)
Definition env (records : list ShareEntity)
    (created : option ShareEntity * option ApiError)
    (matches : string -> list aliyunpan.FileEntity * bool) : Env :=
  {| UserId := "u1"; now := 2000;
     expiryUnix := fun s => 1000 * Z.of_nat (String.length s);
     ShareLinkList := (records, None);
     ShareLinkCancel := fun ids => (ids, None);
     FastShareLinkCreate := fun _ _ => created;
     ShareLinkCreate := fun _ _ _ _ => created;
     ApiCodeFileShareNotAllowed := 403;
     absolutePath := fun _ p => ("/" ++ p)%string;
     matchPathByShellPattern := fun _ p => matches p;
     ExportCsv := fun _ _ => true |}.

Definition records4 : list ShareEntity :=
  [ share "s1" "" "enabled" true; share "s2" "1" "enabled" true;
    share "s3" "" "enabled" false; share "s4" "333" "forbidden" true ].

Definition noMatch : string -> list aliyunpan.FileEntity * bool :=
  fun _ => ([], false).

Definition oneMatch : string -> list aliyunpan.FileEntity * bool :=
  fun _ => ([Sample.file 1000], false).

End CommandSample.

(** ** The plugin callbacks of the JavaScript samples *)

Module plugin.

(** A JavaScript string is its sequence of UTF-16 code units. *)
Definition jsstring : Type := list Z.

Definition lit (s : string) : jsstring :=
  map (fun c => Z.of_nat (nat_of_ascii c)) (list_ascii_of_string s).

(** [searchString] occurs at the start of [s]. *)
Fixpoint isPrefix (searchString s : jsstring) : bool :=
  match searchString, s with
  | [], _ => true
  | _ :: _, [] => false
  | p :: searchString', c :: s' => (p =? c) && isPrefix searchString' s'
  end.

(** [String.prototype.indexOf] without a position: the smallest index at
    which [searchString] occurs, or -1. *)
Fixpoint indexOfFrom (searchString s : jsstring) (k : Z) : Z :=
  if isPrefix searchString s then k
  else match s with
       | [] => -1
       | _ :: rest => indexOfFrom searchString rest (k + 1)
       end.

Definition indexOf (s searchString : jsstring) : Z :=
  indexOfFrom searchString s 0.

(** [String.prototype.lastIndexOf] without a position: the greatest index at
    which [searchString] occurs, or -1. *)
Fixpoint lastIndexOfFrom (searchString s : jsstring) (k found : Z) : Z :=
  let found := if isPrefix searchString s then k else found in
  match s with
  | [] => found
  | _ :: rest => lastIndexOfFrom searchString rest (k + 1) found
  end.

Definition lastIndexOf (s searchString : jsstring) : Z :=
  lastIndexOfFrom searchString s 0 (-1).

(** [String.prototype.substr (start, length)]. *)
Definition substr (s : jsstring) (start length : Z) : jsstring :=
  let size := len s in
  let start := if 0 <=? start then start else Z.max (size + start) 0 in
  let resultLength := Z.min (Z.max length 0) (size - start) in
  if resultLength <=? 0 then []
  else firstn (Z.to_nat resultLength) (skipn (Z.to_nat start) s).

(** The line terminators, which [.] does not match. *)
Definition isLineTerminator (c : Z) : bool :=
  (c =? 10) || (c =? 13) || (c =? 8232) || (c =? 8233).

(** A code unit against a letter of the pattern under the flag [i]: both are
    compared in upper case. *)
Definition sameLetter (lower upper c : Z) : bool := (c =? lower) || (c =? upper).

(** The pattern [/.txt$/i] at the start of [s]: one unit that is no line
    terminator, the letters [t], [x] and [t] in either case, then the end of
    the input. *)
Definition matchDotTxtEnd (s : jsstring) : bool :=
  match s with
  | [c; t1; x; t2] =>
      negb (isLineTerminator c) && sameLetter 116 84 t1 && sameLetter 120 88 x
      && sameLetter 116 84 t2
  | _ => false
  end.

(** [String.prototype.search] with [/.txt$/i]: the index of the first match,
    or -1. *)
Fixpoint searchFrom (s : jsstring) (k : Z) : Z :=
  if matchDotTxtEnd s then k
  else match s with
       | [] => -1
       | _ :: rest => searchFrom rest (k + 1)
       end.

Definition search_dot_txt_end (s : jsstring) : Z := searchFrom s 0.

(** [==] of two strings. *)
Definition jseq (a b : jsstring) : bool :=
  if list_eq_dec Z.eq_dec a b then true else false.

(** The properties of [params] that the callbacks read; each is a string. *)
Record Params : Type := {
  driveFileName : jsstring;
  localFilePath : jsstring;
  localFileName : jsstring
}.

Record DownloadPrepareResult : Type := {
  downloadApproved : jsstring;
  localFilePath' : jsstring
}.

Definition downloadFilePrepareCallback (params : Params) : DownloadPrepareResult :=
  let result := {| downloadApproved := lit "yes"; localFilePath' := lit "" |} in
  let result :=
    if 0 <? lastIndexOf (driveFileName params) (lit ".dmg.exe") then
      {| downloadApproved := downloadApproved result;
         localFilePath' :=
           substr (localFilePath params) 0
                  (len (localFilePath params) - len (lit ".exe")) |}
    else result in
  let result :=
    if 0 <? lastIndexOf (driveFileName params) (lit ".txt") then
      {| downloadApproved := lit "no"; localFilePath' := localFilePath' result |}
    else result in
  result.

Record SyncScanLocalResult : Type := { syncScanLocalApproved : jsstring }.

Definition syncScanLocalFilePrepareCallback (params : Params) : SyncScanLocalResult :=
  let result := {| syncScanLocalApproved := lit "yes" |} in
  let result :=
    if indexOf (localFileName params) (lit ".") =? 0
    then {| syncScanLocalApproved := lit "no" |} else result in
  let result :=
    if indexOf (localFileName params) (lit "~$") =? 0
    then {| syncScanLocalApproved := lit "no" |} else result in
  let result :=
    if 0 <=? search_dot_txt_end (localFileName params)
    then {| syncScanLocalApproved := lit "no" |} else result in
  let result :=
    if jseq (localFileName params) (lit "password.key")
    then {| syncScanLocalApproved := lit "no" |} else result in
  let result :=
    if jseq (localFileName params) (lit "@eadir")
    then {| syncScanLocalApproved := lit "no" |} else result in
  result.

Record SyncScanPanResult : Type := { syncScanPanApproved : jsstring }.

Definition syncScanPanFilePrepareCallback (params : Params) : SyncScanPanResult :=
  let result := {| syncScanPanApproved := lit "yes" |} in
  let result :=
    if indexOf (driveFileName params) (lit ".") =? 0
    then {| syncScanPanApproved := lit "no" |} else result in
  let result :=
    if indexOf (driveFileName params) (lit "~$") =? 0
    then {| syncScanPanApproved := lit "no" |} else result in
  result.

(** A file that is named the same on both sides. *)
Definition named (name path : jsstring) : Params :=
  {| driveFileName := name; localFilePath := path; localFileName := name |}.

End plugin.

(** ** Properties *)

Unset Implicit Arguments.

Lemma wrap64_id (z : Z) : int64_range z -> wrap64 z = z.
Proof.
  unfold int64_range, wrap64. intros Hz.
  rewrite Z.mod_small by lia. lia.
Qed.

Lemma len_nonneg {A : Type} (l : list A) : 0 <= len l.
Proof. unfold len. lia. Qed.

Lemma len_pos {A : Type} (l : list A) : l <> [] -> 0 < len l.
Proof. destruct l; [congruence | intros _; unfold len; simpl; lia]. Qed.

Lemma len_app {A : Type} (l1 l2 : list A) : len (l1 ++ l2) = len l1 + len l2.
Proof. unfold len. rewrite length_app. lia. Qed.

Section planner_facts.

Context {ops : RangeGenOps}.
Variable X : Extern.

(** C2, as the code has it: with a non-empty checkpoint Range list,
    [SelectParallel] returns the preferred parallelism when that is positive,
    and the length of the Range list only when it is not: the preferred
    setting takes precedence over the checkpoint's range count. *)
Theorem SelectParallel_checkpoint (prefParallel maxParallel total : Z)
    (instanceRangeList : RangeList) :
  instanceRangeList <> [] ->
  SelectParallel X prefParallel maxParallel total instanceRangeList
  = Ret (if 0 <? prefParallel then prefParallel else len instanceRangeList).
Proof.
  intros Hne. pose proof (len_pos _ Hne) as Hlen.
  unfold SelectParallel.
  destruct (0 <? prefParallel) eqn:Hpref.
  - apply Z.ltb_lt in Hpref.
    replace (prefParallel <? 1) with false by (symmetry; apply Z.ltb_ge; lia).
    reflexivity.
  - replace (0 <? len instanceRangeList) with true by (symmetry; apply Z.ltb_lt; lia).
    replace (len instanceRangeList <? 1) with false by (symmetry; apply Z.ltb_ge; lia).
    reflexivity.
Qed.

(** C7, as the code has it: in BlockSize mode, with [parallel > 1] and no
    restored range generator, the block size is the smaller of the configured
    [BlockSize] and floor(totalSize / parallel) + 1 (a floor, not a ceiling),
    and the generator is created with it. *)
Theorem SelectBlockSize_BlockSize_mode (d : Downloader) (cfg : Config)
    (status : DownloadStatus) (parallel : Z) :
  config d = Some cfg ->
  Mode cfg = RangeGenMode_BlockSize ->
  rangeListGen status = None ->
  1 < parallel ->
  0 <= totalSize status < 2 ^ 63 ->
  let blockSize := Z.min (BlockSize cfg) (totalSize status / parallel + 1) in
  SelectBlockSizeAndInitRangeGen d status parallel
  = Ret (blockSize, None,
         SetRangeListGen status
           (Some (NewRangeListGenBlockSize (totalSize status) 0 blockSize))).
Proof.
  intros Hcfg Hmode Hgen Hpar Htot blockSize.
  unfold SelectBlockSizeAndInitRangeGen.
  replace (parallel =? 1) with false by (symmetry; apply Z.eqb_neq; lia).
  rewrite Hgen, Hcfg, Hmode. unfold go_div.
  replace (parallel =? 0) with false by (symmetry; apply Z.eqb_neq; lia).
  assert (Hq : Z.quot (totalSize status) parallel = totalSize status / parallel)
    by (apply Z.quot_div_nonneg; lia).
  assert (Hb : 0 <= totalSize status / parallel <= totalSize status).
  { split; [apply Z.div_pos; lia |].
    apply Z.div_le_upper_bound; nia. }
  rewrite Hq.
  rewrite (wrap64_id (totalSize status / parallel))
    by (unfold int64_range; lia).
  assert (Hq1 : totalSize status / parallel + 1 < 2 ^ 63).
  { assert (totalSize status / parallel * 2 <= totalSize status).
    { transitivity (parallel * (totalSize status / parallel)); [nia |].
      apply Z.mul_div_le; lia. }
    destruct (Z.eq_dec (totalSize status) 0) as [E | E].
    - rewrite E. rewrite Z.div_0_l by lia. lia.
    - lia. }
  rewrite (wrap64_id (totalSize status / parallel + 1))
    by (unfold int64_range; lia).
  assert (Hmin : (if BlockSize cfg <? totalSize status / parallel + 1
                  then BlockSize cfg else totalSize status / parallel + 1)
                 = blockSize).
  { unfold blockSize. destruct (Z.ltb_spec (BlockSize cfg) (totalSize status / parallel + 1)).
    - rewrite Z.min_l by lia. reflexivity.
    - rewrite Z.min_r by lia. reflexivity. }
  cbv zeta. rewrite Hmin. reflexivity.
Qed.

(** C10: as long as the monitor is nil, that is before [Execute] has run
    [lazyInit], [Pause], [Resume] and [Cancel] return at once: no panic, no
    event, nothing changed. *)
Theorem Pause_Resume_Cancel_before_Execute (w : World) :
  monitor (der w) = None ->
  Pause w = (Ret tt, w) /\ Resume w = (Ret tt, w) /\ Cancel w = (Ret tt, w).
Proof.
  intros Hm. unfold Pause, Resume, Cancel, bind, getDer.
  rewrite Hm. repeat split; reflexivity.
Qed.

End planner_facts.

(** *** Relations that every step of a session respects *)

Section respects.

Context {ops : RangeGenOps}.
Variable R : World -> World -> Prop.
Context {R_pre : PreOrder R}.

Lemma respects_ret {A : Type} (a : A) : respects R (ret a).
Proof. intros w r w' H. inversion H; subst. reflexivity. Qed.

Lemma respects_throw {A : Type} (p : panic) : respects R (@throw _ A p).
Proof. intros w r w' H. inversion H; subst. reflexivity. Qed.

Lemma respects_getDer : respects R getDer.
Proof. intros w r w' H. inversion H; subst. reflexivity. Qed.

Lemma respects_deref {A : Type} (o : option A) : respects R (deref o).
Proof. destruct o; [apply respects_ret | apply respects_throw]. Qed.

Lemma respects_liftRes {A : Type} (r : Res A) : respects R (liftRes r).
Proof. destruct r; [apply respects_ret | apply respects_throw]. Qed.

Lemma respects_bind {A B : Type} (m : M A) (k : A -> M B) :
  respects R m -> (forall a, respects R (k a)) -> respects R (bind m k).
Proof.
  intros Hm Hk w r w' H. unfold bind in H.
  destruct (m w) as [[a | p] w1] eqn:E.
  - transitivity w1; [eapply Hm; eassumption | eapply Hk; eassumption].
  - inversion H; subst. eapply Hm; eassumption.
Qed.

Lemma respects_step {A B : Type} (m : M (Flow A)) (k : A -> M (Flow B)) :
  respects R m -> (forall a, respects R (k a)) -> respects R (step m k).
Proof.
  intros Hm Hk. unfold step. apply respects_bind; [assumption |].
  intros [e | a]; [apply respects_ret | apply Hk].
Qed.

End respects.

Ltac use_respects l := apply l; [ typeclasses eauto | .. ].

Ltac respects_step :=
  match goal with
  | |- respects _ (bind _ _) => use_respects respects_bind; [ | intros ? ]
  | |- respects _ (step _ _) => use_respects respects_step; [ | intros ? ]
  | |- respects _ (ret _) => use_respects respects_ret
  | |- respects _ (throw _) => use_respects respects_throw
  | |- respects _ getDer => use_respects respects_getDer
  | |- respects _ (deref _) => use_respects respects_deref
  | |- respects _ (liftRes _) => use_respects respects_liftRes
  | |- respects _ (match ?x with _ => _ end) => destruct x
  end.

Section invariants.

Context {ops : RangeGenOps}.
Variable X : Extern.

#[global] Instance stable_pre : PreOrder stable.
Proof.
  split.
  - intros w. unfold stable. repeat split; auto.
  - intros a b c Hab Hbc. unfold stable in *.
    destruct Hab as (A1 & A2 & A3 & A4 & A5 & A6 & A7 & A8 & A9 & A10).
    destruct Hbc as (B1 & B2 & B3 & B4 & B5 & B6 & B7 & B8 & B9 & B10).
    repeat split; try congruence.
    + intros H. rewrite B8; [auto | rewrite A8; auto].
    + intros H. rewrite B9; [auto | rewrite A9; auto].
    + auto.
Qed.

Lemma stable_emit (e : Effect) : respects stable (emit e).
Proof. intros w r w' H. inversion H; subst. unfold stable; cbn. repeat split; auto. Qed.

Lemma stable_defer (e : Effect) : respects stable (defer e).
Proof. intros w r w' H. inversion H; subst. unfold stable; cbn. repeat split; auto. Qed.

Lemma stable_modifyDer (f : Downloader -> Downloader) :
  (forall w, stable w {| der := f (der w); log := log w; deferred := deferred w |}) ->
  respects stable (modifyDer f).
Proof. intros Hf w r w' H. inversion H; subst. apply Hf. Qed.

End invariants.

#[global] Existing Instance stable_pre.

Ltac stable_field :=
  intros ?w; unfold stable; cbn;
  repeat match goal with
         | |- context [match ?x with _ => _ end] => destruct x eqn:?; cbn
         end;
  repeat split; auto; congruence.

Ltac stable_step :=
  first
    [ respects_step
    | apply stable_emit
    | apply stable_defer
    | apply stable_modifyDer; stable_field ].

Section stable_blocks.

Context {ops : RangeGenOps}.
Variable X : Extern.

Lemma stable_onMonitor (f : Monitor -> Monitor) : respects stable (onMonitor f).
Proof. unfold onMonitor. repeat stable_step. Qed.

Lemma stable_lazyInit : respects stable (lazyInit X).
Proof. unfold lazyInit. repeat stable_step. Qed.

Lemma stable_probe (u : string) : respects stable (probe u).
Proof. unfold probe, handleLoadBalancer. repeat stable_step. Qed.

Lemma stable_probeAll (l : list string) :
  forall acc, respects stable (probeAll l acc).
Proof.
  induction l as [| u rest IH]; intros acc; cbn [probeAll].
  - stable_step.
  - stable_step; [apply stable_probe | apply IH].
Qed.

Lemma stable_checkLoadBalancers : respects stable checkLoadBalancers.
Proof.
  unfold checkLoadBalancers.
  stable_step; [stable_step |]. stable_step; [apply stable_probeAll | stable_step].
Qed.

Lemma stable_initInstanceState : respects stable (initInstanceState X).
Proof. unfold initInstanceState. repeat stable_step. Qed.

Lemma stable_Execute_open : respects stable (Execute_open X).
Proof.
  unfold Execute_open.
  stable_step; [apply stable_lazyInit |].
  stable_step; [stable_step |].
  stable_step; [stable_step |].
  destruct (aliyunpan.FileSize _ =? 0); [repeat stable_step |].
  stable_step; [apply stable_checkLoadBalancers |].
  stable_step; [apply stable_initInstanceState |].
  repeat stable_step.
Qed.

End stable_blocks.

Section reaching.

Context {ops : RangeGenOps}.
Variable X : Extern.

Lemma stable_Execute_plan (o : Opened) : respects stable (Execute_plan X o).
Proof.
  unfold Execute_plan.
  repeat first [ apply stable_onMonitor | stable_step ].
Qed.

Lemma stable_subClientUrls (mainDriveName path : string) (spcs : list PanClient) :
  forall i result,
    respects stable (subClientUrls X mainDriveName path i spcs result).
Proof.
  induction spcs as [| spc rest IH]; intros i result; cbn [subClientUrls].
  - stable_step.
  - repeat first [ apply IH | stable_step ].
Qed.

Lemma stable_getFileAllClientDownloadUrl :
  respects stable (getFileAllClientDownloadUrl X).
Proof.
  unfold getFileAllClientDownloadUrl, getFileSourceDownloadUrl,
    getAlbumSourceDownloadUrl, removeInstanceState.
  repeat first [ apply stable_subClientUrls | stable_step ].
Qed.

Lemma stable_Execute_resolve (p : Planned) : respects stable (Execute_resolve X p).
Proof.
  unfold Execute_resolve.
  repeat first [ apply stable_getFileAllClientDownloadUrl | stable_step ].
Qed.

Lemma stable_initWorkers (urls : list panClientDownloadUrlEntity) (factorNum : Z)
    (ranges : RangeList) :
  forall k pool, respects stable (initWorkers urls factorNum k ranges pool).
Proof.
  induction ranges as [| r rest IH]; intros k pool; cbn [initWorkers].
  - stable_step.
  - repeat first [ apply IH | apply stable_onMonitor | stable_step ].
Qed.

Lemma stable_Execute_workers (pu : Planned * list panClientDownloadUrlEntity) :
  respects stable (Execute_workers pu).
Proof.
  unfold Execute_workers.
  repeat first [ apply stable_initWorkers | stable_step ].
Qed.

Lemma stable_reach_resolve : respects stable (reach_resolve X).
Proof.
  unfold reach_resolve. stable_step;
    [apply stable_Execute_open | apply stable_Execute_plan].
Qed.

Lemma stable_reach_workers : respects stable (reach_workers X).
Proof.
  unfold reach_workers. stable_step;
    [apply stable_reach_resolve | apply stable_Execute_resolve].
Qed.

Lemma stable_reach_monitor : respects stable (reach_monitor X).
Proof.
  unfold reach_monitor. stable_step;
    [apply stable_reach_workers | apply stable_Execute_workers].
Qed.

Lemma ready_stable (w w' : World) : ready w -> stable w w' -> ready w'.
Proof.
  intros ((fi & Hfi & Hsz) & Hc & Hd & Hm) S.
  destruct S as (S1 & _ & _ & _ & _ & _ & _ & S8 & S9 & S10).
  repeat split.
  - exists fi. split; [congruence | assumption].
  - rewrite S8; assumption.
  - rewrite S9; assumption.
  - auto.
Qed.

(** [lazyInit] never fails and leaves configuration, probe function and
    monitor set. *)
Lemma lazyInit_sets (w : World) :
  exists w1,
    lazyInit X w = (Ret tt, w1) /\ stable w w1 /\
    log w1 = log w /\ deferred w1 = deferred w /\
    config (der w1) <> None /\ durlCheckFunc (der w1) <> None /\
    monitor (der w1) <> None.
Proof.
  unfold lazyInit, bind, modifyDer. eexists. split; [reflexivity |].
  cbn. destruct w as [d l df]; cbn.
  unfold stable; cbn.
  destruct (config d) eqn:Ec; destruct (monitor _) eqn:Em;
    destruct (durlCheckFunc _) eqn:Ed; cbn in *;
    repeat split; try congruence; try (rewrite ?Ec, ?Em, ?Ed; congruence).
Qed.

Lemma bind_Ret {A B : Type} (m : M A) (k : A -> M B) (w w1 : World) (a : A) :
  m w = (Ret a, w1) -> bind m k w = k a w1.
Proof. intros E. unfold bind. rewrite E. reflexivity. Qed.

Lemma bind_Panic {A B : Type} (m : M A) (k : A -> M B) (w w1 : World) (p : panic) :
  m w = (Panic p, w1) -> bind m k w = (Panic p, w1).
Proof. intros E. unfold bind. rewrite E. reflexivity. Qed.

Lemma lazyInit_idem (w wl : World) :
  lazyInit X w = (Ret tt, wl) -> lazyInit X wl = (Ret tt, wl).
Proof.
  intros E. unfold lazyInit, bind, modifyDer in *. cbn in *.
  inversion E; subst; clear E. cbn.
  destruct w as [[mc fps fi did dcf lbs wf pc spl cfg mon ist] l df]; cbn.
  destruct cfg, mon, dcf; reflexivity.
Qed.

(** A session that got past its first block has a file of non-zero size, a
    configuration, a probe function and a monitor. *)
Lemma Execute_open_reached (w w1 : World) (o : Opened) :
  Execute_open X w = (Ret (Next o), w1) -> stable w w1 /\ ready w1.
Proof.
  intros H. pose proof (stable_Execute_open X _ _ _ H) as S. split; [exact S |].
  destruct (lazyInit_sets w) as (wl & EL & SL & _ & _ & Hc & Hd & Hm).
  assert (H' : Execute_open X wl = (Ret (Next o), w1)).
  { rewrite <- H. unfold Execute_open.
    rewrite (bind_Ret _ _ _ _ _ EL), (bind_Ret _ _ _ _ _ (lazyInit_idem _ _ EL)). reflexivity. }
  pose proof (stable_Execute_open X _ _ _ H') as S'.
  apply ready_stable with (w := wl); [| exact S'].
  repeat split; try assumption.
  unfold Execute_open in H. rewrite (bind_Ret _ _ _ _ _ EL) in H.
  unfold bind, getDer in H.
  destruct (fileInfo (der wl)) as [fi |] eqn:Efi; cbn in H; [| discriminate].
  exists fi. split; [reflexivity |].
  destruct (aliyunpan.FileSize fi =? 0) eqn:Ez; [cbn in H; discriminate |].
  apply Z.eqb_neq. exact Ez.
Qed.

Lemma reach_resolve_reached (w w1 : World) (p : Planned) :
  reach_resolve X w = (Ret (Next p), w1) -> stable w w1 /\ ready w1.
Proof.
  intros H. split; [exact (stable_reach_resolve _ _ _ H) |].
  unfold reach_resolve, step in H. unfold bind at 1 in H.
  destruct (Execute_open X w) as [[[e | o] | q] wo] eqn:Eo;
    [inversion H | | inversion H].
  destruct (Execute_open_reached _ _ _ Eo) as [_ R].
  exact (ready_stable _ _ R (stable_Execute_plan _ _ _ _ H)).
Qed.

Lemma reach_workers_reached (w w1 : World) pu :
  reach_workers X w = (Ret (Next pu), w1) -> stable w w1 /\ ready w1.
Proof.
  intros H. split; [exact (stable_reach_workers _ _ _ H) |].
  unfold reach_workers, step in H. unfold bind at 1 in H.
  destruct (reach_resolve X w) as [[[e | o] | q] wo] eqn:Eo;
    [inversion H | | inversion H].
  destruct (reach_resolve_reached _ _ _ Eo) as [_ R].
  exact (ready_stable _ _ R (stable_Execute_resolve _ _ _ _ H)).
Qed.

Lemma reach_monitor_reached (w w1 : World) (p : Planned) :
  reach_monitor X w = (Ret (Next p), w1) -> stable w w1 /\ ready w1.
Proof.
  intros H. split; [exact (stable_reach_monitor _ _ _ H) |].
  unfold reach_monitor, step in H. unfold bind at 1 in H.
  destruct (reach_workers X w) as [[[e | o] | q] wo] eqn:Eo;
    [inversion H | | inversion H].
  destruct (reach_workers_reached _ _ _ Eo) as [_ R].
  exact (ready_stable _ _ R (stable_Execute_workers _ _ _ _ H)).
Qed.

End reaching.

Section facade_facts.

Context {ops : RangeGenOps}.
Variable X : Extern.

Lemma step_Return {A B : Type} (m : M (Flow A)) (k : A -> M (Flow B))
    (w w1 : World) (e : option error) :
  m w = (Ret (Return e), w1) -> step m k w = (Ret (Return e), w1).
Proof. intros E. unfold step. rewrite (bind_Ret _ _ _ _ _ E). reflexivity. Qed.

Lemma step_Next {A B : Type} (m : M (Flow A)) (k : A -> M (Flow B))
    (w w1 : World) (a : A) :
  m w = (Ret (Next a), w1) -> step m k w = k a w1.
Proof. intros E. unfold step. rewrite (bind_Ret _ _ _ _ _ E). reflexivity. Qed.

Lemma step_Panic {A B : Type} (m : M (Flow A)) (k : A -> M (Flow B))
    (w w1 : World) (p : panic) :
  m w = (Panic p, w1) -> step m k w = (Panic p, w1).
Proof. intros E. unfold step. apply bind_Panic. exact E. Qed.

Lemma Execute_Return (w0 w : World) (e : option error) :
  reach_monitor X (enter w0) = (Ret (Return e), w) ->
  Execute X w0 = (Ret e, leave w0 w).
Proof.
  intros E. unfold Execute, runDeferred.
  rewrite (bind_Ret _ _ _ _ _ E). reflexivity.
Qed.

Lemma Execute_Panic (w0 w : World) (q : panic) :
  reach_monitor X (enter w0) = (Panic q, w) ->
  Execute X w0 = (Panic q, leave w0 w).
Proof.
  intros E. unfold Execute, runDeferred.
  rewrite (bind_Panic _ _ _ _ _ E). reflexivity.
Qed.

Lemma Execute_Next (w0 w : World) (p : Planned) :
  reach_monitor X (enter w0) = (Ret (Next p), w) ->
  Execute X w0 =
  (fst (Execute_monitor X p w), leave w0 (snd (Execute_monitor X p w))).
Proof.
  intros E. unfold Execute, runDeferred.
  rewrite (bind_Ret _ _ _ _ _ E).
  destruct (Execute_monitor X p w); reflexivity.
Qed.

(** A file of length zero: the first block leaves [Execute] right after
    [lazyInit], with one trigger of Finish. *)
Lemma Execute_open_zero (w : World) (fi : aliyunpan.FileEntity) :
  fileInfo (der w) = Some fi ->
  aliyunpan.FileSize fi = 0 ->
  exists w1,
    Execute_open X w = (Ret (Return None), w1) /\
    log w1 = log w ++ [Trigger onFinishEvent] /\
    deferred w1 = deferred w.
Proof.
  intros Hfi Hz.
  destruct (lazyInit_sets X w) as (wl & EL & SL & Hlog & Hdef & _).
  unfold Execute_open. rewrite (bind_Ret _ _ _ _ _ EL).
  unfold bind, getDer.
  destruct SL as (S1 & _). rewrite S1, Hfi. cbn.
  rewrite Hz. cbn. eexists. split; [reflexivity |]. cbn.
  rewrite Hlog, Hdef. split; reflexivity.
Qed.

(** C6: for a file of length zero, [Execute] returns nil and all it does is
    one trigger of the Finish event: Success is not fired, no URL is probed or
    resolved, and the checkpoint store is not touched. *)
Theorem Execute_zero_length (w0 : World) (fi : aliyunpan.FileEntity) :
  fileInfo (der w0) = Some fi ->
  aliyunpan.FileSize fi = 0 ->
  exists w' session,
    Execute X w0 = (Ret None, w') /\
    log w' = log w0 ++ session /\
    session = [Trigger onFinishEvent] /\
    fired onFinishEvent session = 1%nat /\
    fired onSuccessEvent session = 0%nat /\
    existsb touches_url session = false /\
    existsb touches_checkpoint session = false.
Proof.
  intros Hfi Hz.
  destruct (Execute_open_zero (enter w0) fi Hfi Hz) as (w1 & E & Hlog & Hdef).
  exists (leave w0 w1), [Trigger onFinishEvent].
  split.
  - apply Execute_Return. unfold reach_monitor, reach_workers, reach_resolve.
    apply step_Return, step_Return, step_Return. exact E.
  - cbn. rewrite Hlog, Hdef. cbn. rewrite app_nil_r.
    repeat split; reflexivity.
Qed.

(** The last block, once the monitor has given its verdict. *)
Lemma Execute_monitor_run (p : Planned) (w : World) (m : Monitor)
    (fi : aliyunpan.FileEntity) :
  monitor (der w) = Some m ->
  fileInfo (der w) = Some fi ->
  aliyunpan.FileSize fi <> 0 ->
  exists w',
    Execute_monitor X p w
    = (Ret (monitorErr X (armed m p (instanceState (der w)))), w') /\
    log w' = log w ++ [Trigger onExecuteEvent; MonitorExecute]
                   ++ match monitorErr X (armed m p (instanceState (der w))) with
                      | None => [Trigger onSuccessEvent; RemoveInstanceState]
                      | Some _ => []
                      end
                   ++ [Trigger onFinishEvent] /\
    deferred w' = deferred w.
Proof.
  intros Hm Hfi Hsz.
  unfold Execute_monitor, onMonitor, removeInstanceState, bind, getDer,
    modifyDer, emit, ret.
  cbn. rewrite Hm. cbn. rewrite Hfi.
  fold (armed m p (instanceState (der w))).
  destruct (monitorErr X (armed m p (instanceState (der w)))) as [e |]; cbn.
  - destruct (is_ErrNoWokers e); cbn.
    + replace (aliyunpan.FileSize fi =? 0) with false
        by (symmetry; apply Z.eqb_neq; exact Hsz).
      cbn. eexists. split; [reflexivity |]. cbn.
      rewrite <- !app_assoc. split; reflexivity.
    + eexists. split; [reflexivity |]. cbn.
      rewrite <- !app_assoc. split; reflexivity.
  - eexists. split; [reflexivity |]. cbn.
    rewrite <- !app_assoc. split; reflexivity.
Qed.

(** The test of line 450 ([ErrNoWokers] on a file of length zero) fires
    Success and deletes the checkpoint, and the error is returned all the
    same.  [Execute] never gets there: a file of length zero leaves in the
    first block. *)
Lemma Execute_monitor_zero_size (p : Planned) (w : World) (m : Monitor)
    (fi : aliyunpan.FileEntity) :
  monitor (der w) = Some m ->
  fileInfo (der w) = Some fi ->
  aliyunpan.FileSize fi = 0 ->
  monitorErr X (armed m p (instanceState (der w))) = Some ErrNoWokers ->
  exists w',
    Execute_monitor X p w = (Ret (Some ErrNoWokers), w') /\
    log w' = log w ++ [Trigger onExecuteEvent; MonitorExecute;
                       Trigger onSuccessEvent; RemoveInstanceState;
                       Trigger onFinishEvent].
Proof.
  intros Hm Hfi Hsz Hv.
  unfold Execute_monitor, onMonitor, removeInstanceState, bind, getDer,
    modifyDer, emit, ret.
  cbn. rewrite Hm. cbn. rewrite Hfi.
  fold (armed m p (instanceState (der w))). rewrite Hv. cbn.
  rewrite Hsz. cbn. eexists. split; [reflexivity |]. cbn.
  rewrite <- !app_assoc. reflexivity.
Qed.


Lemma primary_stable (w w' : World) (fi : aliyunpan.FileEntity) :
  stable w w' ->
  primary X (der w') fi = primary X (der w) fi /\
  primaryCall (der w') fi = primaryCall (der w) fi.
Proof.
  intros (_ & S2 & S3 & S4 & _). unfold primary, primaryCall.
  rewrite S2, S3, S4. split; reflexivity.
Qed.

(** The two ways in which the request for the primary URL fails. *)
Lemma getFileAllClientDownloadUrl_fails (w : World) (fi : aliyunpan.FileEntity) :
  fileInfo (der w) = Some fi ->
  (primary X (der w) fi = PrimaryUnusable ->
   exists w1,
     getFileAllClientDownloadUrl X w
     = (Ret (None, Some ErrFileDownloadForbidden), w1) /\
     log w1 = log w ++ [primaryCall (der w) fi; Sleep200ms; Trigger onCancelEvent;
                        RemoveInstanceState; Trigger onFailedEvent] /\
     deferred w1 = deferred w) /\
  (forall e,
     primary X (der w) fi = PrimaryError e ->
     exists w1,
       getFileAllClientDownloadUrl X w = (Ret (None, Some e), w1) /\
       log w1 = log w ++ [primaryCall (der w) fi; Sleep200ms;
                          Trigger onCancelEvent] /\
       deferred w1 = deferred w).
Proof.
  intros Hfi.
  unfold primary, primaryCall, getFileAllClientDownloadUrl,
    getFileSourceDownloadUrl, getAlbumSourceDownloadUrl, removeInstanceState.
  change (bind getDer ?k w) with (k (der w) w). cbv beta.
  destruct (filePanSource (der w)) eqn:Esrc.
  - unfold bind, getDer, emit, ret. rewrite Hfi. cbn.
    destruct (GetFileDownloadUrl (panClient (der w)) (driveId (der w))
                (aliyunpan.FileId fi)) as [durl [e |]] eqn:Ecall; cbn.
    + split; [discriminate |]. intros e' He'. inversion He'; subst e'.
      eexists. split; [reflexivity |]. cbn. rewrite <- !app_assoc.
      split; reflexivity.
    + destruct (usableUrl X durl) as [url |] eqn:Eu; cbn.
      * split; [discriminate | intros e He; discriminate].
      * split; [| intros e He; discriminate]. intros _.
        eexists. split; [reflexivity |]. cbn. rewrite <- !app_assoc.
        split; reflexivity.
  - unfold bind, getDer, emit, ret. rewrite Hfi. cbn.
    destruct (ShareAlbumGetFileDownloadUrl (panClient (der w))
                (aliyunpan.AlbumId fi) (aliyunpan.DriveId fi)
                (aliyunpan.FileId fi)) as [[durl |] [e |]] eqn:Ecall; cbn.
    + split; [discriminate |]. intros e' He'. inversion He'; subst e'.
      eexists. split; [reflexivity |]. cbn. rewrite <- !app_assoc.
      split; reflexivity.
    + destruct (albumRealUrl fi durl =? "")%string eqn:Er; cbn.
      * split; [| intros e He; discriminate]. intros _.
        eexists. split; [reflexivity |]. cbn. rewrite <- !app_assoc.
        split; reflexivity.
      * split; [discriminate | intros e He; discriminate].
    + split; [discriminate |]. intros e' He'. inversion He'; subst e'.
      eexists. split; [reflexivity |]. cbn. rewrite <- !app_assoc.
      split; reflexivity.
    + split; [discriminate | intros e He; discriminate].
Qed.

(** C3, as the code has it: once [Execute] has reached the URL resolution,
    (1) if the request for the primary URL succeeds but yields no usable URL
    (file source: nil, empty or with the illegal prefix; album source: empty),
    [Execute] fires Cancel, deletes the checkpoint, fires Fail, fires Cancel a
    second time and returns [ErrFileDownloadForbidden]; (2) if the request
    itself fails with an API error, [Execute] fires Cancel twice and returns
    that error: the checkpoint stays and Fail is not fired. *)
Theorem Execute_primary_url_fails (w0 w : World) (p : Planned)
    (fi : aliyunpan.FileEntity) :
  reach_resolve X (enter w0) = (Ret (Next p), w) ->
  fileInfo (der w0) = Some fi ->
  (primary X (der w0) fi = PrimaryUnusable ->
   exists w',
     Execute X w0 = (Ret (Some ErrFileDownloadForbidden), w') /\
     log w' = log w ++ [primaryCall (der w0) fi; Sleep200ms;
                        Trigger onCancelEvent; RemoveInstanceState;
                        Trigger onFailedEvent; Trigger onCancelEvent]
                    ++ deferred w) /\
  (forall e,
     primary X (der w0) fi = PrimaryError e ->
     exists w',
       Execute X w0 = (Ret (Some e), w') /\
       log w' = log w ++ [primaryCall (der w0) fi; Sleep200ms;
                          Trigger onCancelEvent; Trigger onCancelEvent]
                      ++ deferred w).
Proof.
  intros Hreach Hfi.
  destruct (reach_resolve_reached X _ _ _ Hreach) as [S _].
  destruct (primary_stable _ _ fi S) as [Hp Hc]. cbn in Hp, Hc.
  assert (Hfi' : fileInfo (der w) = Some fi).
  { destruct S as (S1 & _). cbn in S1. congruence. }
  destruct (getFileAllClientDownloadUrl_fails w fi Hfi') as [Hun Herr].
  rewrite Hp, Hc in Hun, Herr.
  split.
  - intros Hprim. destruct (Hun Hprim) as (w1 & E & Hlog & Hdef).
    eexists. split.
    + apply Execute_Return. unfold reach_monitor, reach_workers.
      apply step_Return. rewrite (step_Next _ _ _ _ _ Hreach).
      unfold Execute_resolve. rewrite (bind_Ret _ _ _ _ _ E).
      reflexivity.
    + cbn. rewrite Hlog, Hdef. rewrite <- !app_assoc. reflexivity.
  - intros e Hprim. destruct (Herr e Hprim) as (w1 & E & Hlog & Hdef).
    eexists. split.
    + apply Execute_Return. unfold reach_monitor, reach_workers.
      apply step_Return. rewrite (step_Next _ _ _ _ _ Hreach).
      unfold Execute_resolve. rewrite (bind_Ret _ _ _ _ _ E).
      reflexivity.
    + cbn. rewrite Hlog, Hdef. rewrite <- !app_assoc. reflexivity.
Qed.

End facade_facts.

#[global] Instance grows_pre {ops : RangeGenOps} (P : Effect -> Prop) :
  PreOrder (grows P).
Proof.
  split.
  - intros w. split; exists []; (split; [| constructor]).
    + rewrite app_nil_r. reflexivity.
    + reflexivity.
  - intros a b c [(l1 & E1 & F1) (d1 & D1 & G1)] [(l2 & E2 & F2) (d2 & D2 & G2)].
    split.
    + exists (l1 ++ l2). split.
      * rewrite E2, E1, app_assoc. reflexivity.
      * apply Forall_app. split; assumption.
    + exists (d2 ++ d1). split.
      * rewrite D2, D1, app_assoc. reflexivity.
      * apply Forall_app. split; assumption.
Qed.

Section growth.

Context {ops : RangeGenOps}.
Variable X : Extern.
Variable P : Effect -> Prop.

Lemma grows_emit (e : Effect) : P e -> respects (grows P) (emit e).
Proof.
  intros He w r w' H. inversion H; subst. cbn. split.
  - exists [e]. cbn. split; [reflexivity | repeat constructor; exact He].
  - exists []. split; [reflexivity | constructor].
Qed.

Lemma grows_defer (e : Effect) : P e -> respects (grows P) (defer e).
Proof.
  intros He w r w' H. inversion H; subst. cbn. split.
  - exists []. cbn. split; [rewrite app_nil_r; reflexivity | constructor].
  - exists [e]. split; [reflexivity | repeat constructor; exact He].
Qed.

Lemma grows_modifyDer (f : Downloader -> Downloader) :
  respects (grows P) (modifyDer f).
Proof.
  intros w r w' H. inversion H; subst. cbn. split; exists [];
    (split; [| constructor]); [rewrite app_nil_r |]; reflexivity.
Qed.

End growth.

Ltac grows_step :=
  first
    [ respects_step
    | apply grows_modifyDer
    | apply grows_emit; unfold not_monitor; discriminate
    | apply grows_defer; unfold not_monitor; discriminate ].

Section planning_facts.

Context {ops : RangeGenOps}.
Variable X : Extern.

Lemma grows_probe (u : string) : respects (grows not_monitor) (probe u).
Proof. unfold probe, handleLoadBalancer. repeat grows_step. Qed.

Lemma grows_probeAll (l : list string) :
  forall acc, respects (grows not_monitor) (probeAll l acc).
Proof.
  induction l as [| u rest IH]; intros acc; cbn [probeAll].
  - grows_step.
  - grows_step; [apply grows_probe | apply IH].
Qed.

(** The first block of [Execute] does not run the monitor. *)
Lemma grows_Execute_open : respects (grows not_monitor) (Execute_open X).
Proof.
  unfold Execute_open, lazyInit, checkLoadBalancers, initInstanceState.
  repeat first [ apply grows_probeAll | grows_step ].
Qed.

(** C9, as the code has it: with a mode that is neither Default nor
    BlockSize, a selected parallel other than 1 and no range generator
    restored from the checkpoint, [SelectBlockSizeAndInitRangeGen] returns
    [ErrUnknownRangeGenMode] and [Execute] returns that error right after its
    first block, so the monitor is not run.  (With parallel 1 or a restored
    generator the mode is not looked at.) *)
Theorem Execute_unknown_mode (w0 w : World) (o : Opened) (cfg : Config)
    (raw parallel : Z) :
  Execute_open X (enter w0) = (Ret (Next o), w) ->
  config (der w) = Some cfg ->
  Mode cfg = RangeGenMode_Other raw ->
  rangeListGen (ostatus o) = None ->
  SelectParallel X (SliceParallel cfg) (MaxParallelWorkerCount X)
    (totalSize (ostatus o)) (Ranges (bii o)) = Ret parallel ->
  parallel <> 1 ->
  SelectBlockSizeAndInitRangeGen (der w) (ostatus o) parallel
  = Ret (0, Some ErrUnknownRangeGenMode, ostatus o) /\
  Execute X w0 = (Ret (Some ErrUnknownRangeGenMode), leave w0 w) /\
  (~ In MonitorExecute (log w0) -> ~ In MonitorExecute (log (leave w0 w))).
Proof.
  intros Hopen Hcfg Hmode Hgen Hpar Hne.
  assert (Hsel : SelectBlockSizeAndInitRangeGen (der w) (ostatus o) parallel
                 = Ret (0, Some ErrUnknownRangeGenMode, ostatus o)).
  { unfold SelectBlockSizeAndInitRangeGen.
    replace (parallel =? 1) with false by (symmetry; apply Z.eqb_neq; exact Hne).
    rewrite Hgen, Hcfg, Hmode. reflexivity. }
  split; [exact Hsel |]. split.
  - apply Execute_Return. unfold reach_monitor, reach_workers, reach_resolve.
    apply step_Return, step_Return. rewrite (step_Next _ _ _ _ _ Hopen).
    unfold Execute_plan.
    change (bind getDer ?k w) with (k (der w) w). cbv beta.
    rewrite Hcfg. unfold bind at 1. cbn [deref ret].
    rewrite Hpar. unfold bind at 1. cbn [liftRes ret].
    rewrite Hsel. unfold bind at 1. cbn [liftRes ret]. reflexivity.
  - intros Hclean Hin.
    destruct (grows_Execute_open _ _ _ Hopen)
      as [(l & El & Fl) (d & Ed & Fd)].
    cbn in El, Ed. rewrite app_nil_r in Ed.
    cbn in Hin. rewrite El, Ed in Hin.
    rewrite !in_app_iff in Hin. destruct Hin as [[Hin | Hin] | Hin].
    + exact (Hclean Hin).
    + rewrite Forall_forall in Fl. exact (Fl _ Hin eq_refl).
    + rewrite Forall_forall in Fd. exact (Fd _ Hin eq_refl).
Qed.

(** C8, as the code has it: when the selected parallel is 1 and the
    checkpoint brings no Range list, the planner yields block size -1 and the
    single range from 0 to the file size.  (A non-empty checkpoint Range list
    is reused as it is, whatever the parallel.) *)
Theorem Execute_plan_single (w0 w : World) (o : Opened) (cfg : Config)
    (fi : aliyunpan.FileEntity) :
  Execute_open X (enter w0) = (Ret (Next o), w) ->
  fileInfo (der w0) = Some fi ->
  config (der w) = Some cfg ->
  Ranges (bii o) = [] ->
  SelectParallel X (SliceParallel cfg) (MaxParallelWorkerCount X)
    (totalSize (ostatus o)) (Ranges (bii o)) = Ret 1 ->
  exists p w',
    reach_resolve X (enter w0) = (Ret (Next p), w') /\
    pparallel p = 1 /\
    pblockSize p = -1 /\
    bii_Ranges p = [ {| Begin := 0; End := aliyunpan.FileSize fi |} ].
Proof.
  intros Hopen Hfi Hcfg Hnil Hpar.
  destruct (Execute_open_reached X _ _ _ Hopen) as [S R].
  assert (Hfi' : fileInfo (der w) = Some fi).
  { destruct S as (S1 & _). cbn in S1. congruence. }
  destruct R as (_ & _ & _ & Hmon).
  destruct (monitor (der w)) as [m |] eqn:Em; [clear Hmon | congruence].
  unfold reach_resolve. rewrite (step_Next _ _ _ _ _ Hopen).
  unfold Execute_plan.
  change (bind getDer ?k w) with (k (der w) w). cbv beta.
  rewrite Hcfg. unfold bind at 1. cbn [deref ret].
  rewrite Hpar. unfold bind at 1. cbn [liftRes ret].
  unfold SelectBlockSizeAndInitRangeGen. cbn [Z.eqb Pos.eqb liftRes].
  unfold bind at 1. cbn [ret].
  rewrite Hnil. unfold onMonitor, bind, getDer, emit, modifyDer, ret. cbn.
  rewrite Em. cbn.
  destruct (writerIsFder (der w)); cbn; rewrite Hfi'; cbn;
    eexists; eexists; (split; [reflexivity |]); cbn; repeat split; reflexivity.
Qed.

End planning_facts.

Section pool_facts.

Context {ops : RangeGenOps}.
Variable X : Extern.



(** Fewer ranges than download URLs: the worker construction divides by
    zero at its first range. *)
Lemma Execute_workers_divide_by_zero (p : Planned)
    (urls : list panClientDownloadUrlEntity) (w : World) :
  bii_Ranges p <> [] ->
  len (bii_Ranges p) < len urls ->
  fst (Execute_workers (p, urls) w) = Panic DivideByZero.
Proof.
  intros Hne Hlt. pose proof (len_pos _ Hne) as Hpos.
  unfold Execute_workers, go_div.
  replace (len urls =? 0) with false by (symmetry; apply Z.eqb_neq; lia).
  rewrite Z.quot_small by lia.
  destruct (bii_Ranges p) as [| r rest]; [congruence |].
  reflexivity.
Qed.

(** When the number of URLs divides the number of ranges, every range index
    gets a slot inside the URL list. *)
Lemma url_slot_valid (nRanges nUrls k : Z) :
  0 < nUrls -> 0 < nRanges < 2 ^ 63 ->
  (nUrls | nRanges) ->
  0 <= k < nRanges ->
  exists factorNum slot,
    go_div nRanges nUrls = Ret factorNum /\
    go_div k factorNum = Ret slot /\
    0 <= slot < nUrls.
Proof.
  intros Hu Hr [q Hq] Hk.
  assert (Hqpos : 0 < q) by nia.
  assert (Hquot : Z.quot nRanges nUrls = q).
  { rewrite Z.quot_div_nonneg by lia. subst nRanges. apply Z.div_mul. lia. }
  assert (Hqle : q <= nRanges) by nia.
  exists q, (k / q). unfold go_div.
  replace (nUrls =? 0) with false by (symmetry; apply Z.eqb_neq; lia).
  replace (q =? 0) with false by (symmetry; apply Z.eqb_neq; lia).
  rewrite Hquot, (wrap64_id q) by (unfold int64_range; lia).
  rewrite Z.quot_div_nonneg by lia.
  assert (Hs : 0 <= k / q < nUrls).
  { split; [apply Z.div_pos; lia |]. apply Z.div_lt_upper_bound; nia. }
  assert (k / q <= k) by (apply Z.div_le_upper_bound; nia).
  rewrite (wrap64_id (k / q)) by (unfold int64_range; lia).
  repeat split; lia.
Qed.

End pool_facts.

(** ** The properties on the sample sessions *)

Import SpecGen.

(** C1: with one range and two resolved URLs the divisor
    [len(bii.Ranges) / len(panClientFileUrl)] is zero and [Execute] panics
    with a division by zero when it computes the URL slot of range 0. *)
Theorem Execute_fewer_ranges_than_urls :
  exists p urls w,
    reach_workers Sample.X0 (enter Sample.session_two_accounts)
    = (Ret (Next (p, urls)), w) /\
    len (bii_Ranges p) = 1 /\ len urls = 2 /\
    go_div (len (bii_Ranges p)) (len urls) = Ret 0 /\
    fst (Execute Sample.X0 Sample.session_two_accounts) = Panic DivideByZero.
Proof.
  do 3 eexists. split; [vm_compute; reflexivity |].
  repeat split; vm_compute; reflexivity.
Qed.

(** With three ranges and two URLs the divisor is 1 and range 2 gets slot 2,
    outside the URL list. *)
Lemma Execute_slot_out_of_range :
  fst (Execute (Sample.extern (Some Sample.checkpoint3) None)
         Sample.session_three_ranges) = Panic IndexOutOfRange.
Proof. vm_compute. reflexivity. Qed.

Lemma SelectParallel_checkpoint_witness :
  SelectParallel Sample.X0 0 3 1000 (Ranges Sample.checkpoint2) = Ret 2.
Proof.
  apply (SelectParallel_checkpoint Sample.X0 0 3 1000 (Ranges Sample.checkpoint2)).
  vm_compute. discriminate.
Defined.

(** C2 as stated fails: a checkpoint with two ranges and a preferred
    parallel of 5 give 5, not 2. *)
Lemma SelectParallel_checkpoint_counterexample :
  Ranges Sample.checkpoint2 <> [] /\
  SelectParallel Sample.X0 5 3 1000 (Ranges Sample.checkpoint2) = Ret 5 /\
  SelectParallel Sample.X0 5 3 1000 (Ranges Sample.checkpoint2)
  <> Ret (len (Ranges Sample.checkpoint2)).
Proof.
  split; [vm_compute; discriminate |].
  split; [vm_compute; reflexivity | vm_compute; discriminate].
Qed.

Lemma SelectBlockSize_BlockSize_mode_witness :
  SelectBlockSizeAndInitRangeGen Sample.blockSizeDownloader Sample.status5 2
  = Ret (3, None,
         SetRangeListGen Sample.status5 (Some (NewRangeListGenBlockSize 5 0 3))).
Proof.
  apply (SelectBlockSize_BlockSize_mode Sample.blockSizeDownloader
           (Sample.conf RangeGenMode_BlockSize 2) Sample.status5 2);
    [reflexivity | reflexivity | reflexivity | lia | vm_compute; split; [discriminate | reflexivity]].
Defined.

(** C7 as stated fails: for 5 bytes, parallel 2 and a hint of 100 the code
    gives block size 3, the specification's formula gives 4. *)
Lemma SelectBlockSize_BlockSize_mode_counterexample :
  Mode (Sample.conf RangeGenMode_BlockSize 2) = RangeGenMode_BlockSize /\
  rangeListGen Sample.status5 = None /\
  (exists status',
     SelectBlockSizeAndInitRangeGen Sample.blockSizeDownloader Sample.status5 2
     = Ret (3, None, status')) /\
  Spec.blockSize (BlockSize (Sample.conf RangeGenMode_BlockSize 2))
    (totalSize Sample.status5) 2 = 4.
Proof.
  split; [reflexivity |]. split; [reflexivity |].
  split; [eexists; vm_compute; reflexivity | vm_compute; reflexivity].
Qed.

Lemma Pause_Resume_Cancel_before_Execute_witness :
  Pause Sample.session_fresh = (Ret tt, Sample.session_fresh) /\
  Resume Sample.session_fresh = (Ret tt, Sample.session_fresh) /\
  Cancel Sample.session_fresh = (Ret tt, Sample.session_fresh).
Proof.
  apply (Pause_Resume_Cancel_before_Execute Sample.session_fresh). reflexivity.
Defined.

Lemma Execute_zero_length_witness :
  exists w' session,
    Execute Sample.X0 Sample.session_zero = (Ret None, w') /\
    log w' = log Sample.session_zero ++ session /\
    session = [Trigger onFinishEvent] /\
    fired onFinishEvent session = 1%nat /\
    fired onSuccessEvent session = 0%nat /\
    existsb touches_url session = false /\
    existsb touches_checkpoint session = false.
Proof.
  apply (Execute_zero_length Sample.X0 Sample.session_zero (Sample.file 0));
    reflexivity.
Defined.

Lemma Execute_primary_url_fails_witness :
  fst (Execute Sample.X0 Sample.session_empty_url)
  = Ret (Some ErrFileDownloadForbidden) /\
  fst (Execute Sample.X0 Sample.session_api_error) = Ret (Some (ApiError 500)).
Proof.
  split.
  - edestruct (proj1 (Execute_primary_url_fails Sample.X0
                        Sample.session_empty_url _ _ (Sample.file 1000)
                        ltac:(vm_compute; reflexivity) eq_refl))
      as (w' & E & _); [vm_compute; reflexivity |].
    rewrite E. reflexivity.
  - edestruct (proj2 (Execute_primary_url_fails Sample.X0
                        Sample.session_api_error _ _ (Sample.file 1000)
                        ltac:(vm_compute; reflexivity) eq_refl))
      as (w' & E & _); [vm_compute; reflexivity |].
    rewrite E. reflexivity.
Defined.

(** C3 as stated fails: when the request for the primary URL returns an API
    error, [Execute] returns that error, not [ErrFileDownloadForbidden]; Fail
    is not fired and the checkpoint is not deleted. *)
Lemma Execute_primary_api_error_counterexample :
  primary Sample.X0 (der Sample.session_api_error) (Sample.file 1000)
  = PrimaryError (ApiError 500) /\
  fst (Execute Sample.X0 Sample.session_api_error) = Ret (Some (ApiError 500)) /\
  fst (Execute Sample.X0 Sample.session_api_error)
  <> Ret (Some ErrFileDownloadForbidden) /\
  fired onFailedEvent (log (snd (Execute Sample.X0 Sample.session_api_error)))
  = 0%nat /\
  ~ In RemoveInstanceState (log (snd (Execute Sample.X0 Sample.session_api_error))).
Proof.
  split; [vm_compute; reflexivity |].
  split; [vm_compute; reflexivity |].
  split; [vm_compute; discriminate |].
  split; [vm_compute; reflexivity |].
  vm_compute. intuition discriminate.
Qed.




Lemma Execute_plan_single_witness :
  exists p w',
    reach_resolve Sample.X0 (enter Sample.session_single) = (Ret (Next p), w') /\
    pparallel p = 1 /\
    pblockSize p = -1 /\
    bii_Ranges p = [ {| Begin := 0; End := 1000 |} ].
Proof.
  eapply (Execute_plan_single Sample.X0 Sample.session_single _ _
            (Sample.conf RangeGenMode_Default 1) (Sample.file 1000));
    [vm_compute; reflexivity | reflexivity | reflexivity | reflexivity
    | vm_compute; reflexivity].
Defined.

(** C8 as stated fails: with preferred parallel 1 and a checkpoint of two
    ranges the parallel is 1 and the block size -1, but the Range list is the
    checkpoint's two ranges, not the single range over the file. *)
Lemma Execute_plan_single_counterexample :
  exists p w',
    reach_resolve (Sample.extern (Some Sample.checkpoint2) None)
      (enter Sample.session_single) = (Ret (Next p), w') /\
    pparallel p = 1 /\
    pblockSize p = -1 /\
    bii_Ranges p = Ranges Sample.checkpoint2 /\
    bii_Ranges p <> [ {| Begin := 0; End := 1000 |} ].
Proof.
  do 2 eexists. split; [vm_compute; reflexivity |].
  repeat split; vm_compute; discriminate.
Qed.

Lemma Execute_unknown_mode_witness :
  exists w,
    Execute Sample.X0 Sample.session_unknown_mode
    = (Ret (Some ErrUnknownRangeGenMode), leave Sample.session_unknown_mode w) /\
    ~ In MonitorExecute (log (leave Sample.session_unknown_mode w)).
Proof.
  edestruct (Execute_unknown_mode Sample.X0 Sample.session_unknown_mode)
    with (cfg := Sample.conf (RangeGenMode_Other 7) 2) (raw := 7) (parallel := 2)
    as (_ & E & N);
    [vm_compute; reflexivity | reflexivity | reflexivity | reflexivity
    | vm_compute; reflexivity | discriminate |].
  eexists. split; [exact E |]. apply N. vm_compute. intros H. exact H.
Defined.

(** C9 as stated fails: with an unknown mode and parallel 1 no error is
    returned, [Execute] runs the monitor and returns nil. *)
Lemma Execute_unknown_mode_counterexample :
  (exists cfg, config (der Sample.session_unknown_mode_single) = Some cfg /\
               Mode cfg = RangeGenMode_Other 7) /\
  SelectBlockSizeAndInitRangeGen (der Sample.session_unknown_mode_single)
    (SetTotalSize NewDownloadStatus 1000) 1
  = Ret (-1, None, SetTotalSize NewDownloadStatus 1000) /\
  fst (Execute Sample.X0 Sample.session_unknown_mode_single) = Ret None /\
  In MonitorExecute (log (snd (Execute Sample.X0 Sample.session_unknown_mode_single))).
Proof.
  split; [eexists; split; reflexivity |].
  split; [vm_compute; reflexivity |].
  split; [vm_compute; reflexivity |].
  vm_compute. intuition.
Qed.

(** ** Further properties of the planner *)

Section planner_more.

Context {ops : RangeGenOps}.
Variable X : Extern.

(** [SelectParallel] never returns less than 1, and the only way it panics
    is the division by a zero [MinParallelSize]. *)
Theorem SelectParallel_at_least_one (prefParallel maxParallel total : Z)
    (instanceRangeList : RangeList) :
  match SelectParallel X prefParallel maxParallel total instanceRangeList with
  | Ret parallel => 1 <= parallel
  | Panic p => p = DivideByZero /\ MinParallelSize X = 0
  end.
Proof.
  unfold SelectParallel, go_div.
  destruct (0 <? prefParallel).
  - destruct (Z.ltb_spec prefParallel 1); lia.
  - destruct (0 <? len instanceRangeList).
    + destruct (Z.ltb_spec (len instanceRangeList) 1); lia.
    + destruct (Z.eqb_spec (MinParallelSize X) 0) as [E | E]; [split; auto |].
      match goal with
      | |- context [if ?c then wrap64 ?a else ?b] =>
          destruct (Z.ltb_spec (if c then wrap64 a else b) 1); lia
      end.
Qed.

(** Without a preference and without checkpoint ranges, the parallel is the
    smaller of [maxParallel] and floor(totalSize / MinParallelSize) + 1, and
    at least 1: a file below [MinParallelSize] is fetched by one worker. *)
Theorem SelectParallel_auto (prefParallel maxParallel total : Z) :
  prefParallel <= 0 ->
  0 < MinParallelSize X ->
  0 <= total < 2 ^ 63 ->
  maxParallel < 2 ^ 63 ->
  SelectParallel X prefParallel maxParallel total []
  = Ret (Z.max 1 (Z.min maxParallel (total / MinParallelSize X + 1))).
Proof.
  intros Hpref Hmin Htot Hmax.
  unfold SelectParallel, go_div.
  replace (0 <? prefParallel) with false by (symmetry; apply Z.ltb_ge; lia).
  cbn [len List.length Z.of_nat Z.ltb Z.compare].
  replace (MinParallelSize X =? 0) with false by (symmetry; apply Z.eqb_neq; lia).
  rewrite Z.quot_div_nonneg by lia.
  assert (Hq : 0 <= total / MinParallelSize X <= total).
  { split; [apply Z.div_pos; lia |]. apply Z.div_le_upper_bound; nia. }
  rewrite (wrap64_id (total / MinParallelSize X)) by (unfold int64_range; lia).
  f_equal.
  destruct (Z.ltb_spec (total / MinParallelSize X) maxParallel) as [Hlt | Hge].
  - rewrite (wrap64_id (total / MinParallelSize X + 1))
      by (unfold int64_range; lia).
    rewrite (Z.min_r maxParallel) by lia.
    destruct (Z.ltb_spec (total / MinParallelSize X + 1) 1); lia.
  - rewrite (Z.min_l maxParallel) by lia.
    destruct (Z.ltb_spec maxParallel 1); lia.
Qed.

(** The cache never exceeds the configured size, nor a positive block
    size; the sentinel -1 (and any non-positive block size) leaves the
    configured size. *)
Theorem SelectCacheSize_bounds (confCacheSize blockSize : Z) :
  SelectCacheSize confCacheSize blockSize <= confCacheSize /\
  SelectCacheSize confCacheSize blockSize
  = (if 0 <? blockSize then Z.min confCacheSize blockSize else confCacheSize).
Proof.
  unfold SelectCacheSize.
  destruct (Z.ltb_spec 0 blockSize); cbn [andb];
    [destruct (Z.ltb_spec blockSize confCacheSize) |]; lia.
Qed.

(** With parallel 1, or with a range generator restored from the checkpoint,
    [SelectBlockSizeAndInitRangeGen] needs neither mode nor configuration:
    it returns without error even when [der.config] is nil. *)
Theorem SelectBlockSize_without_mode (d : Downloader) (status : DownloadStatus)
    (parallel : Z) :
  (parallel = 1 ->
   SelectBlockSizeAndInitRangeGen d status parallel = Ret (-1, None, status)) /\
  (forall gen,
     parallel <> 1 ->
     rangeListGen status = Some gen ->
     SelectBlockSizeAndInitRangeGen d status parallel
     = Ret (LoadBlockSize gen, None, status)).
Proof.
  split.
  - intros ->. reflexivity.
  - intros gen Hne Hgen. unfold SelectBlockSizeAndInitRangeGen.
    replace (parallel =? 1) with false by (symmetry; apply Z.eqb_neq; exact Hne).
    rewrite Hgen. unfold SetRangeListGen. rewrite <- Hgen.
    destruct status; reflexivity.
Qed.

End planner_more.

Section planner_block.

Context {ops : RangeGenOps}.
Variable X : Extern.

(** In BlockSize mode on a fresh session with more than one worker, the
    block size never exceeds the configured [BlockSize]; and when the
    configured size does not cap it, [parallel] blocks are enough to hold
    the whole file. *)
Theorem SelectBlockSize_covers_file (d : Downloader) (cfg : Config)
    (status : DownloadStatus) (parallel : Z) :
  config d = Some cfg ->
  Mode cfg = RangeGenMode_BlockSize ->
  rangeListGen status = None ->
  1 < parallel ->
  0 <= totalSize status < 2 ^ 63 ->
  exists blockSize status',
    SelectBlockSizeAndInitRangeGen d status parallel
    = Ret (blockSize, None, status') /\
    blockSize <= BlockSize cfg /\
    (totalSize status / parallel + 1 <= BlockSize cfg ->
     totalSize status < parallel * blockSize).
Proof.
  intros Hcfg Hmode Hgen Hpar Htot.
  unfold SelectBlockSizeAndInitRangeGen.
  replace (parallel =? 1) with false by (symmetry; apply Z.eqb_neq; lia).
  rewrite Hgen, Hcfg, Hmode. unfold go_div.
  replace (parallel =? 0) with false by (symmetry; apply Z.eqb_neq; lia).
  rewrite Z.quot_div_nonneg by lia.
  assert (Hb : 0 <= totalSize status / parallel <= totalSize status).
  { split; [apply Z.div_pos; lia |]. apply Z.div_le_upper_bound; nia. }
  assert (Hhalf : totalSize status / parallel * 2 <= totalSize status).
  { transitivity (parallel * (totalSize status / parallel)); [nia |].
    apply Z.mul_div_le; lia. }
  assert (Hq1 : totalSize status / parallel + 1 < 2 ^ 63).
  { destruct (Z.eq_dec (totalSize status) 0) as [E | E];
      [rewrite E, Z.div_0_l by lia |]; lia. }
  rewrite (wrap64_id (totalSize status / parallel)) by (unfold int64_range; lia).
  rewrite (wrap64_id (totalSize status / parallel + 1))
    by (unfold int64_range; lia).
  cbv zeta. do 2 eexists. split; [reflexivity |].
  pose proof (Z.mod_pos_bound (totalSize status) parallel ltac:(lia)) as Hmod.
  pose proof (Z.div_mod (totalSize status) parallel ltac:(lia)) as Hdm.
  destruct (Z.ltb_spec (BlockSize cfg) (totalSize status / parallel + 1));
    split; try lia; intros; nia.
Qed.

End planner_block.

Section init_more.

Context {ops : RangeGenOps}.
Variable X : Extern.

(** [lazyInit] fills what is missing and keeps what is set: afterwards
    configuration, monitor and probe function are non-nil, a configuration,
    monitor or probe function that was set is the same as before, nothing is
    logged, and a second [lazyInit] changes nothing. *)
Theorem lazyInit_defaults (w : World) :
  exists w1,
    lazyInit X w = (Ret tt, w1) /\
    lazyInit X w1 = (Ret tt, w1) /\
    log w1 = log w /\
    config (der w1)
    = Some (match config (der w) with Some c => c | None => NewConfig X end) /\
    monitor (der w1)
    = Some (match monitor (der w) with Some m => m | None => NewMonitor end) /\
    durlCheckFunc (der w1)
    = Some (match durlCheckFunc (der w) with
            | Some f => f
            | None => DefaultDURLCheckFunc X
            end) /\
    fileInfo (der w1) = fileInfo (der w).
Proof.
  destruct (lazyInit_sets X w) as (w1 & E & S & Hlog & _).
  exists w1. split; [exact E |]. split; [exact (lazyInit_idem X _ _ E) |].
  split; [exact Hlog |].
  unfold lazyInit, bind, modifyDer in E. cbn in E. inversion E; subst w1; cbn.
  destruct w as [[mc fps fi did dcf lbs wf pc spl cfg mon ist] l df]; cbn.
  destruct cfg, mon, dcf; repeat split; reflexivity.
Qed.

End init_more.

(** ** Further properties of the URL pool *)

Section pool_more.

Context {ops : RangeGenOps}.
Variable X : Extern.




(** When every candidate's probe ends in an error, the pool is the primary
    entry alone and the session goes on. *)
Theorem checkLoadBalancers_all_errors (w : World) (check : DURLCheckFunc) :
  durlCheckFunc (der w) = Some check ->
  (forall u, In u (loadBalansers (der w)) -> snd (check u) <> None) ->
  fst (checkLoadBalancers w)
  = Ret (NewLoadBalancerResponseList [ {| URL_ := "der.durl" |} ]).
Proof.
  intros Hcheck Herr. unfold checkLoadBalancers.
  change (bind getDer ?k w) with (k (der w) w). cbv beta.
  assert (Hall : forall l acc w0,
             der w0 = der w ->
             (forall u, In u l -> snd (check u) <> None) ->
             fst (probeAll l acc w0) = Ret acc).
  { induction l as [| u rest IH]; intros acc w0 Hd Hl; cbn [probeAll];
      [reflexivity |].
    assert (Ep : exists w1, probe u w0 = (Ret None, w1) /\ der w1 = der w).
    { unfold probe.
      change (bind getDer ?k w0) with (k (der w0) w0). cbv beta.
      rewrite Hd, Hcheck. unfold bind at 1. cbn [deref ret].
      unfold bind at 1. cbn [emit].
      pose proof (Hl u (or_introl eq_refl)) as Hu.
      destruct (check u) as [[n resp] [e |]]; [| cbn in Hu; congruence].
      eexists. split; [reflexivity | exact Hd]. }
    destruct Ep as (w1 & Ep & Hd1).
    rewrite (bind_Ret _ _ _ _ _ Ep).
    apply IH; [exact Hd1 | intros v Hv; apply Hl; right; exact Hv]. }
  specialize (Hall (loadBalansers (der w)) [ {| URL_ := "der.durl" |} ] w
                eq_refl Herr).
  unfold bind.
  destruct (probeAll (loadBalansers (der w)) [ {| URL_ := "der.durl" |} ] w)
    as [[r | q] w1]; cbn in Hall; [| discriminate].
  inversion Hall; subst. reflexivity.
Qed.


End pool_more.

(** ** Further properties of the URL resolution *)

Section resolve_more.

Context {ops : RangeGenOps}.
Variable X : Extern.

Lemma usableUrl_Some (durl : option aliyunpan.GetFileDownloadUrlResult)
    (url : string) :
  usableUrl X durl = Some url ->
  url <> ""%string /\ prefix (IllegalDownloadUrlPrefix X) url = false.
Proof.
  unfold usableUrl. destruct durl as [u |]; [| discriminate].
  destruct (String.eqb_spec (aliyunpan.Url u) "") as [E | E]; cbn [orb];
    [discriminate |].
  destruct (prefix (IllegalDownloadUrlPrefix X) (aliyunpan.Url u)) eqn:Ep;
    [discriminate |].
  intros H. inversion H; subst url. split; assumption.
Qed.

(** What the loop over the auxiliary accounts adds: at most one entry per
    account, each with a usable URL and bound to the account it came from;
    the entries it was given stay in front. *)
Lemma subClientUrls_shape (mainDriveName path : string) (spcs : list PanClient) :
  forall i result w r w',
    subClientUrls X mainDriveName path i spcs result w = (Ret r, w') ->
    exists added,
      r = result ++ added /\
      (List.length added <= List.length spcs)%nat /\
      Forall (fun e =>
                FileUrl e <> ""%string /\
                prefix (IllegalDownloadUrlPrefix X) (FileUrl e) = false /\
                exists j, PanClient_ e = SubClient j /\
                          (i <= j < i + List.length spcs)%nat) added.
Proof.
  induction spcs as [| spc rest IH]; intros i result w r w' H;
    cbn [subClientUrls] in H.
  - inversion H; subst. exists []. rewrite app_nil_r.
    repeat split; [cbn; lia | constructor].
  - assert (Hskip : forall w0,
               subClientUrls X mainDriveName path (S i) rest result w0 = (Ret r, w') ->
               exists added,
                 r = result ++ added /\
                 (List.length added <= List.length (spc :: rest))%nat /\
                 Forall (fun e =>
                           FileUrl e <> ""%string /\
                           prefix (IllegalDownloadUrlPrefix X) (FileUrl e) = false /\
                           exists j, PanClient_ e = SubClient j /\
                                     (i <= j < i + List.length (spc :: rest))%nat)
                        added).
    { intros w0 H0. apply IH in H0. destruct H0 as (added & Hr & Hlen & Hall).
      exists added. split; [exact Hr |]. split; [cbn; lia |].
      eapply Forall_impl; [| exact Hall]. cbn.
      intros e (A & B & j & Hj & Hr'). repeat split; try assumption.
      exists j. split; [exact Hj | lia]. }
    unfold bind at 1 in H. cbn [emit] in H.
    destruct (GetUserInfo spc) as [userInfo [e1 |]]; [eapply Hskip; exact H |].
    unfold bind at 1 in H.
    match type of H with
    | context [match ?m ?w0 with _ => _ end] =>
        destruct (m w0) as [[driveId_ | q] w1] eqn:Ed; [| discriminate]
    end.
    unfold bind at 1 in H. cbn [emit] in H.
    destruct (FileInfoByPath spc driveId_ path) as [[pfi |] [e2 |]];
      try (eapply Hskip; exact H).
    unfold bind at 1 in H. cbn [emit] in H.
    destruct (GetFileDownloadUrl spc driveId_ (aliyunpan.FileId pfi))
      as [durl2 [e3 |]].
    { unfold bind at 1 in H. cbn [emit] in H. eapply Hskip; exact H. }
    unfold bind at 1 in H. cbn [emit] in H.
    destruct (usableUrl X durl2) as [url |] eqn:Eu; [| eapply Hskip; exact H].
    apply usableUrl_Some in Eu. destruct Eu as [Hne Hpre].
    apply IH in H. destruct H as (added & Hr & Hlen & Hall).
    eexists (_ :: added). split; [rewrite <- app_assoc in Hr; exact Hr |].
    split; [cbn; lia |]. constructor.
    + cbn. repeat split; try assumption. exists i. split; [reflexivity | cbn; lia].
    + eapply Forall_impl; [| exact Hall]. cbn.
      intros e (A & B & j & Hj & Hr'). repeat split; try assumption.
      exists j. split; [exact Hj | lia].
Qed.


(** The album source answers with exactly one entry, bound to the main
    account, after exactly one API request: the auxiliary accounts are not
    asked. *)
Theorem getAlbumSourceDownloadUrl_single (w w' : World)
    (urls : list panClientDownloadUrlEntity) (err : option error) :
  getAlbumSourceDownloadUrl w = (Ret (Some urls, err), w') ->
  err = None /\
  exists fi url,
    fileInfo (der w) = Some fi /\
    url <> ""%string /\
    urls = [ {| PanClient_ := MainClient; FileInfo := fi; DriveId := driveId (der w);
                FileId := aliyunpan.FileId fi; FileUrl := url |} ] /\
    log w' = log w ++ [ApiCall MainClient
                         (OpShareAlbumGetFileDownloadUrl (aliyunpan.AlbumId fi)
                            (aliyunpan.DriveId fi) (aliyunpan.FileId fi));
                       Sleep200ms].
Proof.
  unfold getAlbumSourceDownloadUrl, removeInstanceState.
  change (bind getDer ?k w) with (k (der w) w). cbv beta.
  destruct (fileInfo (der w)) as [fi |] eqn:Efi; [| discriminate].
  unfold bind, emit, ret. cbn.
  destruct (ShareAlbumGetFileDownloadUrl (panClient (der w)) (aliyunpan.AlbumId fi)
              (aliyunpan.DriveId fi) (aliyunpan.FileId fi))
    as [[durl |] [e |]]; cbn; try discriminate.
  destruct (String.eqb_spec (albumRealUrl fi durl) "") as [E | E]; cbn;
    [discriminate |].
  intros H. inversion H; subst; clear H. cbn.
  split; [reflexivity |]. exists fi, (albumRealUrl fi durl).
  repeat split; try assumption. rewrite <- app_assoc. reflexivity.
Qed.

(** Every download URL that the resolution hands to the workers is
    non-empty, and for the file source none starts with the illegal
    prefix. *)
Theorem resolved_urls_usable (w w' : World)
    (urls : list panClientDownloadUrlEntity) (err : option error) :
  getFileAllClientDownloadUrl X w = (Ret (Some urls, err), w') ->
  urls <> [] /\
  Forall (fun e => FileUrl e <> ""%string) urls /\
  (filePanSource (der w) = FileSource ->
   Forall (fun e => prefix (IllegalDownloadUrlPrefix X) (FileUrl e) = false) urls).
Proof.
  unfold getFileAllClientDownloadUrl.
  change (bind getDer ?k w) with (k (der w) w). cbv beta.
  destruct (filePanSource (der w)) eqn:Esrc.
  - intros H.
    assert (Hshape : exists fi url added,
               urls = {| PanClient_ := MainClient; FileInfo := fi;
                         DriveId := driveId (der w);
                         FileId := aliyunpan.FileId fi; FileUrl := url |} :: added /\
               url <> ""%string /\
               prefix (IllegalDownloadUrlPrefix X) url = false /\
               Forall (fun e => FileUrl e <> ""%string /\
                                prefix (IllegalDownloadUrlPrefix X) (FileUrl e) = false)
                      added).
    { revert H. unfold getFileSourceDownloadUrl.
      change (bind getDer ?k w) with (k (der w) w). cbv beta.
      destruct (fileInfo (der w)) as [fi |] eqn:Efi; [| discriminate].
      unfold bind at 1. cbn [deref ret].
      unfold bind at 1. cbn [emit].
      destruct (GetFileDownloadUrl (panClient (der w)) (driveId (der w))
                  (aliyunpan.FileId fi)) as [durl [e |]].
      { unfold bind, emit, ret. cbn. discriminate. }
      unfold bind at 1. cbn [emit].
      destruct (usableUrl X durl) as [url |] eqn:Eu.
      2:{ unfold removeInstanceState, bind, emit, ret. cbn. discriminate. }
      unfold bind at 1. cbn [emit].
      destruct (GetUserInfo (panClient (der w))) as [[ui |] [e |]];
        try (cbn; discriminate).
      unfold bind.
      match goal with
      | |- context [subClientUrls X ?a ?b ?c ?d ?e ?w0] =>
          destruct (subClientUrls X a b c d e w0) as [[r | q] w1] eqn:Es;
            [| discriminate]
      end.
      intros H. inversion H; subst; clear H.
      apply subClientUrls_shape in Es. destruct Es as (added & Hr & _ & Hall).
      apply usableUrl_Some in Eu. destruct Eu as [Hne Hpre].
      exists fi, url, added. split; [exact Hr |].
      split; [exact Hne |]. split; [exact Hpre |].
      eapply Forall_impl; [| exact Hall]. cbn. intros e (A & B & _).
      split; assumption. }
    destruct Hshape as (fi & url & added & -> & Hne & Hpre & Hall).
    split; [discriminate |]. split.
    + constructor; [exact Hne |].
      eapply Forall_impl; [| exact Hall]. cbn. intros e [A _]. exact A.
    + intros _. constructor; [exact Hpre |].
      eapply Forall_impl; [| exact Hall]. cbn. intros e [_ B]. exact B.
  - unfold getAlbumSourceDownloadUrl, removeInstanceState.
    change (bind getDer ?k w) with (k (der w) w). cbv beta.
    destruct (fileInfo (der w)) as [fi |] eqn:Efi; [| discriminate].
    unfold bind, emit, ret. cbn.
    destruct (ShareAlbumGetFileDownloadUrl (panClient (der w)) (aliyunpan.AlbumId fi)
                (aliyunpan.DriveId fi) (aliyunpan.FileId fi))
      as [[durl |] [e |]]; cbn; try discriminate.
    destruct (String.eqb_spec (albumRealUrl fi durl) "") as [E | E]; cbn;
      [discriminate |].
    intros H. inversion H; subst; clear H.
    split; [discriminate |]. split; [| discriminate].
    constructor; [exact E | constructor].
Qed.

End resolve_more.

(** ** Further properties of [Execute] *)

Section execute_more.

Context {ops : RangeGenOps}.
Variable X : Extern.

(** Album source: a nil result that comes without an error is dereferenced
    (line 585), so [Execute] panics; the file source tests the result for nil
    (line 489) and treats the same answer as a missing URL. *)
Theorem Execute_album_nil_result (w0 w : World) (p : Planned)
    (fi : aliyunpan.FileEntity) :
  reach_resolve X (enter w0) = (Ret (Next p), w) ->
  fileInfo (der w0) = Some fi ->
  primary X (der w0) fi = PrimaryNil ->
  filePanSource (der w0) = AlbumSource /\
  fst (Execute X w0) = Panic NilDereference.
Proof.
  intros Hreach Hfi Hprim.
  destruct (reach_resolve_reached X _ _ _ Hreach) as [S _].
  assert (Hsrc : filePanSource (der w0) = AlbumSource).
  { unfold primary in Hprim. destruct (filePanSource (der w0)); [| reflexivity].
    destruct (GetFileDownloadUrl _ _ _) as [durl [e |]]; [discriminate |].
    destruct (usableUrl X durl); discriminate. }
  split; [exact Hsrc |].
  unfold primary in Hprim. rewrite Hsrc in Hprim.
  destruct S as (S1 & S2 & S3 & S4 & _). cbn in S1, S2, S3, S4.
  assert (E : exists w1, getFileAllClientDownloadUrl X w = (Panic NilDereference, w1)).
  { unfold getFileAllClientDownloadUrl, getAlbumSourceDownloadUrl.
    change (bind getDer ?k w) with (k (der w) w). cbv beta.
    rewrite S2, Hsrc.
    change (bind getDer ?k w) with (k (der w) w). cbv beta.
    rewrite S1, Hfi, S4. unfold bind, emit, ret. cbn.
    destruct (ShareAlbumGetFileDownloadUrl (panClient (der w0))
                (aliyunpan.AlbumId fi) (aliyunpan.DriveId fi)
                (aliyunpan.FileId fi)) as [[durl |] [e |]]; try discriminate;
      [destruct (albumRealUrl fi durl =? "")%string; discriminate |].
    cbn. eexists. reflexivity. }
  destruct E as (w1 & E).
  erewrite Execute_Panic; [reflexivity |].
  unfold reach_monitor, reach_workers. apply step_Panic.
  rewrite (step_Next _ _ _ _ _ Hreach). unfold Execute_resolve.
  apply bind_Panic. exact E.
Qed.

(** File source: when the primary URL is resolved but the main account's
    user information cannot be read, [Execute] gives up: it fires Cancel once
    and returns the error, without Fail and without deleting the checkpoint;
    the auxiliary accounts are not asked. *)
Theorem Execute_main_user_info_fails (w0 w : World) (p : Planned)
    (fi : aliyunpan.FileEntity) (url : string)
    (ui : option aliyunpan.UserInfo) (e : error) :
  reach_resolve X (enter w0) = (Ret (Next p), w) ->
  fileInfo (der w0) = Some fi ->
  filePanSource (der w0) = FileSource ->
  primary X (der w0) fi = PrimaryUrl url ->
  GetUserInfo (panClient (der w0)) = (ui, Some e) ->
  exists w',
    Execute X w0 = (Ret (Some e), w') /\
    log w' = log w ++ [primaryCall (der w0) fi; Sleep200ms;
                       ApiCall MainClient OpGetUserInfo; Trigger onCancelEvent]
                   ++ deferred w.
Proof.
  intros Hreach Hfi Hsrc Hprim Hui.
  destruct (reach_resolve_reached X _ _ _ Hreach) as [S _].
  destruct S as (S1 & S2 & S3 & S4 & _). cbn in S1, S2, S3, S4.
  unfold primary in Hprim. rewrite Hsrc in Hprim.
  unfold primaryCall. rewrite Hsrc.
  assert (E : exists w1,
             getFileAllClientDownloadUrl X w = (Ret (None, Some e), w1) /\
             log w1 = log w ++ [ApiCall MainClient
                                  (OpGetFileDownloadUrl (driveId (der w0))
                                     (aliyunpan.FileId fi));
                                Sleep200ms; ApiCall MainClient OpGetUserInfo] /\
             deferred w1 = deferred w).
  { unfold getFileAllClientDownloadUrl, getFileSourceDownloadUrl.
    change (bind getDer ?k w) with (k (der w) w). cbv beta.
    rewrite S2, Hsrc.
    change (bind getDer ?k w) with (k (der w) w). cbv beta.
    rewrite S1, Hfi, S3, S4. unfold bind, emit, ret. cbn.
    destruct (GetFileDownloadUrl (panClient (der w0)) (driveId (der w0))
                (aliyunpan.FileId fi)) as [durl [e' |]]; [discriminate |].
    destruct (usableUrl X durl) as [u |]; [| discriminate].
    cbn. rewrite Hui. destruct ui; cbn;
      (eexists; split; [reflexivity |]; cbn; rewrite <- !app_assoc;
       split; reflexivity). }
  destruct E as (w1 & E & Hlog & Hdef).
  eexists. split.
  - apply Execute_Return. unfold reach_monitor, reach_workers.
    apply step_Return. rewrite (step_Next _ _ _ _ _ Hreach).
    unfold Execute_resolve. rewrite (bind_Ret _ _ _ _ _ E). reflexivity.
  - cbn. rewrite Hlog, Hdef. rewrite <- !app_assoc. reflexivity.
Qed.

(** The verdict: once the monitor has run, [Execute] returns exactly the
    monitor's error.  Without error it fires Success and deletes the
    checkpoint; with any error it fires neither Success nor Fail and leaves
    the checkpoint for a later resume.  Finish is fired last in both
    cases. *)
Theorem Execute_verdict (w0 w : World) (p : Planned) (m : Monitor) :
  reach_monitor X (enter w0) = (Ret (Next p), w) ->
  monitor (der w) = Some m ->
  exists w',
    Execute X w0 = (Ret (monitorErr X (armed m p (instanceState (der w)))), w') /\
    log w' = log w ++ [Trigger onExecuteEvent; MonitorExecute]
                   ++ match monitorErr X (armed m p (instanceState (der w))) with
                      | None => [Trigger onSuccessEvent; RemoveInstanceState]
                      | Some _ => []
                      end
                   ++ [Trigger onFinishEvent] ++ deferred w.
Proof.
  intros Hreach Hm.
  destruct (reach_monitor_reached X _ _ _ Hreach) as [_ R].
  destruct R as ((fi & Hfi & Hsz) & _).
  destruct (Execute_monitor_run X p w m fi Hm Hfi Hsz) as (w' & E & Hlog & Hdef).
  exists (leave w0 w'). split.
  - rewrite (Execute_Next X _ _ _ Hreach), E. reflexivity.
  - cbn. rewrite Hlog, Hdef. rewrite <- !app_assoc. reflexivity.
Qed.


End execute_more.

(** ** The worker construction, range by range *)

Section workers_more.

Context {ops : RangeGenOps}.

Lemma go_index_inside {A : Type} (s : list A) (i : Z) :
  0 <= i < len s -> exists a, go_index s i = Ret a.
Proof.
  intros Hi. unfold go_index.
  replace (i <? 0) with false by (symmetry; apply Z.ltb_ge; lia).
  replace (len s <=? i) with false by (symmetry; apply Z.leb_gt; lia).
  cbn [orb].
  destruct (nth_error s (Z.to_nat i)) as [a |] eqn:E; [exists a; reflexivity |].
  apply nth_error_None in E. unfold len in Hi. lia.
Qed.

Lemma go_index_outside {A : Type} (s : list A) (i : Z) :
  len s <= i -> go_index s i = Panic IndexOutOfRange.
Proof.
  intros Hi. unfold go_index.
  replace (len s <=? i) with true by (symmetry; apply Z.leb_le; lia).
  rewrite orb_true_r. reflexivity.
Qed.

Lemma go_div_pos (a b : Z) :
  0 <= a < 2 ^ 63 -> 0 < b -> go_div a b = Ret (a / b).
Proof.
  intros Ha Hb. unfold go_div.
  replace (b =? 0) with false by (symmetry; apply Z.eqb_neq; lia).
  rewrite Z.quot_div_nonneg by lia.
  assert (0 <= a / b <= a).
  { split; [apply Z.div_pos; lia |]. apply Z.div_le_upper_bound; nia. }
  rewrite wrap64_id by (unfold int64_range; lia). reflexivity.
Qed.

(** What the loop needs from the receiver. *)
Let equipped (w : World) : Prop :=
  monitor (der w) <> None /\ fileInfo (der w) <> None.

(** One turn of the loop whose slot lies inside the URL list. *)
Lemma initWorkers_turn (urls : list panClientDownloadUrlEntity) (f k : Z)
    (r : Range) (rest : RangeList) (pool : LoadBalancerResponseList) (w : World) :
  0 < f -> 0 <= k < 2 ^ 63 -> k / f < len urls -> equipped w ->
  exists pool1 w1,
    equipped w1 /\
    initWorkers urls f k (r :: rest) pool w
    = initWorkers urls f (k + 1) rest pool1 w1.
Proof.
  intros Hf Hk Hslot [Hm Hfi].
  assert (Hs : 0 <= k / f) by (apply Z.div_pos; lia).
  destruct (go_index_inside urls (k / f) ltac:(lia)) as [a Ea].
  cbn [initWorkers]. rewrite (go_div_pos k f Hk Hf).
  unfold bind at 1. cbn [liftRes ret]. rewrite Ea.
  unfold bind at 1. cbn [liftRes ret].
  destruct (SequentialGet pool) as [[lb |] pool1].
  - destruct (monitor (der w)) as [m |] eqn:Em; [| congruence].
    destruct (fileInfo (der w)) as [fi |] eqn:Efi; [| congruence].
    unfold onMonitor.
    change (bind getDer ?c w) with (c (der w) w). cbv beta.
    rewrite Efi. unfold bind at 1. cbn [deref ret].
    unfold bind at 1.
    change (bind getDer ?c w) with (c (der w) w). cbv beta.
    rewrite Em. unfold bind at 1. cbn [deref ret]. unfold modifyDer.
    do 2 eexists. split; [| reflexivity].
    split; cbn; congruence.
  - exists pool1, w. split; [split; assumption | reflexivity].
Qed.

Lemma initWorkers_outcome (urls : list panClientDownloadUrlEntity) (f : Z)
    (ranges : RangeList) :
  0 < f ->
  forall k pool w,
    0 <= k -> k + len ranges <= 2 ^ 63 -> equipped w ->
    ((forall j, k <= j < k + len ranges -> j / f < len urls) ->
     exists pool' w', initWorkers urls f k ranges pool w = (Ret pool', w')) /\
    ((exists j, k <= j < k + len ranges /\ len urls <= j / f) ->
     fst (initWorkers urls f k ranges pool w) = Panic IndexOutOfRange).
Proof.
  intros Hf. induction ranges as [| r rest IH]; intros k pool w Hk Hbound Heq.
  - split.
    + intros _. do 2 eexists. reflexivity.
    + intros (j & Hj & _). cbn in Hj. lia.
  - assert (Hlen : len (r :: rest) = len rest + 1) by (unfold len; cbn; lia).
    rewrite Hlen in *. pose proof (len_nonneg rest) as Hrest.
    destruct (Z.lt_ge_cases (k / f) (len urls)) as [Hin | Hout].
    + destruct (initWorkers_turn urls f k r rest pool w Hf ltac:(lia) Hin Heq)
        as (pool1 & w1 & Heq1 & E).
      rewrite E.
      destruct (IH (k + 1) pool1 w1 ltac:(lia) ltac:(lia) Heq1) as [Hok Hbad].
      split.
      * intros Hall. apply Hok. intros j Hj. apply Hall. lia.
      * intros (j & Hj & Hjout). apply Hbad.
        destruct (Z.eq_dec j k) as [-> | Hne]; [lia |].
        exists j. split; [lia | exact Hjout].
    + split.
      * intros Hall. specialize (Hall k ltac:(lia)). lia.
      * intros _. cbn [initWorkers]. rewrite (go_div_pos k f ltac:(lia) Hf).
        unfold bind at 1. cbn [liftRes ret].
        rewrite (go_index_outside urls (k / f) Hout). reflexivity.
Qed.

(** The worker construction comes through exactly when the number of URLs
    divides the number of ranges.  With fewer ranges than URLs it panics
    with a division by zero; otherwise, when the division leaves a
    remainder, with an index out of range. *)
Theorem Execute_workers_outcome (p : Planned)
    (urls : list panClientDownloadUrlEntity) (w : World) :
  urls <> [] ->
  bii_Ranges p <> [] ->
  len (bii_Ranges p) < 2 ^ 63 ->
  monitor (der w) <> None ->
  fileInfo (der w) <> None ->
  match fst (Execute_workers (p, urls) w) with
  | Ret _ => (len urls | len (bii_Ranges p))
  | Panic q =>
      ~ (len urls | len (bii_Ranges p)) /\
      q = (if len (bii_Ranges p) <? len urls then DivideByZero
           else IndexOutOfRange)
  end.
Proof.
  intros Hu Hr Hbound Hm Hfi.
  pose proof (len_pos _ Hu) as Hupos. pose proof (len_pos _ Hr) as Hrpos.
  destruct (Z.ltb_spec (len (bii_Ranges p)) (len urls)) as [Hlt | Hge].
  - rewrite (Execute_workers_divide_by_zero p urls w Hr Hlt).
    split; [| reflexivity].
    intros Hdiv. apply Z.divide_pos_le in Hdiv; lia.
  - set (n := len (bii_Ranges p)) in *. set (m := len urls) in *.
    assert (Hfpos : 0 < n / m) by (apply Z.div_str_pos; lia).
    pose proof (Z.div_mod n m ltac:(lia)) as Hdm.
    pose proof (Z.mod_pos_bound n m ltac:(lia)) as Hmod.
    destruct (initWorkers_outcome urls (n / m) (bii_Ranges p) Hfpos 0 (ppool p) w
                ltac:(lia) ltac:(fold n; lia) (conj Hm Hfi)) as [Hok Hbad].
    fold n in Hok, Hbad.
    unfold Execute_workers. fold n m. rewrite (go_div_pos n m ltac:(lia) Hupos).
    unfold bind at 1. cbn [liftRes ret].
    destruct (Z.eq_dec (n mod m) 0) as [Hz | Hnz].
    + assert (Hall : forall j, 0 <= j < 0 + n -> j / (n / m) < m).
      { intros j Hj. apply Z.div_lt_upper_bound; [lia |]. nia. }
      destruct (Hok Hall) as (pool' & w' & E).
      rewrite (bind_Ret _ _ _ _ _ E). cbn.
      apply Z.mod_divide; [lia | exact Hz].
    + assert (Hex : exists j, 0 <= j < 0 + n /\ m <= j / (n / m)).
      { exists (m * (n / m)). split; [nia |].
        rewrite Z.div_mul by lia. lia. }
      specialize (Hbad Hex).
      destruct (initWorkers urls (n / m) 0 (bii_Ranges p) (ppool p) w)
        as [[pool' | q] w'] eqn:E; cbn in Hbad; [discriminate |].
      inversion Hbad; subst q.
      rewrite (bind_Panic _ _ _ _ _ E). cbn. split; [| reflexivity].
      intros Hdiv. apply Z.mod_divide in Hdiv; [contradiction | lia].
Qed.

End workers_more.

(** ** The plan and the events of a whole session *)

Section session_more.

Context {ops : RangeGenOps}.
Variable X : Extern.

Lemma SelectParallel_Ret_ge (prefParallel maxParallel total parallel : Z)
    (l : RangeList) :
  SelectParallel X prefParallel maxParallel total l = Ret parallel -> 1 <= parallel.
Proof.
  unfold SelectParallel.
  match goal with
  | |- match ?c with _ => _ end = _ -> _ => destruct c as [v | q]; [| discriminate]
  end.
  intros H. inversion H. destruct (Z.ltb_spec v 1); lia.
Qed.

Lemma genRanges_bound (n : nat) :
  forall gen acc,
    len (fst (genRanges n gen acc)) <= len acc + Z.of_nat n.
Proof.
  induction n as [| n IH]; intros gen acc; cbn [genRanges].
  - cbn. lia.
  - destruct (GenRange gen) as [[idx [r |]] gen'].
    + specialize (IH gen' (acc ++ [r])). rewrite len_app in IH.
      unfold len in IH at 3. cbn in IH. lia.
    + cbn. lia.
Qed.

(** What the planning block hands on, read off its result. *)
Lemma Execute_plan_result (o : Opened) (w w' : World) (p : Planned) :
  Execute_plan X o w = (Ret (Next p), w') ->
  1 <= pparallel p /\
  ((0 <? len (Ranges (bii o))) = true /\ bii_Ranges p = Ranges (bii o) \/
   (0 <? len (Ranges (bii o))) = false /\ len (bii_Ranges p) <= pparallel p).
Proof.
  unfold Execute_plan.
  change (bind getDer ?k w) with (k (der w) w). cbv beta.
  destruct (config (der w)) as [cfg |]; [| discriminate].
  unfold bind at 1. cbn [deref ret].
  destruct (SelectParallel X (SliceParallel cfg) (MaxParallelWorkerCount X)
              (totalSize (ostatus o)) (Ranges (bii o))) as [parallel | q] eqn:Esp;
    [| discriminate].
  apply SelectParallel_Ret_ge in Esp.
  unfold bind at 1. cbn [liftRes ret].
  destruct (SelectBlockSizeAndInitRangeGen (der w) (ostatus o) parallel)
    as [[[bs err] st] | q]; [| discriminate].
  unfold bind at 1. cbn [liftRes ret].
  destruct err; [discriminate |].
  unfold onMonitor, bind, getDer, emit, modifyDer, ret. cbn.
  destruct (monitor (der w)); [| discriminate]. cbn.
  destruct (0 <? len (Ranges (bii o))) eqn:Er; cbn.
  - destruct (writerIsFder (der w)); cbn;
      intros H; inversion H; subst; cbn; (split; [exact Esp |]);
      left; split; reflexivity.
  - assert (Hone : forall x : Z, len [x] = 1) by reflexivity.
    destruct (writerIsFder (der w)); cbn;
      (destruct (Z.eqb_spec parallel 1) as [E1 | N1]; cbn;
       [ destruct (fileInfo (der w)); [| discriminate]; cbn;
         intros H; inversion H; subst; cbn; (split; [lia |]);
         right; split; [reflexivity | unfold len; cbn; lia]
       | destruct (rangeListGen st) as [gen |]; [| discriminate]; cbn;
         pose proof (genRanges_bound (Z.to_nat parallel) gen []) as Hb;
         destruct (genRanges (Z.to_nat parallel) gen []) as [rs gen'];
         cbn in Hb; intros H; inversion H; subst; cbn; (split; [lia |]);
         right; split; [reflexivity | unfold len in Hb |- *; cbn in Hb; lia] ]).
Qed.

(** A checkpoint's Range list is taken over as it is, whatever the parallel
    and the mode. *)
Theorem Execute_plan_reuses_checkpoint (o : Opened) (w w' : World) (p : Planned) :
  Execute_plan X o w = (Ret (Next p), w') ->
  Ranges (bii o) <> [] ->
  bii_Ranges p = Ranges (bii o).
Proof.
  intros H Hne. apply Execute_plan_result in H.
  destruct H as (_ & [[_ E] | [E _]]); [exact E |].
  pose proof (len_pos _ Hne). apply Z.ltb_ge in E. lia.
Qed.

(** A session without checkpoint ranges plans at least one worker and never
    more ranges than workers, whatever the range generator yields. *)
Theorem Execute_plan_fresh_bound (o : Opened) (w w' : World) (p : Planned) :
  Execute_plan X o w = (Ret (Next p), w') ->
  Ranges (bii o) = [] ->
  1 <= pparallel p /\ len (bii_Ranges p) <= pparallel p.
Proof.
  intros H Hnil. apply Execute_plan_result in H.
  destruct H as (H1 & [[E _] | [_ E]]); [| split; assumption].
  rewrite Hnil in E. discriminate.
Qed.

Lemma stable_Execute_monitor (p : Planned) : respects stable (Execute_monitor X p).
Proof.
  unfold Execute_monitor, removeInstanceState.
  repeat first [ apply stable_onMonitor | stable_step ].
Qed.

(** [Execute] never changes the file, the source, the drive, the accounts,
    the mirror list or the writer of its receiver, and a configuration or
    probe function that is set stays the same; a monitor that is set stays
    set. *)
Theorem Execute_stable (w0 w' : World) (r : Res (option error)) :
  Execute X w0 = (r, w') -> stable w0 w'.
Proof.
  unfold Execute, runDeferred.
  match goal with
  | |- (let (_, _) := ?m (enter w0) in _) = _ -> _ =>
      assert (Hm : respects stable m);
        [| destruct (m (enter w0)) as [r1 w1] eqn:E]
  end.
  - stable_step; [apply stable_reach_monitor |].
    destruct a; [stable_step | apply stable_Execute_monitor].
  - intros H. inversion H; subst; clear H.
    apply Hm in E. unfold stable in *. cbn in *. exact E.
Qed.

End session_more.

Section events_more.

Context {ops : RangeGenOps}.
Variable X : Extern.

Lemma fired_app (ev : Event) (l1 l2 : list Effect) :
  fired ev (l1 ++ l2) = (fired ev l1 + fired ev l2)%nat.
Proof. unfold fired. rewrite filter_app, length_app. reflexivity. Qed.

Lemma fired_quiet (l : list Effect) :
  Forall quiet l ->
  fired onExecuteEvent l = 0%nat /\ fired onSuccessEvent l = 0%nat /\
  fired onFinishEvent l = 0%nat.
Proof.
  induction 1 as [| e l He _ IH]; [repeat split; reflexivity |].
  destruct IH as (A & B & C). unfold fired in *. cbn [filter].
  destruct e as [[] | | | | | | | | | | | |]; cbn in *;
    try contradiction; repeat split; assumption.
Qed.

Ltac quiet_step :=
  first
    [ respects_step
    | apply grows_modifyDer
    | apply grows_emit; exact I
    | apply grows_defer; exact I ].

Lemma quiet_onMonitor (f : Monitor -> Monitor) :
  respects (grows quiet) (onMonitor f).
Proof. unfold onMonitor. repeat quiet_step. Qed.

Lemma quiet_probeAll (l : list string) :
  forall acc, respects (grows quiet) (probeAll l acc).
Proof.
  induction l as [| u rest IH]; intros acc; cbn [probeAll].
  - quiet_step.
  - quiet_step; [unfold probe, handleLoadBalancer; repeat quiet_step | apply IH].
Qed.

Lemma quiet_Execute_plan (o : Opened) : respects (grows quiet) (Execute_plan X o).
Proof.
  unfold Execute_plan. repeat first [ apply quiet_onMonitor | quiet_step ].
Qed.

Lemma quiet_subClientUrls (mainDriveName path : string) (spcs : list PanClient) :
  forall i result,
    respects (grows quiet) (subClientUrls X mainDriveName path i spcs result).
Proof.
  induction spcs as [| spc rest IH]; intros i result; cbn [subClientUrls].
  - quiet_step.
  - repeat first [ apply IH | quiet_step ].
Qed.

Lemma quiet_Execute_resolve (p : Planned) :
  respects (grows quiet) (Execute_resolve X p).
Proof.
  unfold Execute_resolve, getFileAllClientDownloadUrl, getFileSourceDownloadUrl,
    getAlbumSourceDownloadUrl, removeInstanceState.
  repeat first [ apply quiet_subClientUrls | quiet_step ].
Qed.

Lemma quiet_initWorkers (urls : list panClientDownloadUrlEntity) (factorNum : Z)
    (ranges : RangeList) :
  forall k pool, respects (grows quiet) (initWorkers urls factorNum k ranges pool).
Proof.
  induction ranges as [| r rest IH]; intros k pool; cbn [initWorkers].
  - quiet_step.
  - repeat first [ apply IH | apply quiet_onMonitor | quiet_step ].
Qed.

Lemma quiet_Execute_workers (pu : Planned * list panClientDownloadUrlEntity) :
  respects (grows quiet) (Execute_workers pu).
Proof.
  unfold Execute_workers. repeat first [ apply quiet_initWorkers | quiet_step ].
Qed.

(** The first block either is the zero-length shortcut, or is quiet. *)
Lemma Execute_open_log (w w1 : World) (r : Res (Flow Opened)) :
  Execute_open X w = (r, w1) ->
  (r = Ret (Return None) /\ log w1 = log w ++ [Trigger onFinishEvent] /\
   deferred w1 = deferred w) \/
  grows quiet w w1.
Proof.
  intros H.
  destruct (lazyInit_sets X w) as (wl & EL & _ & Hlog & Hdef & _).
  unfold Execute_open in H. rewrite (bind_Ret _ _ _ _ _ EL) in H.
  change (bind getDer ?k wl) with (k (der wl) wl) in H. cbv beta in H.
  assert (Hwl : forall w2, grows quiet wl w2 -> grows quiet w w2).
  { intros w2 [(l & El & Fl) (d & Ed & Fd)]. split.
    - exists l. rewrite <- Hlog. split; assumption.
    - exists d. rewrite <- Hdef. split; assumption. }
  destruct (fileInfo (der wl)) as [fi |].
  2:{ right. apply Hwl. inversion H; subst. reflexivity. }
  unfold bind at 1 in H. cbn [deref ret] in H.
  destruct (aliyunpan.FileSize fi =? 0).
  - left. unfold bind, emit, ret in H. inversion H; subst. cbn.
    rewrite Hlog, Hdef. repeat split; reflexivity.
  - right. apply Hwl. revert H.
    match goal with
    | |- ?m wl = _ -> _ => assert (Hm : respects (grows quiet) m)
    end.
    { unfold checkLoadBalancers, initInstanceState.
      repeat first [ apply quiet_probeAll | quiet_step ]. }
    intros H. exact (Hm _ _ _ H).
Qed.

Lemma reach_monitor_log (w w1 : World) (r : Res (Flow Planned)) :
  reach_monitor X w = (r, w1) ->
  (r = Ret (Return None) /\ log w1 = log w ++ [Trigger onFinishEvent] /\
   deferred w1 = deferred w) \/
  grows quiet w w1.
Proof.
  unfold reach_monitor, reach_workers, reach_resolve.
  destruct (Execute_open X w) as [[[e | o] | q] wo] eqn:Eo.
  - rewrite (step_Return _ _ _ _ _
               (step_Return _ _ _ _ _ (step_Return _ _ _ _ _ Eo))).
    intros H. inversion H; subst.
    destruct (Execute_open_log _ _ _ Eo) as [(E & A & B) | G];
      [left; inversion E; subst; repeat split; assumption | right; exact G].
  - intros H.
    destruct (Execute_open_log _ _ _ Eo) as [(E & _) | G]; [discriminate |].
    right. transitivity wo; [exact G |].
    revert H.
    match goal with
    | |- step (step (step _ ?a) ?b) ?c w = _ -> _ =>
        assert (Hm : respects (grows quiet) (step (step (a o) b) c))
    end.
    { quiet_step; [quiet_step; [apply quiet_Execute_plan | apply quiet_Execute_resolve]
                  | apply quiet_Execute_workers]. }
    intros H. apply (Hm wo r w1).
    unfold step, bind in H |- *. rewrite Eo in H. exact H.
  - rewrite (step_Panic _ _ _ _ _
               (step_Panic _ _ _ _ _ (step_Panic _ _ _ _ _ Eo))).
    intros H. inversion H; subst.
    destruct (Execute_open_log _ _ _ Eo) as [(E & _) | G];
      [discriminate | right; exact G].
Qed.

(** In any session, whatever its end, the events Execute, Success and
    Finish are each fired at most once; and Success is fired only in a
    session that returns nil and also fires Finish. *)
Theorem Execute_events_once (w0 : World) :
  exists session,
    log (snd (Execute X w0)) = log w0 ++ session /\
    (fired onExecuteEvent session <= 1)%nat /\
    (fired onSuccessEvent session <= 1)%nat /\
    (fired onFinishEvent session <= 1)%nat /\
    (fired onSuccessEvent session = 1%nat ->
     fst (Execute X w0) = Ret None /\ fired onFinishEvent session = 1%nat).
Proof.
  destruct (reach_monitor X (enter w0)) as [r w1] eqn:Er.
  destruct (reach_monitor_log _ _ _ Er) as [(E & Hlog & Hdef) | G].
  - subst r. rewrite (Execute_Return X _ _ _ Er). cbn.
    exists [Trigger onFinishEvent]. cbn in Hlog, Hdef.
    rewrite Hlog, Hdef, app_nil_r. cbn.
    repeat split; try lia; try discriminate.
  - destruct G as [(l & El & Fl) (d & Ed & Fd)]. cbn in El, Ed.
    rewrite app_nil_r in Ed. subst d.
    destruct (fired_quiet l Fl) as (L1 & L2 & L3).
    destruct (fired_quiet _ Fd) as (D1 & D2 & D3).
    destruct r as [[e | p] | q].
    + rewrite (Execute_Return X _ _ _ Er). cbn.
      exists (l ++ deferred w1). rewrite El, <- app_assoc.
      rewrite !fired_app, L1, L2, L3, D1, D2, D3.
      repeat split; try lia; try discriminate.
    + destruct (reach_monitor_reached X _ _ _ Er) as [_ R].
      destruct R as ((fi & Hfi & Hsz) & _ & _ & Hm).
      destruct (monitor (der w1)) as [m |] eqn:Em; [clear Hm | congruence].
      destruct (Execute_monitor_run X p w1 m fi Em Hfi Hsz)
        as (w' & E & Hlog & Hdef).
      rewrite (Execute_Next X _ _ _ Er), E. cbn.
      rewrite Hlog, Hdef, El.
      destruct (monitorErr X (armed m p (instanceState (der w1)))) as [e |].
      * exists (l ++ [Trigger onExecuteEvent; MonitorExecute;
                      Trigger onFinishEvent] ++ deferred w1).
        split; [cbn; rewrite <- !app_assoc; reflexivity |].
        rewrite !fired_app, L1, L2, L3, D1, D2, D3. cbn.
        repeat split; try lia; try discriminate.
      * exists (l ++ [Trigger onExecuteEvent; MonitorExecute;
                      Trigger onSuccessEvent; RemoveInstanceState;
                      Trigger onFinishEvent] ++ deferred w1).
        split; [cbn; rewrite <- !app_assoc; reflexivity |].
        rewrite !fired_app, L1, L2, L3, D1, D2, D3. cbn.
        repeat split; try lia; try reflexivity.
    + rewrite (Execute_Panic X _ _ _ Er). cbn.
      exists (l ++ deferred w1). rewrite El, <- app_assoc.
      rewrite !fired_app, L1, L2, L3, D1, D2, D3.
      repeat split; try lia; try discriminate.
Qed.

End events_more.

(** ** The further properties on sample sessions *)

Lemma SelectParallel_auto_witness :
  SelectParallel Sample.X0 0 3 500 [] = Ret 1 /\
  SelectParallel Sample.X0 0 3 5000 [] = Ret 3.
Proof.
  split.
  - apply (SelectParallel_auto Sample.X0 0 3 500);
      [lia | reflexivity | vm_compute; split; [discriminate | reflexivity]
      | reflexivity].
  - apply (SelectParallel_auto Sample.X0 0 3 5000);
      [lia | reflexivity | vm_compute; split; [discriminate | reflexivity]
      | reflexivity].
Defined.

Lemma SelectBlockSize_without_mode_witness :
  SelectBlockSizeAndInitRangeGen (der Sample.session_unknown_mode)
    Sample.status5 1 = Ret (-1, None, Sample.status5).
Proof.
  apply (proj1 (SelectBlockSize_without_mode (der Sample.session_unknown_mode)
                  Sample.status5 1)).
  reflexivity.
Defined.

Lemma SelectBlockSize_covers_file_witness :
  exists blockSize status',
    SelectBlockSizeAndInitRangeGen Sample.blockSizeDownloader Sample.status5 2
    = Ret (blockSize, None, status') /\
    blockSize <= 100 /\
    (5 / 2 + 1 <= 100 -> 5 < 2 * blockSize).
Proof.
  apply (SelectBlockSize_covers_file Sample.blockSizeDownloader
           (Sample.conf RangeGenMode_BlockSize 2) Sample.status5 2);
    [reflexivity | reflexivity | reflexivity | lia
    | vm_compute; split; [discriminate | reflexivity]].
Defined.


Lemma checkLoadBalancers_all_errors_witness :
  fst (checkLoadBalancers Sample2.session_dead_mirrors)
  = Ret (NewLoadBalancerResponseList [ {| URL_ := "der.durl" |} ]).
Proof.
  apply (checkLoadBalancers_all_errors Sample2.session_dead_mirrors
           Sample2.mirrorCheck eq_refl).
  intros u [<- | [<- | []]]; vm_compute; discriminate.
Defined.



Lemma getAlbumSourceDownloadUrl_single_witness :
  exists fi url,
    fileInfo (der Sample2.session_album) = Some fi /\
    url <> ""%string /\
    [ {| PanClient_ := MainClient; FileInfo := Sample.file 1000; DriveId := "d1";
         FileId := "f1"; FileUrl := "https://cdn/f1" |} ]
    = [ {| PanClient_ := MainClient; FileInfo := fi;
           DriveId := driveId (der Sample2.session_album);
           FileId := aliyunpan.FileId fi; FileUrl := url |} ] /\
    log (snd (getAlbumSourceDownloadUrl Sample2.session_album))
    = log Sample2.session_album
      ++ [ApiCall MainClient
            (OpShareAlbumGetFileDownloadUrl (aliyunpan.AlbumId fi)
               (aliyunpan.DriveId fi) (aliyunpan.FileId fi));
          Sleep200ms].
Proof.
  apply (getAlbumSourceDownloadUrl_single Sample2.session_album
           (snd (getAlbumSourceDownloadUrl Sample2.session_album)) _ None).
  vm_compute. reflexivity.
Defined.

Lemma resolved_urls_usable_witness :
  Sample2.urls2 <> [] /\
  Forall (fun e => FileUrl e <> ""%string)
    [ {| PanClient_ := MainClient; FileInfo := Sample.file 1000; DriveId := "d1";
         FileId := "f1"; FileUrl := "https://cdn/f1" |};
      {| PanClient_ := SubClient 1; FileInfo := Sample.file 1000; DriveId := "d1";
         FileId := "f1"; FileUrl := "https://cdn/f1" |} ].
Proof.
  split; [discriminate |].
  apply (resolved_urls_usable Sample.X0 Sample2.session_three_accounts
           (snd (getFileAllClientDownloadUrl Sample.X0
                   Sample2.session_three_accounts))
           _ None).
  vm_compute. reflexivity.
Defined.

Lemma Execute_album_nil_result_witness :
  filePanSource (der Sample2.session_album_nil) = AlbumSource /\
  fst (Execute Sample.X0 Sample2.session_album_nil) = Panic NilDereference.
Proof.
  eapply (Execute_album_nil_result Sample.X0 Sample2.session_album_nil _ _
            (Sample.file 1000));
    [vm_compute; reflexivity | reflexivity | reflexivity].
Defined.

Lemma Execute_main_user_info_fails_witness :
  fst (Execute Sample.X0 Sample2.session_no_user_info) = Ret (Some (ApiError 401)).
Proof.
  edestruct (Execute_main_user_info_fails Sample.X0 Sample2.session_no_user_info)
    with (fi := Sample.file 1000) (url := "https://cdn/f1"%string)
         (ui := @None aliyunpan.UserInfo) (e := ApiError 401)
    as (w' & E & _);
    [vm_compute; reflexivity | reflexivity | reflexivity | reflexivity
    | reflexivity |].
  rewrite E. reflexivity.
Defined.

Lemma Execute_verdict_witness :
  fst (Execute Sample.X0 Sample.session_single) = Ret None /\
  fired onSuccessEvent (log (snd (Execute Sample.X0 Sample.session_single)))
  = 1%nat.
Proof.
  edestruct (Execute_verdict Sample.X0 Sample.session_single) as (w' & E & L);
    [vm_compute; reflexivity | vm_compute; reflexivity |].
  rewrite E. split; [reflexivity |]. cbn [snd]. rewrite L. vm_compute. reflexivity.
Defined.


Lemma Execute_workers_outcome_witness :
  match fst (Execute_workers (Sample2.planned2, Sample2.urls2)
               Sample2.session_ready) with
  | Ret _ => (len Sample2.urls2 | len (bii_Ranges Sample2.planned2))
  | Panic q =>
      ~ (len Sample2.urls2 | len (bii_Ranges Sample2.planned2)) /\
      q = (if len (bii_Ranges Sample2.planned2) <? len Sample2.urls2
           then DivideByZero else IndexOutOfRange)
  end.
Proof.
  apply (Execute_workers_outcome Sample2.planned2 Sample2.urls2
           Sample2.session_ready);
    [discriminate | vm_compute; discriminate | reflexivity
    | vm_compute; discriminate | vm_compute; discriminate].
Defined.

Lemma Execute_plan_reuses_checkpoint_witness :
  exists p,
    fst (Execute_plan Sample.X0 Sample2.opened_checkpoint Sample2.session_ready)
    = Ret (Next p) /\
    bii_Ranges p = Ranges (bii Sample2.opened_checkpoint).
Proof.
  eexists. split; [vm_compute; reflexivity |].
  eapply (Execute_plan_reuses_checkpoint Sample.X0 Sample2.opened_checkpoint
            Sample2.session_ready
            (snd (Execute_plan Sample.X0 Sample2.opened_checkpoint
                    Sample2.session_ready)));
    [vm_compute; reflexivity | vm_compute; discriminate].
Defined.

Lemma Execute_plan_fresh_bound_witness :
  exists p,
    fst (Execute_plan Sample.X0 Sample2.opened_fresh Sample2.session_ready)
    = Ret (Next p) /\
    1 <= pparallel p /\ len (bii_Ranges p) <= pparallel p.
Proof.
  eexists. split; [vm_compute; reflexivity |].
  eapply (Execute_plan_fresh_bound Sample.X0 Sample2.opened_fresh
            Sample2.session_ready
            (snd (Execute_plan Sample.X0 Sample2.opened_fresh
                    Sample2.session_ready)));
    [vm_compute; reflexivity | reflexivity].
Defined.

Lemma Execute_stable_witness :
  stable Sample.session_single (snd (Execute Sample.X0 Sample.session_single)).
Proof.
  apply (Execute_stable Sample.X0 Sample.session_single
           (snd (Execute Sample.X0 Sample.session_single))
           (fst (Execute Sample.X0 Sample.session_single))).
  destruct (Execute Sample.X0 Sample.session_single); reflexivity.
Defined.

(** ** Properties of the share commands *)

Section command_facts.

Import command.
Variable E : Env.

Lemma exportLoop_rows (option : string) (records : list ShareEntity) :
  forall idx columns,
  exists rows,
    exportLoop E option records idx columns = columns ++ rows /\
    (List.length rows <= List.length records)%nat /\
    (forall i row,
       nth_error rows i = Some row ->
       List.length row = 7%nat /\
       hd_error row = Some (Itoa (idx + Z.of_nat i)) /\
       exists record,
         In record records /\
         nth_error row 6 = Some (exportStatus E record)) /\
    ((option =? "1")%string = true ->
     Forall (fun row => nth_error row 6 = Some "有效"%string) rows) /\
    ((option =? "1")%string = false -> List.length rows = List.length records).
Proof.
  induction records as [| record rest IH]; intros idx columns; cbn [exportLoop].
  - exists []. rewrite app_nil_r. split; [reflexivity |]. split; [cbn; lia |].
    split; [intros [| i] row H; discriminate |].
    split; [constructor | reflexivity].
  - assert (Hskip :
      (exists rows,
         exportLoop E option rest idx columns = columns ++ rows /\
         (List.length rows <= List.length rest)%nat /\
         (forall i row,
            nth_error rows i = Some row ->
            List.length row = 7%nat /\
            hd_error row = Some (Itoa (idx + Z.of_nat i)) /\
            exists record0,
              In record0 rest /\ nth_error row 6 = Some (exportStatus E record0)) /\
         ((option =? "1")%string = true ->
          Forall (fun row => nth_error row 6 = Some "有效"%string) rows) /\
         ((option =? "1")%string = false -> List.length rows = List.length rest)) ->
      (option =? "1")%string = true ->
      exists rows,
        exportLoop E option rest idx columns = columns ++ rows /\
        (List.length rows <= List.length (record :: rest))%nat /\
        (forall i row,
           nth_error rows i = Some row ->
           List.length row = 7%nat /\
           hd_error row = Some (Itoa (idx + Z.of_nat i)) /\
           exists record0,
             In record0 (record :: rest) /\
             nth_error row 6 = Some (exportStatus E record0)) /\
        ((option =? "1")%string = true ->
         Forall (fun row => nth_error row 6 = Some "有效"%string) rows) /\
        ((option =? "1")%string = false ->
         List.length rows = List.length (record :: rest))).
    { intros (rows & Hr & Hlen & Hrows & Hvalid & Hall) Hopt.
      exists rows. split; [exact Hr |]. split; [cbn; lia |].
      split; [| split; [exact Hvalid | intros H; congruence]].
      intros i row Hi. destruct (Hrows i row Hi) as (A & B & r0 & C & D).
      repeat split; try assumption. exists r0. split; [right; exact C | exact D]. }
    destruct (match FirstFile record with
              | Some _ => false
              | None => (option =? "1")%string
              end) eqn:Eskip.
    { apply Hskip; [apply IH |]. destruct (FirstFile record); [discriminate | exact Eskip]. }
    destruct ((option =? "1")%string
              && ((exportStatus E record =? "已过期")%string
                  || (exportStatus E record =? "已删除")%string)) eqn:Efilter.
    { apply Hskip; [apply IH |]. apply andb_true_iff in Efilter. tauto. }
    destruct (IH (idx + 1) (columns ++
                [[Itoa idx; ShareId record; ShareUrl record; SharePwd record;
                  ShareName record; expirationColumn record;
                  exportStatus E record]]))
      as (rows & Hr & Hlen & Hrows & Hvalid & Hall).
    eexists (_ :: rows). split; [rewrite Hr, <- app_assoc; reflexivity |].
    split; [cbn; lia |]. split; [| split].
    + intros [| i] row Hi; cbn in Hi.
      * inversion Hi; subst row. cbn. rewrite Z.add_0_r.
        repeat split. exists record. split; [left; reflexivity | reflexivity].
      * destruct (Hrows i row Hi) as (A & B & r0 & C & D).
        split; [exact A |]. split.
        -- rewrite B. f_equal. f_equal. lia.
        -- exists r0. split; [right; exact C | exact D].
    + intros Hopt. constructor; [| exact (Hvalid Hopt)].
      cbn. rewrite Hopt in Efilter. cbn in Efilter.
      apply orb_false_iff in Efilter. destruct Efilter as [F1 F2].
      unfold exportStatus, expiryStatus in *.
      destruct (FirstFile record); [| discriminate].
      destruct (Nat.ltb 0 (String.length (Expiration record))
                && (expiryUnix E (Expiration record) <? now E));
        [discriminate | reflexivity].
    + intros Hopt. cbn. rewrite (Hall Hopt). reflexivity.
Qed.

(** The exported table is the header followed by at most one row per share
    record; every row has seven columns and the rows are numbered 1, 2, 3
    and so on without gaps, also when records are left out. *)
Theorem exportColumns_numbered (option : string) (records : list ShareEntity) :
  exists rows,
    exportColumns E option records = exportHeader :: rows /\
    (List.length rows <= List.length records)%nat /\
    forall i row,
      nth_error rows i = Some row ->
      List.length row = 7%nat /\
      hd_error row = Some (Itoa (1 + Z.of_nat i)).
Proof.
  unfold exportColumns.
  destruct (exportLoop_rows option records 1 [exportHeader])
    as (rows & Hr & Hlen & Hrows & _).
  exists rows. split; [exact Hr |]. split; [exact Hlen |].
  intros i row Hi. destruct (Hrows i row Hi) as (A & B & _). split; assumption.
Qed.

(** With option 1 every exported row has the status "valid": deleted and
    expired shares are left out.  With any other option every record is
    exported. *)
Theorem exportColumns_option (option : string) (records : list ShareEntity) :
  exists rows,
    exportColumns E option records = exportHeader :: rows /\
    (option = "1"%string ->
     Forall (fun row => nth_error row 6 = Some "有效"%string) rows) /\
    (option <> "1"%string -> List.length rows = List.length records).
Proof.
  unfold exportColumns.
  destruct (exportLoop_rows option records 1 [exportHeader])
    as (rows & Hr & _ & _ & Hvalid & Hall).
  exists rows. split; [exact Hr |]. split.
  - intros ->. apply Hvalid. reflexivity.
  - intros Hne. apply Hall. apply String.eqb_neq. exact Hne.
Qed.

(** The list and the export agree on the status of a share that the server
    calls enabled.  The export does not read the server's status: a share
    that the list shows as forbidden is exported as deleted, expired or
    valid, and with an existing file and no expiration it is among the valid
    shares of option 1. *)
Theorem listStatus_exportStatus (record : ShareEntity) :
  (Status record = "enabled"%string ->
   listStatus E record = exportStatus E record) /\
  (Status record = "forbidden"%string ->
   listStatus E record = "违规"%string /\
   exportStatus E record <> "违规"%string /\
   (FirstFile record <> None -> Expiration record = ""%string ->
    exportColumns E "1" [record]
    = [exportHeader;
       [Itoa 1; ShareId record; ShareUrl record; SharePwd record;
        ShareName record; "永久有效"; "有效"]%string])).
Proof.
  split.
  - intros Hs. unfold listStatus, exportStatus. rewrite Hs. reflexivity.
  - intros Hs. unfold listStatus. rewrite Hs. cbn. split; [reflexivity |].
    split.
    + unfold exportStatus, expiryStatus. destruct (FirstFile record);
        [destruct (_ && _) |]; discriminate.
    + intros Hf He. unfold exportColumns. cbn [exportLoop].
      unfold exportStatus, expiryStatus, expirationColumn.
      destruct (FirstFile record); [| congruence]. rewrite He. reflexivity.
Qed.

(** When no path matches a file, [RunShareSet] reports each path and then
    that nothing valid was given, and sends no request. *)
Theorem RunShareSet_no_match (modeFlag driveId : string) (paths : list string)
    (expiredTime sharePwd : string) :
  paths <> [] ->
  (forall p, In p paths ->
     snd (matchPathByShellPattern E driveId (absolutePath E driveId p)) = true \/
     fst (matchPathByShellPattern E driveId (absolutePath E driveId p)) = []) ->
  RunShareSet E modeFlag driveId paths expiredTime sharePwd
  = (map (fun p => Println ["文件不存在: " ++ absolutePath E driveId p]%string) paths
       ++ [Printf "没有指定有效的文件\n" []],
     Ret tt).
Proof.
  intros Hne Hall.
  assert (Hloop : forall ps all,
             (forall p, In p ps ->
                snd (matchPathByShellPattern E driveId (absolutePath E driveId p)) = true \/
                fst (matchPathByShellPattern E driveId (absolutePath E driveId p)) = []) ->
             matchPaths E driveId ps all
             = (all, map (fun p => Println ["文件不存在: " ++ absolutePath E driveId p]%string) ps)).
  { induction ps as [| p rest IH]; intros all Hps; cbn [matchPaths map];
      [reflexivity |].
    pose proof (Hps p (or_introl eq_refl)) as Hp.
    destruct (matchPathByShellPattern E driveId (absolutePath E driveId p))
      as [fileList failed]. cbn in Hp.
    assert (Hc : failed || (len fileList =? 0) = true).
    { destruct Hp as [-> | ->]; [reflexivity | apply orb_true_r]. }
    rewrite Hc, IH by (intros q Hq; apply Hps; right; exact Hq). reflexivity. }
  unfold RunShareSet.
  replace (len paths <=? 0) with false
    by (symmetry; apply Z.leb_gt; apply len_pos; exact Hne).
  rewrite (Hloop paths [] Hall). reflexivity.
Qed.

(** When files were matched and the create request answers with neither a
    share nor an error, [RunShareSet] panics: the test of lines 277 and 296
    reads [err1.Code] of the nil error. *)
Theorem RunShareSet_nil_answer (modeFlag driveId : string) (paths : list string)
    (expiredTime sharePwd : string) :
  paths <> [] ->
  fst (matchPaths E driveId paths []) <> [] ->
  (forall fids, FastShareLinkCreate E driveId fids = (None, None)) ->
  (forall fids, ShareLinkCreate E driveId sharePwd expiredTime fids = (None, None)) ->
  snd (RunShareSet E modeFlag driveId paths expiredTime sharePwd)
  = Panic NilDereference.
Proof.
  intros Hne Hmatch Hfast Hshare. unfold RunShareSet.
  replace (len paths <=? 0) with false
    by (symmetry; apply Z.leb_gt; apply len_pos; exact Hne).
  destruct (matchPaths E driveId paths []) as [all out]. cbn in Hmatch.
  replace (len (map aliyunpan.FileId all) =? 0) with false.
  2:{ symmetry. apply Z.eqb_neq. destruct all; [congruence |].
      unfold len. cbn. lia. }
  destruct (modeFlag =? "3")%string.
  - rewrite Hfast. reflexivity.
  - rewrite Hshare. reflexivity.
Qed.

End command_facts.

(** ** Properties of the plugin callbacks *)

Section plugin_facts.

Import plugin.

Lemma isPrefix_app (pat s : jsstring) :
  isPrefix pat s = true <-> exists rest, s = pat ++ rest.
Proof.
  revert s. induction pat as [| p pat IH]; intros s; cbn.
  - split; [intros _; exists s; reflexivity | reflexivity].
  - destruct s as [| c s]; cbn.
    + split; [discriminate | intros [rest H]; discriminate].
    + rewrite andb_true_iff, Z.eqb_eq, IH. split.
      * intros [-> [rest ->]]. exists rest. reflexivity.
      * intros [rest H]. inversion H; subst. split; [reflexivity | eexists; reflexivity].
Qed.

(** An occurrence of [pat] in [s] after [stem]. *)
Lemma occurs_skipn (pat s : jsstring) (j : nat) :
  (j <= List.length s)%nat /\ isPrefix pat (skipn j s) = true <->
  exists stem rest, List.length stem = j /\ s = stem ++ pat ++ rest.
Proof.
  split.
  - intros [Hj H]. apply isPrefix_app in H. destruct H as [rest H].
    exists (firstn j s), rest. split.
    + rewrite length_firstn. lia.
    + rewrite <- H. symmetry. apply firstn_skipn.
  - intros (stem & rest & <- & ->). split.
    + rewrite length_app. lia.
    + rewrite skipn_app, skipn_all, Nat.sub_diag. cbn. apply isPrefix_app.
      exists rest. reflexivity.
Qed.

Lemma indexOfFrom_range (pat s : jsstring) (k : Z) :
  indexOfFrom pat s k = -1 \/ k <= indexOfFrom pat s k.
Proof.
  revert k. induction s as [| c s IH]; intros k; cbn [indexOfFrom].
  - destruct (isPrefix pat []); [right; lia | left; reflexivity].
  - destruct (isPrefix pat (c :: s)); [right; lia |].
    destruct (IH (k + 1)) as [H | H]; [left; exact H | right; lia].
Qed.

Lemma indexOf_zero (s pat : jsstring) :
  (indexOf s pat =? 0) = isPrefix pat s.
Proof.
  unfold indexOf. destruct s as [| c s]; cbn [indexOfFrom].
  - destruct (isPrefix pat []); reflexivity.
  - destruct (isPrefix pat (c :: s)); [reflexivity |].
    apply Z.eqb_neq. destruct (indexOfFrom_range pat s (0 + 1)); lia.
Qed.

Lemma lastIndexOfFrom_positive (pat s : jsstring) :
  forall k found,
  0 <= k -> found < k ->
  (0 < lastIndexOfFrom pat s k found <->
   0 < found \/
   exists j, (j <= List.length s)%nat /\ isPrefix pat (skipn j s) = true /\
             0 < k + Z.of_nat j).
Proof.
  induction s as [| c s IH]; intros k found Hk Hf; cbn [lastIndexOfFrom].
  - destruct (isPrefix pat []) eqn:Ep.
    + split.
      * intros H. right. exists 0%nat. cbn. rewrite Ep. repeat split; lia.
      * intros [H | (j & Hj & _ & H)]; [lia |]. cbn in Hj. lia.
    + split; [intros H; left; exact H |].
      intros [H | (j & Hj & Hp & _)]; [exact H |].
      destruct j; cbn in Hp; congruence.
  - rewrite IH by (destruct (isPrefix pat (c :: s)); lia).
    destruct (isPrefix pat (c :: s)) eqn:Ep.
    + split.
      * intros [H | (j & Hj & Hp & H)].
        -- right. exists 0%nat. cbn [skipn]. rewrite Ep. cbn. repeat split; lia.
        -- right. exists (S j). cbn [skipn]. cbn. repeat split; try assumption; lia.
      * intros [H | (j & Hj & Hp & H)]; [lia |].
        destruct j as [| j].
        -- left. lia.
        -- right. exists j. cbn in Hj, Hp. repeat split; try assumption; lia.
    + split.
      * intros [H | (j & Hj & Hp & H)]; [left; exact H |].
        right. exists (S j). cbn. repeat split; try assumption; lia.
      * intros [H | (j & Hj & Hp & H)]; [left; exact H |].
        destruct j as [| j]; [cbn in Hp; congruence |].
        right. exists j. cbn in Hj, Hp. repeat split; try assumption; lia.
Qed.

(** [lastIndexOf] is positive exactly when the text occurs after a
    non-empty stem. *)
Lemma lastIndexOf_positive (s pat : jsstring) :
  (0 <? lastIndexOf s pat) = true <->
  exists stem rest, stem <> [] /\ s = stem ++ pat ++ rest.
Proof.
  rewrite Z.ltb_lt. unfold lastIndexOf.
  rewrite lastIndexOfFrom_positive by lia. split.
  - intros [H | (j & Hj & Hp & H)]; [lia |].
    destruct (proj1 (occurs_skipn pat s j) (conj Hj Hp)) as (stem & rest & Hl & Hs).
    exists stem, rest. split; [| exact Hs]. intros ->. cbn in Hl. lia.
  - intros (stem & rest & Hne & Hs). right. exists (List.length stem).
    destruct (proj2 (occurs_skipn pat s (List.length stem))) as [Hj Hp];
      [exists stem, rest; split; [reflexivity | exact Hs] |].
    repeat split; try assumption. destruct stem; [congruence | cbn; lia].
Qed.

Lemma searchFrom_found (s : jsstring) :
  forall k, 0 <= k ->
  (0 <=? searchFrom s k) = true <->
  exists j, matchDotTxtEnd (skipn j s) = true.
Proof.
  induction s as [| c s IH]; intros k Hk; cbn [searchFrom].
  - cbn. split; [discriminate | intros [j H]; destruct j; discriminate].
  - destruct (matchDotTxtEnd (c :: s)) eqn:Em.
    + split; [intros _; exists 0%nat; exact Em | intros _; apply Z.leb_le; lia].
    + rewrite IH by lia. split.
      * intros [j H]. exists (S j). exact H.
      * intros [[| j] H]; [cbn [skipn] in H; congruence | exists j; exact H].
Qed.

Lemma matchDotTxtEnd_shape (s : jsstring) :
  matchDotTxtEnd s = true <->
  exists c t1 x t2,
    s = [c; t1; x; t2] /\ isLineTerminator c = false /\
    (t1 = 116 \/ t1 = 84) /\ (x = 120 \/ x = 88) /\ (t2 = 116 \/ t2 = 84).
Proof.
  split.
  - destruct s as [| c [| t1 [| x [| t2 [| ? ?]]]]]; cbn; try discriminate.
    unfold sameLetter. rewrite !andb_true_iff, !orb_true_iff, negb_true_iff, !Z.eqb_eq.
    intros [[[A B] C] D]. exists c, t1, x, t2. tauto.
  - intros (c & t1 & x & t2 & -> & A & B & C & D). cbn. unfold sameLetter.
    rewrite !andb_true_iff, !orb_true_iff, negb_true_iff, !Z.eqb_eq. tauto.
Qed.

(** [search] with [/.txt$/i] finds a match exactly when the text ends in a
    unit that is no line terminator followed by [txt] in any case. *)
Lemma search_dot_txt_end_found (s : jsstring) :
  (0 <=? search_dot_txt_end s) = true <->
  exists stem c t1 x t2,
    s = stem ++ [c; t1; x; t2] /\ isLineTerminator c = false /\
    (t1 = 116 \/ t1 = 84) /\ (x = 120 \/ x = 88) /\ (t2 = 116 \/ t2 = 84).
Proof.
  unfold search_dot_txt_end. rewrite searchFrom_found by lia. split.
  - intros [j H]. apply matchDotTxtEnd_shape in H.
    destruct H as (c & t1 & x & t2 & Hs & H).
    exists (firstn j s), c, t1, x, t2. split; [| exact H].
    rewrite <- Hs. symmetry. apply firstn_skipn.
  - intros (stem & c & t1 & x & t2 & -> & H). exists (List.length stem).
    rewrite skipn_app, skipn_all, Nat.sub_diag. cbn [skipn app].
    apply matchDotTxtEnd_shape. exists c, t1, x, t2. split; [reflexivity | exact H].
Qed.

Lemma jseq_eq (a b : jsstring) : jseq a b = true <-> a = b.
Proof.
  unfold jseq. destruct (list_eq_dec Z.eq_dec a b); split; congruence.
Qed.

(** The download of a file is refused exactly when [.txt] occurs in its name
    behind at least one other unit, wherever it occurs: [notes.txt] and
    [notes.txt.zip] are refused, [.txt] and [.txt.zip] are downloaded.  In
    every other case the download is approved. *)
Theorem downloadFilePrepareCallback_approval (params : Params) :
  (downloadApproved (downloadFilePrepareCallback params) = lit "no" <->
   exists stem rest,
     stem <> [] /\ driveFileName params = stem ++ lit ".txt" ++ rest) /\
  (downloadApproved (downloadFilePrepareCallback params) = lit "no" \/
   downloadApproved (downloadFilePrepareCallback params) = lit "yes").
Proof.
  rewrite <- lastIndexOf_positive. unfold downloadFilePrepareCallback.
  destruct (0 <? lastIndexOf (driveFileName params) (lit ".txt")); cbn -[lit lastIndexOf].
  - split; [split; reflexivity | left; reflexivity].
  - split; [| right; destruct (0 <? lastIndexOf _ (lit ".dmg.exe")); reflexivity].
    destruct (0 <? lastIndexOf _ (lit ".dmg.exe")); cbn; split; discriminate.
Qed.

(** The local path is renamed exactly when [.dmg.exe] occurs in the name of
    the file behind at least one other unit: the answer is then the given
    local path without its last four units (the empty text when it has at
    most four), whatever that path ends in.  Otherwise the answer carries
    the empty path. *)
Theorem downloadFilePrepareCallback_rename (params : Params) :
  ((exists stem rest,
      stem <> [] /\ driveFileName params = stem ++ lit ".dmg.exe" ++ rest) ->
   localFilePath' (downloadFilePrepareCallback params)
   = firstn (List.length (localFilePath params) - 4) (localFilePath params)) /\
  (~ (exists stem rest,
        stem <> [] /\ driveFileName params = stem ++ lit ".dmg.exe" ++ rest) ->
   localFilePath' (downloadFilePrepareCallback params) = []).
Proof.
  rewrite <- lastIndexOf_positive. unfold downloadFilePrepareCallback.
  destruct (0 <? lastIndexOf _ (lit ".dmg.exe")).
  - split; [intros _ | intros H; exfalso; apply H; reflexivity].
    assert (Hs : substr (localFilePath params) 0
                   (len (localFilePath params) - len (lit ".exe"))
                 = firstn (List.length (localFilePath params) - 4)
                          (localFilePath params)).
    { unfold substr, len. cbn [lit list_ascii_of_string map List.length].
      change (0 <=? 0) with true. cbv iota. rewrite Z.sub_0_r. cbn [Z.to_nat skipn].
      destruct (Z.min _ _ <=? 0) eqn:El.
      - apply Z.leb_le in El.
        replace (List.length (localFilePath params) - 4)%nat with 0%nat by lia.
        reflexivity.
      - apply Z.leb_gt in El. f_equal. lia. }
    destruct (0 <? lastIndexOf _ (lit ".txt")); cbn -[lit substr]; exact Hs.
  - split; [discriminate | intros _].
    destruct (0 <? lastIndexOf _ (lit ".txt")); reflexivity.
Qed.

(** A file of the drive is left out of the scan exactly when its name starts
    with a dot or with [~$]. *)
Theorem syncScanPanFilePrepareCallback_refuses (params : Params) :
  syncScanPanApproved (syncScanPanFilePrepareCallback params) = lit "no" <->
  (exists rest, driveFileName params = lit "." ++ rest) \/
  (exists rest, driveFileName params = lit "~$" ++ rest).
Proof.
  rewrite <- !isPrefix_app. unfold syncScanPanFilePrepareCallback.
  rewrite !indexOf_zero.
  destruct (isPrefix (lit ".") _), (isPrefix (lit "~$") _); cbn;
    split; intros H; try reflexivity; try tauto; try discriminate.
  destruct H; discriminate.
Qed.

(** A local file is left out of the scan exactly when its name starts with
    a dot or with [~$], is [password.key] or [@eadir], or ends in any unit
    that is no line terminator followed by [txt] in upper or lower case.
    The dot of the pattern is not a literal dot: [atxt] and [notes_TXT] are
    left out as well, [txt] alone is not. *)
Theorem syncScanLocalFilePrepareCallback_refuses (params : Params) :
  syncScanLocalApproved (syncScanLocalFilePrepareCallback params) = lit "no" <->
  (exists rest, localFileName params = lit "." ++ rest) \/
  (exists rest, localFileName params = lit "~$" ++ rest) \/
  (exists stem c t1 x t2,
     localFileName params = stem ++ [c; t1; x; t2] /\
     isLineTerminator c = false /\
     (t1 = 116 \/ t1 = 84) /\ (x = 120 \/ x = 88) /\ (t2 = 116 \/ t2 = 84)) \/
  localFileName params = lit "password.key" \/
  localFileName params = lit "@eadir".
Proof.
  rewrite <- !isPrefix_app, <- search_dot_txt_end_found, <- !jseq_eq.
  unfold syncScanLocalFilePrepareCallback. rewrite !indexOf_zero.
  destruct (isPrefix (lit ".") _), (isPrefix (lit "~$") _),
    (0 <=? search_dot_txt_end _), (jseq _ (lit "password.key")),
    (jseq _ (lit "@eadir")); cbn;
    split; intros H; try reflexivity; try tauto; try discriminate.
Qed.

(** Whatever is left out on the drive side is left out on the local side:
    a name that the scan of the drive refuses is refused by the scan of the
    local folder too. *)
Lemma syncScanPan_refused_locally (name path : jsstring) :
  syncScanPanApproved (syncScanPanFilePrepareCallback (named name path)) = lit "no" ->
  syncScanLocalApproved (syncScanLocalFilePrepareCallback (named name path)) = lit "no".
Proof.
  unfold syncScanPanFilePrepareCallback, syncScanLocalFilePrepareCallback.
  cbn [named driveFileName localFileName]. rewrite !indexOf_zero.
  destruct (isPrefix (lit ".") name), (isPrefix (lit "~$") name),
    (0 <=? search_dot_txt_end name), (jseq name (lit "password.key")),
    (jseq name (lit "@eadir")); cbn; try discriminate; reflexivity.
Qed.

End plugin_facts.

(** ** The share commands and the callbacks at concrete inputs *)

Lemma exportColumns_numbered_witness :
  exists rows,
    command.exportColumns
      (CommandSample.env [] (None, None) CommandSample.noMatch) "1"
      CommandSample.records4
    = command.exportHeader :: rows /\
    (List.length rows <= 4)%nat.
Proof.
  destruct (exportColumns_numbered
              (CommandSample.env [] (None, None) CommandSample.noMatch) "1"
              CommandSample.records4) as (rows & Hr & Hlen & _).
  exists rows. split; [exact Hr | exact Hlen].
Defined.

Lemma exportColumns_option_witness :
  exists rows,
    command.exportColumns
      (CommandSample.env [] (None, None) CommandSample.noMatch) "1"
      CommandSample.records4
    = command.exportHeader :: rows /\
    Forall (fun row => nth_error row 6 = Some "有效"%string) rows.
Proof.
  destruct (exportColumns_option
              (CommandSample.env [] (None, None) CommandSample.noMatch) "1"
              CommandSample.records4) as (rows & Hr & Hvalid & _).
  exists rows. split; [exact Hr | apply Hvalid; reflexivity].
Defined.

Lemma listStatus_exportStatus_witness :
  command.listStatus
    (CommandSample.env [] (None, None) CommandSample.noMatch)
    (CommandSample.share "s4" "" "forbidden" true)
  = "违规"%string /\
  command.exportColumns
    (CommandSample.env [] (None, None) CommandSample.noMatch) "1"
    [CommandSample.share "s4" "" "forbidden" true]
  = [command.exportHeader;
     ["1"; "s4"; "https://www.alipan.com/s/s4"; ""; "report.bin"; "永久有效";
      "有效"]%string].
Proof.
  destruct (proj2 (listStatus_exportStatus
                     (CommandSample.env [] (None, None) CommandSample.noMatch)
                     (CommandSample.share "s4" "" "forbidden" true))
              eq_refl) as (A & _ & C).
  split; [exact A | apply C; [discriminate | reflexivity]].
Defined.

Lemma RunShareSet_no_match_witness :
  command.RunShareSet
    (CommandSample.env [] (None, None) CommandSample.noMatch)
    "1" "d1" ["a"; "b"]%string "" ""
  = ([command.Println ["文件不存在: /a"]%string;
      command.Println ["文件不存在: /b"]%string;
      command.Printf "没有指定有效的文件\n" []],
     Ret tt).
Proof.
  apply (RunShareSet_no_match
           (CommandSample.env [] (None, None) CommandSample.noMatch)
           "1" "d1" ["a"; "b"]%string "" "").
  - discriminate.
  - intros p _. right. reflexivity.
Defined.

Lemma RunShareSet_nil_answer_witness :
  snd (command.RunShareSet
         (CommandSample.env [] (None, None) CommandSample.oneMatch)
         "3" "d1" ["a"]%string "" "")
  = Panic NilDereference.
Proof.
  apply (RunShareSet_nil_answer
           (CommandSample.env [] (None, None) CommandSample.oneMatch)
           "3" "d1" ["a"]%string "" "").
  - discriminate.
  - vm_compute. discriminate.
  - intros fids. reflexivity.
  - intros fids. reflexivity.
Defined.

Lemma downloadFilePrepareCallback_approval_witness :
  plugin.downloadApproved
    (plugin.downloadFilePrepareCallback
       (plugin.named (plugin.lit "notes.txt.zip") (plugin.lit "/tmp/notes.txt.zip")))
  = plugin.lit "no".
Proof.
  apply (proj1 (downloadFilePrepareCallback_approval
                  (plugin.named (plugin.lit "notes.txt.zip")
                                (plugin.lit "/tmp/notes.txt.zip")))).
  exists (plugin.lit "notes"), (plugin.lit ".zip").
  split; [discriminate | reflexivity].
Defined.

Lemma downloadFilePrepareCallback_rename_witness :
  plugin.localFilePath'
    (plugin.downloadFilePrepareCallback
       (plugin.named (plugin.lit "app.dmg.exe.part") (plugin.lit "/tmp/app.bin")))
  = plugin.lit "/tmp/app".
Proof.
  apply (proj1 (downloadFilePrepareCallback_rename
                  (plugin.named (plugin.lit "app.dmg.exe.part")
                                (plugin.lit "/tmp/app.bin")))).
  exists (plugin.lit "app"), (plugin.lit ".part").
  split; [discriminate | reflexivity].
Defined.

Lemma syncScanPanFilePrepareCallback_refuses_witness :
  plugin.syncScanPanApproved
    (plugin.syncScanPanFilePrepareCallback
       (plugin.named (plugin.lit "~$draft.docx") (plugin.lit "")))
  = plugin.lit "no".
Proof.
  apply (proj2 (syncScanPanFilePrepareCallback_refuses
                  (plugin.named (plugin.lit "~$draft.docx") (plugin.lit "")))).
  right. exists (plugin.lit "draft.docx"). reflexivity.
Defined.

Lemma syncScanLocalFilePrepareCallback_refuses_witness :
  plugin.syncScanLocalApproved
    (plugin.syncScanLocalFilePrepareCallback
       (plugin.named (plugin.lit "notes_TXT") (plugin.lit "")))
  = plugin.lit "no".
Proof.
  apply (proj2 (syncScanLocalFilePrepareCallback_refuses
                  (plugin.named (plugin.lit "notes_TXT") (plugin.lit "")))).
  right. right. left.
  exists (plugin.lit "notes"), 95, 84, 88, 84.
  split; [reflexivity |]. split; [reflexivity |]. lia.
Defined.
